(** * Narrative analysis service: a shallow embedding and its properties

    The development follows [backend/app/services/analysis_service.py].
    Python values are modelled as follows.

    - [str] is [string]; the character classes used by [lower], [title],
      [strip], [split] and by the regular expressions are those of Python on
      code points below 128 (the texts are taken to be ASCII).
    - [int] is [Z]; lengths and indices that Python keeps as [int] are
      converted with [Z.of_nat] where they enter arithmetic.
    - [float] is the binary64 format of [SpecFloat] (precision 53, maximal
      exponent 1024); true division of integers and the product of a float
      with an integer are the correctly rounded operations [SFdiv] and
      [SFmul]; [int(x)] truncates towards zero.
    - a raised exception is [None] in the option monad.
    - a [datetime] is a number of microseconds. Python refuses to order a
      timestamp that carries an offset and one that does not, and [sorted]
      then raises; the numbers do not tell the two apart, so the properties
      of the analysis are stated of the results that are returned.
    - where a property depends on the characters of a text, its statement
      asks for a text of ASCII characters ([TextNotions.isascii]).
    - dictionaries whose iteration order decides a result (the keyword
      tables, [Counter]) are association lists in insertion order; the
      relationship matrix is a finite map keyed by strings.

    The routes of [backend/app/routers/analytics.py] and
    [backend/app/routers/branches.py] and the branch generation of
    [backend/app/services/ai_service.py] follow, modelled as follows.

    - a route returns its response model or an [HTTPException].
    - a decoded JSON document is a value of [Json.value]; the fields of
      [BranchOption] are validated as pydantic 2 does by default: a [str]
      field takes a string only, a [List[str]] field a list of strings, and
      the pattern of [impact] has to match the whole text.
    - what a call reads from outside (the clock, the digest, Redis, the
      completion of the model) is a record [World]; the readings of the
      clock are numbered, and the functions that read it pass the number of
      readings on. Writing to Redis and logging leave no trace in a
      result and are left out. *)

From Stdlib Require Import ZArith Lia Ascii String List.
From Stdlib Require Import Floats.SpecFloat.
From Stdlib Require Import Sorting.Sorted.
From stdpp Require Import base numbers option list strings gmap pretty.

Local Open Scope string_scope.

(** ** Python primitives *)

Module Py.

(** *** Character classes (code points below 128) *)

Definition code (c : ascii) : nat := nat_of_ascii c.

Definition between (lo hi : nat) (c : ascii) : bool :=
  (lo <=? code c)%nat && (code c <=? hi)%nat.

Definition isupper_c (c : ascii) : bool := between 65 90 c.
Definition islower_c (c : ascii) : bool := between 97 122 c.
Definition isdigit_c (c : ascii) : bool := between 48 57 c.
Definition isalpha_c (c : ascii) : bool := isupper_c c || islower_c c.

(** [\w] of the [re] module: letters, digits and the underscore. *)
Definition isword_c (c : ascii) : bool :=
  isalpha_c c || isdigit_c c || (code c =? 95)%nat.

(** [str.isspace]: TAB, LF, VT, FF, CR, the separators 0x1c-0x1f, space. *)
Definition isspace_c (c : ascii) : bool :=
  between 9 13 c || between 28 32 c.

Definition lower_c (c : ascii) : ascii :=
  if isupper_c c then ascii_of_nat (code c + 32) else c.
Definition upper_c (c : ascii) : ascii :=
  if islower_c c then ascii_of_nat (code c - 32) else c.

(** *** [str] methods *)

(** [s.lower()] *)
Fixpoint lower (s : string) : string :=
  match s with
  | "" => ""
  | String c s' => String (lower_c c) (lower s')
  end.

(** [s.title()]: a letter that follows a letter is lowercased, any other
    letter is uppercased. *)
Fixpoint title_from (prev_cased : bool) (s : string) : string :=
  match s with
  | "" => ""
  | String c s' =>
      if isalpha_c c
      then String (if prev_cased then lower_c c else upper_c c) (title_from true s')
      else String c (title_from false s')
  end.
Definition title (s : string) : string := title_from false s.

(** [s.startswith(sub)] *)
Fixpoint startswith (sub s : string) : bool :=
  match sub, s with
  | "", _ => true
  | String a sub', String b s' => bool_decide (a = b) && startswith sub' s'
  | String _ _, "" => false
  end.

(** [sub in s] *)
Fixpoint contains (sub s : string) : bool :=
  startswith sub s ||
  match s with
  | "" => false
  | String _ s' => contains sub s'
  end.

(** [s.count(sub)] for a non-empty [sub]: occurrences are searched from left
    to right and do not overlap; after a match at some position the scan
    resumes behind it, which [skip] accounts for. *)
Fixpoint count_from (sub : string) (skip : nat) (s : string) : nat :=
  match s with
  | "" => 0
  | String _ s' =>
      match skip with
      | S k => count_from sub k s'
      | O => if startswith sub s
             then S (count_from sub (String.length sub - 1) s')
             else count_from sub 0 s'
      end
  end.

(** [s.count(sub)]; the empty pattern matches between all characters. *)
Definition count (sub s : string) : Z :=
  match sub with
  | "" => Z.of_nat (String.length s) + 1
  | _ => Z.of_nat (count_from sub 0 s)
  end.

Fixpoint lstrip (s : string) : string :=
  match s with
  | "" => ""
  | String c s' => if isspace_c c then lstrip s' else s
  end.

Fixpoint rstrip (s : string) : string :=
  match s with
  | "" => ""
  | String c s' =>
      match rstrip s' with
      | "" => if isspace_c c then "" else String c ""
      | r => String c r
      end
  end.

(** [s.strip()] *)
Definition strip (s : string) : string := rstrip (lstrip s).

(** [s.split()]: the maximal runs of non-space characters; [cur] is the
    run being read. *)
Fixpoint split_from (cur : string) (s : string) : list string :=
  match s with
  | "" => match cur with "" => [] | _ => [cur] end
  | String c s' =>
      if isspace_c c
      then match cur with
           | "" => split_from "" s'
           | _ => cur :: split_from "" s'
           end
      else split_from (cur +:+ String c "") s'
  end.
Definition split (s : string) : list string := split_from "" s.

(** [sep.join(parts)] *)
Fixpoint join (sep : string) (parts : list string) : string :=
  match parts with
  | [] => ""
  | [p] => p
  | p :: ps => p +:+ sep +:+ join sep ps
  end.

(** *** The regular expressions of the service *)

(** Index of the first [>] of [s]. *)
Fixpoint gt_index (s : string) : option nat :=
  match s with
  | "" => None
  | String c s' => if bool_decide (c = ">"%char) then Some 0 else S <$> gt_index s'
  end.

(** [re.sub(r'<[^>]+>', '', s)]: a [<] starts a match when at least one
    character other than [>] follows it and a [>] closes the run; the match
    is removed and the scan resumes behind it. *)
Fixpoint sub_tags_from (skip : nat) (s : string) : string :=
  match s with
  | "" => ""
  | String c s' =>
      match skip with
      | S k => sub_tags_from k s'
      | O =>
          if bool_decide (c = "<"%char)
          then match gt_index s' with
               | Some (S n) => sub_tags_from (S (S n)) s'
               | _ => String c (sub_tags_from 0 s')
               end
          else String c (sub_tags_from 0 s')
      end
  end.
Definition sub_tags (s : string) : string := sub_tags_from 0 s.

(** The longest prefix of lowercase letters, and what follows it. *)
Fixpoint span_lower (s : string) : string * string :=
  match s with
  | "" => ("", "")
  | String c s' =>
      if islower_c c
      then let '(run, rest) := span_lower s' in (String c run, rest)
      else ("", s)
  end.

(** [\b] behind a word character: the end of the text or a non-word
    character follows. *)
Definition boundary_after (rest : string) : bool :=
  match rest with
  | "" => true
  | String d _ => negb (isword_c d)
  end.

(** [re.findall(r'\b[A-Z][a-z]+\b', s)]: [prev_word] tells whether the
    character before the current position is a word character. *)
Fixpoint findall_names_from (skip : nat) (prev_word : bool) (s : string) : list string :=
  match s with
  | "" => []
  | String c s' =>
      match skip with
      | S k => findall_names_from k true s'
      | O =>
          let '(run, rest) := span_lower s' in
          if negb prev_word && isupper_c c
             && negb (bool_decide (run = "")) && boundary_after rest
          then String c run :: findall_names_from (String.length run) true s'
          else findall_names_from 0 (isword_c c) s'
      end
  end.
Definition findall_names (s : string) : list string := findall_names_from 0 false s.

Definition isterminator_c (c : ascii) : bool :=
  bool_decide (c = "."%char) || bool_decide (c = "!"%char) || bool_decide (c = "?"%char).

(** [re.split(r'[.!?]+', s)]: [in_sep] holds inside a run of terminators,
    [cur] is the piece being read. *)
Fixpoint re_split_from (in_sep : bool) (cur : string) (s : string) : list string :=
  match s with
  | "" => [cur]
  | String c s' =>
      if isterminator_c c
      then if in_sep then re_split_from true "" s'
           else cur :: re_split_from true "" s'
      else re_split_from false (cur +:+ String c "") s'
  end.
Definition re_split_sentences (s : string) : list string := re_split_from false "" s.

(** *** Lists *)

(** [sum(l)] *)
Definition sum (l : list Z) : Z := foldl Z.add 0%Z l.

(** [any(l)] on integers: some element is not zero. *)
Definition any_nonzero (l : list Z) : bool := existsb (fun x => negb (x =? 0)%Z) l.

(** [max(l, key=key)]: the first element whose key is maximal; [None] is
    the [ValueError] on an empty sequence. *)
Definition max_by {A} (key : A -> Z) (l : list A) : option A :=
  match l with
  | [] => None
  | x :: xs => Some (foldl (fun best y => if (key best <? key y)%Z then y else best) x xs)
  end.

(** [max(l)] *)
Definition max (l : list Z) : option Z := max_by id l.

(** [l.index(x)]; [None] is the [ValueError] when [x] is absent. *)
Fixpoint index (x : Z) (l : list Z) : option nat :=
  match l with
  | [] => None
  | y :: ys => if (y =? x)%Z then Some 0 else S <$> index x ys
  end.

(** [sorted(l, key=key)]: stable, so an element is inserted in front of
    the first element of the sorted tail whose key is not smaller. *)
Fixpoint insert_by {A} (key : A -> Z) (x : A) (l : list A) : list A :=
  match l with
  | [] => [x]
  | y :: ys => if (key x <=? key y)%Z then x :: l else y :: insert_by key x ys
  end.
Fixpoint sorted {A} (key : A -> Z) (l : list A) : list A :=
  match l with
  | [] => []
  | x :: xs => insert_by key x (sorted key xs)
  end.

(** [enumerate(l)], counting from [start]. *)
Fixpoint enumerate_from {A} (start : Z) (l : list A) : list (Z * A) :=
  match l with
  | [] => []
  | x :: xs => (start, x) :: enumerate_from (start + 1)%Z xs
  end.
Definition enumerate {A} (l : list A) : list (Z * A) := enumerate_from 0%Z l.

(** [str(n)], as used by f-strings. *)
Definition str (n : Z) : string := pretty n.

(** *** [collections.Counter] *)

(** [c[w] += 1]: a known key keeps its place, a new key goes last. *)
Fixpoint counter_add (w : string) (c : list (string * Z)) : list (string * Z) :=
  match c with
  | [] => [(w, 1%Z)]
  | (k, n) :: c' => if bool_decide (k = w) then (k, (n + 1)%Z) :: c'
                    else (k, n) :: counter_add w c'
  end.

(** [Counter(words).items()] *)
Definition Counter (words : list string) : list (string * Z) :=
  foldl (fun c w => counter_add w c) [] words.

(** *** binary64 *)

Definition prec : Z := 53.
Definition emax : Z := 1024.

(** [float(n)] for an integer that needs no rounding. *)
Definition float_of_int (n : Z) : spec_float :=
  match n with
  | Z0 => S754_zero false
  | Zpos p => S754_finite false p 0
  | Zneg p => S754_finite true p 0
  end.

(** [a / b] on integers: the correctly rounded quotient; [None] is
    [ZeroDivisionError] or [OverflowError]. *)
Definition truediv (a b : Z) : option spec_float :=
  if (b =? 0)%Z then None
  else match SFdiv prec emax (float_of_int a) (float_of_int b) with
       | S754_infinity _ => None
       | x => Some x
       end.

(** [x * k] for a float [x] and a small integer constant [k]. *)
Definition mul_int (x : spec_float) (k : Z) : spec_float :=
  SFmul prec emax x (float_of_int k).

(** [int(x)]: truncation towards zero; [None] is the error raised on an
    infinity or a NaN. *)
Definition int (x : spec_float) : option Z :=
  match x with
  | S754_zero _ => Some 0%Z
  | S754_finite s m e =>
      let a := Z.shiftl (Zpos m) e in Some (if s then (- a)%Z else a)
  | S754_infinity _ | S754_nan => None
  end.

(** [int(statistics.mean(l))]: the mean is formed exactly as a fraction
    and handed back as the integer itself when it is one, and as the
    nearest float otherwise; both are the correctly rounded quotient of the
    sum by the length. [None] is the [StatisticsError] on no data. *)
Definition int_mean (l : list Z) : option Z :=
  match l with
  | [] => None
  | _ => x ← truediv (sum l) (Z.of_nat (length l)); int x
  end.

(** *** Dictionaries in insertion order *)

(** [d[k]]; [None] is the [KeyError]. *)
Fixpoint dict_get {V} (d : list (string * V)) (k : string) : option V :=
  match d with
  | [] => None
  | (k', v) :: d' => if bool_decide (k' = k) then Some v else dict_get d' k
  end.

(** *** Predicates on floats, for stating bounds *)

(** A rounding record carries a remainder. *)
Definition inexact (mrs : shr_record) : bool := shr_r mrs || shr_s mrs.

(** [x] is a float in [0, B] whose exponent is not positive. *)
Definition below (B : Z) (x : spec_float) : Prop :=
  match x with
  | S754_zero false => True
  | S754_finite false m e => (e ≤ 0 ∧ Z.pos m ≤ B * 2 ^ (- e))%Z
  | _ => False
  end.

(** The sign bit of [x] is not set. *)
Definition nonneg (x : spec_float) : Prop :=
  match x with
  | S754_zero s | S754_infinity s | S754_finite s _ _ => s = false
  | S754_nan => True
  end.

End Py.

(** ** The analysis service *)

Module AnalysisService.

(** *** Request and response models ([app/models/schemas.py]) *)

(** Of a story node the service reads [content], [title] and
    [created_at] (an instant, here a number of microseconds). *)
Record StoryNode := {
  node_id : string;
  content : string;
  title : string;
  created_at : Z
}.

Record StoryProject := {
  project_id : string;
  project_title : string;
  project_description : string;
  project_genre : string
}.

Record AnalysisRequest := {
  nodes : list StoryNode;
  project_info : StoryProject
}.

(** An entry of [emotional_points]. *)
Record EmotionalPoint := {
  point_scene : Z;
  point_title : string;
  point_tension : Z;
  point_dominant_emotion : string
}.

Record EmotionalArc := {
  tension_score : Z;
  peak_moment : string;
  emotional_points : list EmotionalPoint
}.

(** A value of [relationship_matrix]. *)
Record RelationshipEdge := {
  edge_strength : Z;
  edge_type : string
}.

(** An entry of [character_arcs]. *)
Record CharacterArc := {
  arc_name : string;
  arc_strength : Z;
  arc_mentions : Z
}.

Record CharacterDevelopment := {
  protagonist_growth : string;
  relationship_matrix : gmap string RelationshipEdge;
  character_arcs : list CharacterArc
}.

(** An entry of [theme_mentions]. *)
Record ThemeMention := {
  mention_scene : Z;
  mention_title : string;
  mention_count : Z
}.

Record ThemeConsistency := {
  core_theme : string;
  consistency_score : Z;
  theme_mentions : list ThemeMention
}.

Record PacingAnalysis := {
  action_vs_dialogue_ratio : string;
  slow_sections : list string;
  pacing_score : Z
}.

Record NarrativeDNA := {
  emotional_arc : EmotionalArc;
  character_development : CharacterDevelopment;
  theme_consistency : ThemeConsistency;
  pacing_analysis : PacingAnalysis;
  comparative_insights : list string;
  analysis_timestamp : Z
}.

(** *** Keyword tables of [__init__] *)

Definition emotion_keywords : list (string * list string) :=
  [ ("tension", ["conflict"; "tension"; "danger"; "threat"; "fear"; "suspense"; "crisis"]);
    ("joy", ["happy"; "joy"; "laugh"; "smile"; "celebration"; "triumph"]);
    ("sadness", ["sad"; "cry"; "tears"; "grief"; "loss"; "mourning"]);
    ("anger", ["angry"; "rage"; "fury"; "mad"; "furious"; "hostile"]);
    ("love", ["love"; "romance"; "affection"; "tender"; "caring"; "devotion"]) ].

Definition character_indicators : list string :=
  ["protagonist"; "main character"; "hero"; "heroine"; "narrator"].

Definition double_quote : string := String (ascii_of_nat 34) "".
Definition single_quote : string := "'".

Definition pacing_indicators : list (string * list string) :=
  [ ("action", ["ran"; "rushed"; "fought"; "attacked"; "chased"; "battle"; "explosion"]);
    ("dialogue", [double_quote; single_quote; "said"; "asked"; "replied"; "whispered"; "shouted"]);
    ("description", ["looked"; "appeared"; "seemed"; "was"; "were"; "beautiful"; "dark"]) ].

(** [table[k]] for a key of the table. *)
Definition keywords_of (table : list (string * list string)) (k : string) : list string :=
  default [] (Py.dict_get table k).

(** [sum(text.count(keyword) for keyword in keywords)] *)
Definition count_keywords (keywords : list string) (text : string) : Z :=
  Py.sum (map (fun keyword => Py.count keyword text) keywords).

(** [any(word in text for word in words)] *)
Definition any_in (words : list string) (text : string) : bool :=
  existsb (fun word => Py.contains word text) words.

(** [sorted(nodes, key=lambda x: x.created_at)] *)
Definition sorted_nodes (nodes : list StoryNode) : list StoryNode :=
  Py.sorted created_at nodes.

(** *** [_extract_story_text] *)

Definition _extract_story_text (nodes : list StoryNode) : string :=
  let text_parts :=
    foldl (fun (text_parts : list string) node =>
             let clean_text := Py.sub_tags (content node) in
             match Py.strip clean_text with
             | "" => text_parts
             | stripped => (text_parts ++ [stripped])%list
             end) [] (sorted_nodes nodes) in
  Py.join " " text_parts.

(** *** [_detect_dominant_emotion] *)

Definition emotion_counts (text : string) : list (string * Z) :=
  map (fun '(emotion, keywords) => (emotion, count_keywords keywords text))
      emotion_keywords.

Definition _detect_dominant_emotion (text : string) : string :=
  let emotion_counts := emotion_counts text in
  if negb (Py.any_nonzero (map snd emotion_counts)) then "neutral"
  else default "neutral"
         (Py.max_by (fun emotion => default 0%Z (Py.dict_get emotion_counts emotion))
                    (map fst emotion_counts)).

(** *** [_analyze_emotional_arc] *)

(** The tension score of one scene, from its lowercased text. *)
Definition scene_tension (clean_text : string) : Z :=
  let tension_score :=
    foldl (fun tension_score keyword =>
             (tension_score + Py.count keyword clean_text * 10)%Z)
          0%Z (keywords_of emotion_keywords "tension") in
  let tension_score :=
    if any_in ["climax"; "confrontation"; "revelation"] clean_text
    then (tension_score + 30)%Z else tension_score in
  Z.min 100 tension_score.

Definition emotional_point (i : Z) (node : StoryNode) : EmotionalPoint :=
  let clean_text := Py.lower (Py.sub_tags (content node)) in
  {| point_scene := i + 1;
     point_title := title node;
     point_tension := scene_tension clean_text;
     point_dominant_emotion := _detect_dominant_emotion clean_text |}.

Definition _analyze_emotional_arc (nodes : list StoryNode) (full_text : string)
  : option EmotionalArc :=
  let emotional_points :=
    map (fun '(i, node) => emotional_point i node) (Py.enumerate (sorted_nodes nodes)) in
  let tension_scores := map point_tension emotional_points in
  match tension_scores with
  | [] => Some {| tension_score := 0;
                  peak_moment := "No peak identified";
                  emotional_points := emotional_points |}
  | _ =>
      top ← Py.max tension_scores;
      max_tension_idx ← Py.index top tension_scores;
      peak_scene ← sorted_nodes nodes !! max_tension_idx;
      overall_tension ← Py.int_mean tension_scores;
      Some {| tension_score := overall_tension;
              peak_moment := title peak_scene;
              emotional_points := emotional_points |}
  end.

(** *** [_extract_character_names] *)

Definition common_words : gset string :=
  list_to_set ["The"; "And"; "But"; "When"; "Where"; "What"; "How"; "Why"; "This"; "That"].

Definition _extract_character_names (text : string) : list string :=
  let words := Py.findall_names text in
  let name_counts := Py.Counter words in
  let potential_names :=
    omap (fun '(name, count) =>
            if (3 <=? count)%Z && negb (bool_decide (name ∈ common_words))
               && (2 <? String.length name)%nat
            then Some name else None) name_counts in
  take 10 potential_names.

(** *** [_count_protagonist_development] *)

Definition development_indicators : list string :=
  ["learned"; "realized"; "understood"; "changed"; "grew"; "developed";
   "discovered"; "found"; "became"; "transformed"].

Definition _count_protagonist_development (text : string) : Z :=
  let text_lower := Py.lower text in
  foldl (fun count indicator => (count + Py.count indicator text_lower)%Z)
        0%Z development_indicators.

(** *** [_build_relationship_matrix] *)

(** The number of sentences of [text] in which both names occur. *)
Definition co_occurrence (char1 char2 : string) (text : string) : Z :=
  let sentences := Py.re_split_sentences text in
  Py.sum (map (fun _ => 1%Z)
              (filter (fun sentence =>
                         Py.contains (Py.lower char1) (Py.lower sentence) = true ∧
                         Py.contains (Py.lower char2) (Py.lower sentence) = true)
                      sentences)).

(** The key [f"{char1}-{char2}"]. *)
Definition pair_key (char1 char2 : string) : string := char1 +:+ "-" +:+ char2.

(** The body of the inner loop. *)
Definition record_pair (text : string) (char1 : string)
    (relationships : gmap string RelationshipEdge) (char2 : string)
  : gmap string RelationshipEdge :=
  let co_occurrence := co_occurrence char1 char2 text in
  if (0 <? co_occurrence)%Z
  then <[pair_key char1 char2 :=
           {| edge_strength := Z.min 10 co_occurrence; edge_type := "connected" |}]>
         relationships
  else relationships.

Definition _build_relationship_matrix (characters : list string) (text : string)
  : gmap string RelationshipEdge :=
  if (length characters <? 2)%nat then ∅
  else
    foldl (fun relationships '(i, char1) =>
             foldl (record_pair text char1) relationships
                   (drop (S i) (take 6 characters)))
          ∅ (imap (fun i char1 => (i, char1)) (take 5 characters)).

(** *** [_analyze_character_arc] *)

Definition development_words : list string :=
  ["changed"; "learned"; "grew"; "realized"; "became"; "transformed"].

Definition _analyze_character_arc (character : string) (text : string) : Z :=
  let sentences := Py.re_split_sentences text in
  let arc_indicators :=
    foldl (fun arc_indicators sentence =>
             if Py.contains (Py.lower character) (Py.lower sentence)
             then if any_in development_words (Py.lower sentence)
                  then (arc_indicators + 1)%Z else arc_indicators
             else arc_indicators)
          0%Z sentences in
  Z.min 10 arc_indicators.

(** *** [_analyze_character_development] *)

Definition _analyze_character_development (nodes : list StoryNode) (full_text : string)
  : CharacterDevelopment :=
  let characters := _extract_character_names full_text in
  let protagonist_mentions := _count_protagonist_development full_text in
  let growth_percentage := Z.min 100 (Z.max 0 (protagonist_mentions * 5)) in
  let relationship_matrix := _build_relationship_matrix characters full_text in
  let character_arcs :=
    map (fun char =>
           {| arc_name := char;
              arc_strength := _analyze_character_arc char full_text;
              arc_mentions := Py.count (Py.lower char) (Py.lower full_text) |})
        (take 5 characters) in
  {| protagonist_growth := Py.str growth_percentage +:+ "% completed";
     relationship_matrix := relationship_matrix;
     character_arcs := character_arcs |}.

(** *** [_analyze_theme_consistency] *)

Definition theme_keywords : list (string * list string) :=
  [ ("love", ["love"; "romance"; "relationship"; "heart"; "affection"]);
    ("betrayal", ["betray"; "deceive"; "lie"; "cheat"; "backstab"]);
    ("redemption", ["redeem"; "forgive"; "second chance"; "make amends"]);
    ("power", ["power"; "control"; "authority"; "dominance"; "rule"]);
    ("identity", ["identity"; "self"; "who am i"; "belong"; "purpose"]);
    ("freedom", ["freedom"; "liberty"; "escape"; "independence"; "free"]);
    ("justice", ["justice"; "fair"; "right"; "wrong"; "moral"]) ].

Definition theme_scores (full_text : string) : list (string * Z) :=
  let text_lower := Py.lower full_text in
  map (fun '(theme, keywords) => (theme, count_keywords keywords text_lower))
      theme_keywords.

(** [len(full_text.split())] *)
Definition word_count (full_text : string) : Z :=
  Z.of_nat (length (Py.split full_text)).

(** [min(100, int((theme_strength / max(1, total_words)) * 1000))] *)
Definition consistency_of (theme_strength total_words : Z) : option Z :=
  q ← Py.truediv theme_strength (Z.max 1 total_words);
  n ← Py.int (Py.mul_int q 1000);
  Some (Z.min 100 n).

(** The dominant theme with its consistency score; without a theme the
    marker ["No clear theme"] with score 0. *)
Definition core_theme_and_score (full_text : string) : option (string * Z) :=
  let theme_scores := theme_scores full_text in
  match Py.max (map snd theme_scores) with
  | Some top =>
      if (0 <? top)%Z then
        core_theme ← Py.max_by (fun theme => default 0%Z (Py.dict_get theme_scores theme))
                               (map fst theme_scores);
        theme_strength ← Py.dict_get theme_scores core_theme;
        consistency_score ← consistency_of theme_strength (word_count full_text);
        Some (core_theme, consistency_score)
      else Some ("No clear theme", 0%Z)
  | None => Some ("No clear theme", 0%Z)
  end.

Definition theme_mentions_of (core_theme : string) (nodes : list StoryNode)
  : list ThemeMention :=
  if bool_decide (core_theme ≠ "No clear theme") then
    omap (fun '(i, node) =>
            let node_text := Py.lower (Py.sub_tags (content node)) in
            let mentions := count_keywords (keywords_of theme_keywords core_theme) node_text in
            if (0 <? mentions)%Z
            then Some {| mention_scene := i + 1;
                         mention_title := title node;
                         mention_count := mentions |}
            else None)
         (Py.enumerate (sorted_nodes nodes))
  else [].

Definition _analyze_theme_consistency (nodes : list StoryNode) (full_text : string)
  : option ThemeConsistency :=
  '(core, score) ← core_theme_and_score full_text;
  Some {| core_theme := Py.title core;
          consistency_score := score;
          theme_mentions := theme_mentions_of core nodes |}.

(** *** [_analyze_pacing] *)

(** [int((part / total) * 100)] *)
Definition percent_of (part total : Z) : option Z :=
  q ← Py.truediv part total;
  Py.int (Py.mul_int q 100).

Definition ratio_string_of (action_count dialogue_count total_indicators : Z)
  : option string :=
  if (0 <? total_indicators)%Z then
    action_ratio ← percent_of action_count total_indicators;
    dialogue_ratio ← percent_of dialogue_count total_indicators;
    Some (Py.str (action_ratio + dialogue_ratio) +:+ "/" +:+
          Py.str (100 - action_ratio - dialogue_ratio))
  else Some "50/50".

Definition slow_sections_of (nodes : list StoryNode) : list string :=
  omap (fun '(i, node) =>
          let node_text := Py.lower (Py.sub_tags (content node)) in
          let action_in_node :=
            count_keywords (keywords_of pacing_indicators "action") node_text in
          if (100 <? length (Py.split node_text))%nat && (action_in_node =? 0)%Z
          then Some ("Scene " +:+ Py.str (i + 1) +:+ ": " +:+ title node)
          else None)
       (Py.enumerate (sorted_nodes nodes)).

Definition _analyze_pacing (nodes : list StoryNode) (full_text : string)
  : option PacingAnalysis :=
  let action_count :=
    count_keywords (keywords_of pacing_indicators "action") (Py.lower full_text) in
  let dialogue_count :=
    (Py.count double_quote full_text + Py.count single_quote full_text)%Z in
  let description_count :=
    count_keywords (keywords_of pacing_indicators "description") (Py.lower full_text) in
  let total_indicators := (action_count + dialogue_count + description_count)%Z in
  ratio_string ← ratio_string_of action_count dialogue_count total_indicators;
  let pacing_score :=
    Z.min 100 (Z.max 10 (action_count * 2 + dialogue_count / 2)) in
  Some {| action_vs_dialogue_ratio := ratio_string;
          slow_sections := slow_sections_of nodes;
          pacing_score := pacing_score |}.

(** *** [_generate_comparative_insights] *)

Definition insight_christie : string :=
  "Your structure resembles Agatha Christie's mysteries with multiple scenes building tension".
Definition insight_thrones : string :=
  "Character dynamics similar to ensemble narratives like 'Game of Thrones'".
Definition insight_austen : string :=
  "Romance with conflict elements reminiscent of Jane Austen's style".
Definition insight_fallback : string :=
  "Unique narrative structure - forge your own path!".

(** The conditions of the three rules, in the order of the source. *)
Definition rule_christie (nodes : list StoryNode) (full_text : string) : bool :=
  (10 <=? length nodes)%nat && Py.contains "mystery" (Py.lower full_text).
Definition rule_thrones (nodes : list StoryNode) (full_text : string) : bool :=
  (5000 <? word_count full_text)%Z && Py.contains "character" (Py.lower full_text).
Definition rule_austen (nodes : list StoryNode) (full_text : string) : bool :=
  Py.contains "love" (Py.lower full_text) && Py.contains "conflict" (Py.lower full_text).

Definition _generate_comparative_insights (nodes : list StoryNode) (full_text : string)
  : list string :=
  let insights : list string := [] in
  let insights :=
    if rule_christie nodes full_text then (insights ++ [insight_christie])%list else insights in
  let insights :=
    if rule_thrones nodes full_text then (insights ++ [insight_thrones])%list else insights in
  let insights :=
    if rule_austen nodes full_text then (insights ++ [insight_austen])%list else insights in
  let insights :=
    if (length insights =? 0)%nat then (insights ++ [insight_fallback])%list else insights in
  insights.

(** *** [analyze_story] *)

(** [now] is the reading of the clock ([datetime.now()]) at the call. *)
Definition analyze_story (now : Z) (request : AnalysisRequest) : option NarrativeDNA :=
  let full_text := _extract_story_text (nodes request) in
  emotional_arc ← _analyze_emotional_arc (nodes request) full_text;
  let character_dev := _analyze_character_development (nodes request) full_text in
  theme_consistency ← _analyze_theme_consistency (nodes request) full_text;
  pacing_analysis ← _analyze_pacing (nodes request) full_text;
  let comparative_insights := _generate_comparative_insights (nodes request) full_text in
  Some {| emotional_arc := emotional_arc;
          character_development := character_dev;
          theme_consistency := theme_consistency;
          pacing_analysis := pacing_analysis;
          comparative_insights := comparative_insights;
          analysis_timestamp := now |}.

End AnalysisService.

(** ** The claims as they are worded, for comparison with the code *)

Module Spec.

(** The fallback insight as the specification spells it (with a dash
    U+2014, encoded in UTF-8). *)
Definition fallback_insight : string :=
  "Unique narrative structure — forge your own path!".

(** The marker of a story without a theme as the specification spells it. *)
Definition no_clear_theme : string := "No clear theme".



End Spec.

(** ** Notions used to state the properties *)

Module Notions.
Import AnalysisService.


(** The pairs visited by the two loops of [_build_relationship_matrix], in
    the order of the visits. *)
Definition candidate_pairs (characters : list string) : list (string * string) :=
  flat_map (fun '(i, char1) =>
              map (fun char2 => (char1, char2)) (drop (S i) (take 6 characters)))
           (imap (fun i char1 => (i, char1)) (take 5 characters)).

(** The edge recorded for a pair whose names share a sentence. *)
Definition edge_of (text : string) (char1 char2 : string) : RelationshipEdge :=
  {| edge_strength := Z.min 10 (co_occurrence char1 char2 text);
     edge_type := "connected" |}.

(** A word made of letters only. *)
Fixpoint all_alpha (w : string) : bool :=
  match w with
  | "" => true
  | String c w' => Py.isalpha_c c && all_alpha w'
  end.
End Notions.

(** ** Sample requests *)

Module Samples.
Import AnalysisService.

Definition project : StoryProject :=
  {| project_id := "p1"; project_title := "Draft";
     project_description := ""; project_genre := "" |}.

Definition scene (name text : string) (at_time : Z) : StoryNode :=
  {| node_id := name; content := text; title := name; created_at := at_time |}.

Definition empty_request : AnalysisRequest :=
  {| nodes := []; project_info := project |}.

Definition danger_scene : StoryNode :=
  scene "Cliff" "<p>Danger, DANGER! A revelation.</p>" 1.

Definition alice_scene : StoryNode :=
  scene "One" "Night fell. Alice met Alice and Alice" 1.
Definition bob_scene : StoryNode :=
  scene "Two" "Bob saw Bob and Bob. Done." 2.

Definition fifteen_words : StoryNode :=
  scene "Vow" "love a a a a a a a a a a a a a a" 1.


Definition duel_scene : StoryNode :=
  scene "Duel"
        "Alice fought Bob. Alice fought Bob again. Alice realized she had changed." 3.

Definition mixed_request : AnalysisRequest :=
  {| nodes := [bob_scene; duel_scene; alice_scene; fifteen_words; danger_scene];
     project_info := project |}.

End Samples.

(** ** Further notions used to state properties *)

Module MoreNotions.
Import AnalysisService.

(** The tension score that [_analyze_emotional_arc] gives a scene. *)
Definition node_tension (node : StoryNode) : Z :=
  scene_tension (Py.lower (Py.sub_tags (content node))).

(** The number of times [w] is among [words]. *)
Definition occurrences (w : string) (words : list string) : Z :=
  Z.of_nat (length (filter (fun w' => w' = w) words)).

(** An uppercase letter followed by one or more lowercase letters. *)
Fixpoint all_lower (w : string) : bool :=
  match w with
  | "" => true
  | String c w' => Py.islower_c c && all_lower w'
  end.
Definition capitalized (w : string) : bool :=
  match w with
  | "" => false
  | String c run => Py.isupper_c c && negb (bool_decide (run = "")) && all_lower run
  end.

(** The texts that [_extract_story_text] joins: the stripped, tag-free
    contents that are not empty, in the order of the given scenes. *)
Definition text_parts_of (scenes : list StoryNode) : list string :=
  filter (fun part => part ≠ "") (map (fun node => Py.strip (Py.sub_tags (content node))) scenes).

(** No whitespace at either end. *)
Definition trimmed (s : string) : Prop := Py.strip s = s.

(** [x] is a float in [0, N / 2^s] whose exponent is at most [- s]. *)
Definition below_scaled (N s : Z) (x : spec_float) : Prop :=
  match x with
  | S754_zero false => True
  | S754_finite false m e => (e ≤ - s ∧ Z.pos m ≤ N * 2 ^ (- s - e))%Z
  | _ => False
  end.

End MoreNotions.

(** ** Texts on which bytes and code points agree *)

Module TextNotions.
Import AnalysisService.

(** [s.isascii()]: every character is a code point below 128. On such a
    text the lengths, the slices, the whitespace, the letter cases and the
    word boundaries of Python are those of the primitives above, and the
    text can be encoded. *)
Definition isascii (s : string) : bool :=
  forallb (fun c => (Py.code c <? 128)%nat) (list_ascii_of_string s).

(** The contents of all scenes are ASCII. *)
Definition ascii_scenes (nodes : list StoryNode) : Prop :=
  Forall (fun node => isascii (content node) = true) nodes.

(** What the analysis reads of a scene. *)
Definition scene_data (node : StoryNode) : string * string * Z :=
  (content node, title node, created_at node).

(** A scene without its identifier. *)
Definition anonymous (node : StoryNode) : StoryNode :=
  {| node_id := ""; content := content node; title := title node;
     created_at := created_at node |}.

End TextNotions.

(** ** Routes and their errors ([fastapi]) *)

Module FastAPI.

(** What a route hands back: the response model, or a raised
    [HTTPException] with its status code and detail. *)
Inductive Response (A : Type) : Type :=
  | Return (value : A)
  | HTTPException (status_code : Z) (detail : string).
Arguments Return {A} value.
Arguments HTTPException {A} status_code detail.

Definition HTTP_400_BAD_REQUEST : Z := 400.
Definition HTTP_500_INTERNAL_SERVER_ERROR : Z := 500.

End FastAPI.

(** ** The analytics router ([app/routers/analytics.py]) *)

Module Analytics.
Import FastAPI.

(** [sum(len(node.content.split()) for node in request.nodes)] *)
Definition total_words (nodes : list AnalysisService.StoryNode) : Z :=
  Py.sum (map (fun node => Z.of_nat (length (Py.split (AnalysisService.content node)))) nodes).

(** The route [POST /analytics/analyze]. An exception of the service is
    answered with the status 500. *)
Definition analyze_story (now : Z) (request : AnalysisService.AnalysisRequest)
  : Response AnalysisService.NarrativeDNA :=
  match AnalysisService.nodes request with
  | [] => HTTPException HTTP_400_BAD_REQUEST "At least one story node is required"
  | _ =>
      let total_words := total_words (AnalysisService.nodes request) in
      if (total_words <? 100)%Z
      then HTTPException HTTP_400_BAD_REQUEST
                         "Story needs at least 100 words for meaningful analysis"
      else match AnalysisService.analyze_story now request with
           | Some result => Return result
           | None => HTTPException HTTP_500_INTERNAL_SERVER_ERROR "Failed to analyze story"
           end
  end.

End Analytics.

(** ** JSON values, as [json.loads] builds them *)

Module Json.

(** The members of an object are kept in order; their keys are distinct,
    as those of a Python [dict] are. *)
#[warnings="-register-all"] Inductive value : Type :=
  | JNull
  | JBool (b : bool)
  | JInt (n : Z)
  | JFloat (x : spec_float)
  | JStr (s : string)
  | JList (items : list value)
  | JDict (members : list (string * value)).

(** [d.get(k, fallback)] *)
Definition get (d : list (string * value)) (k : string) (fallback : value) : value :=
  default fallback (Py.dict_get d k).

(** What [for x in v] runs over: the items of a list, the keys of a dict,
    the characters of a string; [None] is the [TypeError] of the other
    values. *)
Definition iterate (v : value) : option (list value) :=
  match v with
  | JList items => Some items
  | JDict members => Some (map (fun member => JStr (fst member)) members)
  | JStr s => Some (map (fun c => JStr (String c "")) (list_ascii_of_string s))
  | JNull | JBool _ | JInt _ | JFloat _ => None
  end.

End Json.

(** ** The branch generation service ([app/services/ai_service.py]) *)

Module AIService.
Import Json.

(** *** Request and response models ([app/models/schemas.py]) *)

Record BranchRequest := {
  context : string;
  current_node_id : string;
  character_names : list string;
  genre : string;
  tone : string
}.

Record BranchOption := {
  branch_id : string;
  branch_title : string;
  branch_summary : string;
  branch_content : string;
  branch_characters : list string;
  branch_impact : string;
  branch_tags : list string
}.

Record BranchResponse := {
  options : list BranchOption;
  generation_time : spec_float;
  cached : bool
}.

(** A [str] field takes a string and nothing else. *)
Definition validate_str (v : value) : option string :=
  match v with
  | JStr s => Some s
  | _ => None
  end.

(** A [List[str]] field takes a list of strings. *)
Definition validate_str_list (v : value) : option (list string) :=
  match v with
  | JList items => mapM validate_str items
  | _ => None
  end.

(** The pattern [^(low|medium|high)$] of the field [impact]. *)
Definition impact_pattern (s : string) : bool :=
  bool_decide (s ∈ ["low"; "medium"; "high"]).

(** [BranchOption(id=..., title=..., ...)]: the validation of the seven
    fields; [None] is the [ValidationError]. *)
Definition BranchOption_new (id title summary content characters impact tags : value)
  : option BranchOption :=
  id ← validate_str id;
  title ← validate_str title;
  summary ← validate_str summary;
  content ← validate_str content;
  characters ← validate_str_list characters;
  impact ← validate_str impact;
  tags ← validate_str_list tags;
  if impact_pattern impact
  then Some {| branch_id := id; branch_title := title; branch_summary := summary;
               branch_content := content; branch_characters := characters;
               branch_impact := impact; branch_tags := tags |}
  else None.

(** [BranchOption] on the unpacked dict [branch]: the five fields without
    a default have to be there, other keys are ignored; [None] is the error
    raised for a value that is not a mapping, and the [ValidationError]. *)
Definition BranchOption_of (branch : value) : option BranchOption :=
  match branch with
  | JDict d =>
      id ← Py.dict_get d "id";
      title ← Py.dict_get d "title";
      summary ← Py.dict_get d "summary";
      content ← Py.dict_get d "content";
      impact ← Py.dict_get d "impact";
      BranchOption_new id title summary content
                       (get d "characters" (JList [])) impact (get d "tags" (JList []))
  | _ => None
  end.

(** *** What a call depends on besides the request *)

(** The answer of [redis_client.get(key)]: an exception, nothing (or an
    empty value), or a text that [json.loads] decodes ([None] when it
    raises). *)
Inductive RedisReply : Type :=
  | GetRaises
  | GetNothing
  | GetText (decoded : option value).

(** The readings of [datetime.now()], in microseconds, in the order in
    which they are taken; the text that an f-string prints for the
    [timestamp()] of a reading; the digest [hashlib.md5(...).hexdigest()];
    the Redis client of the service, and the one that [init_redis] would
    connect; the decoded content of the completion returned for a prompt,
    [None] when the call or the decoding raises. *)
Record World := {
  now : nat → Z;
  timestamp_text : Z → string;
  md5_hexdigest : string → string;
  redis_client : option (string → RedisReply);
  redis_from_url : option (string → RedisReply);
  chat_completion : string → option value
}.

(** [timedelta.total_seconds()]: the microseconds divided by [10**6]. *)
Definition total_seconds (microseconds : Z) : option spec_float :=
  Py.truediv microseconds 1000000.

(** *** [_build_prompt] *)

Definition newline : string := String (ascii_of_nat 10) "".

(** The lines of a text, each followed by its line break. *)
Definition lines (l : list string) : string :=
  foldr (fun line rest => line +:+ newline +:+ rest) "" l.

Definition quoted (s : string) : string :=
  AnalysisService.double_quote +:+ s +:+ AnalysisService.double_quote.

(** [s[-n:]] *)
Definition last_chars (n : nat) (s : string) : string :=
  String.substring (String.length s - n) n s.

Definition _build_prompt (request : BranchRequest) : string :=
  let context_snippet :=
    if (500 <? String.length (context request))%nat
    then last_chars 500 (context request)
    else context request in
  let characters_info :=
    match character_names request with
    | [] => ""
    | _ => "Main characters: " +:+ Py.join ", " (character_names request)
    end in
  let genre_info :=
    if bool_decide (genre request = "") then "" else "Genre: " +:+ genre request in
  let tone_info :=
    if bool_decide (tone request = "") then "" else "Tone: " +:+ tone request in
  newline +:+
  lines
    [ "Generate 3 distinct story branch options for this narrative context:";
      "";
      context_snippet;
      "";
      characters_info;
      genre_info;
      tone_info;
      "";
      "Create 3 different story directions with:";
      "- Variety in impact level (high/medium/low)";
      "- Different story elements and character focuses";
      "- Compelling next steps that feel natural";
      "";
      "Return as JSON with this exact structure:";
      "{";
      "  " +:+ quoted "branches" +:+ ": [";
      "    {";
      "      " +:+ quoted "title" +:+ ": " +:+ quoted "Branch title" +:+ ",";
      "      " +:+ quoted "summary" +:+ ": " +:+ quoted "Brief description of what happens" +:+ ",";
      "      " +:+ quoted "content" +:+ ": "
              +:+ quoted "Opening paragraph of this branch (100-150 words)" +:+ ",";
      "      " +:+ quoted "characters" +:+ ": [" +:+ quoted "character1" +:+ ", "
              +:+ quoted "character2" +:+ "],";
      "      " +:+ quoted "impact" +:+ ": " +:+ quoted "high|medium|low" +:+ ",";
      "      " +:+ quoted "tags" +:+ ": [" +:+ quoted "tag1" +:+ ", " +:+ quoted "tag2" +:+ "]";
      "    }";
      "  ]";
      "}" ].

(** *** [_create_fallback_branch] *)

Record FallbackOption := {
  fallback_title : string;
  fallback_summary : string;
  fallback_content : string;
  fallback_impact : string;
  fallback_tags : list string
}.

Definition unexpected_discovery : FallbackOption :=
  {| fallback_title := "Unexpected Discovery";
     fallback_summary := "A hidden truth is revealed that changes everything.";
     fallback_content := "As the dust settled, something caught their eye—a detail that had been overlooked, something that would change the entire course of their journey.";
     fallback_impact := "high";
     fallback_tags := ["mystery"; "revelation"] |}.

Definition character_encounter : FallbackOption :=
  {| fallback_title := "Character Encounter";
     fallback_summary := "A new person arrives with important information.";
     fallback_content := "The sound of footsteps echoed in the distance. Someone was approaching, and they carried news that would shift the balance of everything.";
     fallback_impact := "medium";
     fallback_tags := ["character"; "news"] |}.

Definition internal_reflection : FallbackOption :=
  {| fallback_title := "Internal Reflection";
     fallback_summary := "A moment of quiet contemplation and decision-making.";
     fallback_content := "In the silence that followed, there was time to think. The weight of recent events pressed down, demanding careful consideration of what came next.";
     fallback_impact := "low";
     fallback_tags := ["introspection"; "decision"] |}.

Definition fallback_options : list FallbackOption :=
  [unexpected_discovery; character_encounter; internal_reflection].

(** [tick] counts the readings of the clock taken so far; the branch is
    made at the reading [tick]. The index [index % len(fallback_options)]
    is always in range. *)
Definition _create_fallback_branch (w : World) (tick : nat) (index : Z) : BranchOption :=
  let option :=
    nth (Z.to_nat (index `mod` Z.of_nat (length fallback_options))) fallback_options
        unexpected_discovery in
  {| branch_id := "fallback_" +:+ timestamp_text w (now w tick) +:+ "_" +:+ Py.str index;
     branch_title := fallback_title option;
     branch_summary := fallback_summary option;
     branch_content := fallback_content option;
     branch_characters := [];
     branch_impact := fallback_impact option;
     branch_tags := fallback_tags option |}.

(** *** [_parse_grok_response] *)

(** The body of the [try]: [None] is an exception, after which the loop
    goes on to the next item. *)
Definition parse_branch (w : World) (tick : nat) (i : Z) (branch_data : value)
  : option BranchOption :=
  match branch_data with
  | JDict d =>
      impact ← validate_str (get d "impact" (JStr "medium"));
      BranchOption_new
        (JStr ("branch_" +:+ timestamp_text w (now w tick) +:+ "_" +:+ Py.str i))
        (get d "title" (JStr ("Branch " +:+ Py.str (i + 1))))
        (get d "summary" (JStr ""))
        (get d "content" (JStr ""))
        (get d "characters" (JList []))
        (JStr (Py.lower impact))
        (get d "tags" (JList []))
  | _ => None
  end.

(** The [for] loop: every item takes one reading of the clock. *)
Fixpoint parse_items (w : World) (tick : nat) (items : list (Z * value))
    (branches : list BranchOption) : list BranchOption * nat :=
  match items with
  | [] => (branches, tick)
  | (i, branch_data) :: rest =>
      match parse_branch w tick i branch_data with
      | Some branch => parse_items w (S tick) rest (branches ++ [branch])%list
      | None => parse_items w (S tick) rest branches
      end
  end.

(** The [while] loop, run for at most [fuel] rounds. *)
Fixpoint pad_branches (fuel : nat) (w : World) (tick : nat) (branches : list BranchOption)
  : list BranchOption * nat :=
  match fuel with
  | O => (branches, tick)
  | S fuel' =>
      if (length branches <? 3)%nat
      then pad_branches fuel' w (S tick)
             (branches ++ [_create_fallback_branch w tick (Z.of_nat (length branches))])%list
      else (branches, tick)
  end.

(** The options and the number of readings of the clock afterwards;
    [None] is the exception of a response that is no dict, or whose
    [branches] cannot be iterated. Three rounds of the [while] loop are
    always enough. *)
Definition _parse_grok_response (w : World) (tick : nat) (response : value)
  : option (list BranchOption * nat) :=
  match response with
  | JDict d =>
      items ← iterate (get d "branches" (JList []));
      let '(branches, tick) := parse_items w tick (Py.enumerate items) [] in
      let '(branches, tick) := pad_branches 3 w tick branches in
      Some (take 3 branches, tick)
  | _ => None
  end.

(** *** [_call_grok_api] *)

Definition _call_grok_api (w : World) (tick : nat) (request : BranchRequest)
  : option (list BranchOption * nat) :=
  let prompt := _build_prompt request in
  parsed_response ← chat_completion w prompt;
  _parse_grok_response w tick parsed_response.

(** *** [_generate_fallback_branches] *)

Definition _generate_fallback_branches (w : World) (tick : nat) (request : BranchRequest)
  : option BranchResponse :=
  let start_time := now w tick in
  let branches :=
    [ _create_fallback_branch w (tick + 1) 0;
      _create_fallback_branch w (tick + 2) 1;
      _create_fallback_branch w (tick + 3) 2 ] in
  generation_time ← total_seconds (now w (tick + 4) - start_time);
  Some {| options := branches; generation_time := generation_time; cached := false |}.

(** *** The cache *)

Definition cache_content (request : BranchRequest) : string :=
  context request +:+ "_" +:+ genre request +:+ "_" +:+ tone request +:+ "_"
  +:+ Py.join "," (character_names request).

Definition _generate_cache_key (w : World) (request : BranchRequest) : string :=
  "branches:" +:+ md5_hexdigest w (cache_content request).

(** [None] also stands for every exception, which the function catches. *)
Definition _get_cached_result (w : World) (cache_key : string) : option (list BranchOption) :=
  match redis_client w with
  | None => None
  | Some redis_get =>
      match redis_get cache_key with
      | GetRaises => None
      | GetNothing => None
      | GetText decoded =>
          data ← decoded;
          branches ← iterate data;
          mapM BranchOption_of branches
      end
  end.

(** *** [generate_branches] *)

(** [_cache_result] returns nothing and catches its exceptions. An
    exception in the [try] leads to the fallback branches. *)
Definition generate_branches (w : World) (request : BranchRequest) : option BranchResponse :=
  let start_time := now w 0 in
  let cache_key := _generate_cache_key w request in
  match _get_cached_result w cache_key with
  | Some (branch :: more) =>
      generation_time ← total_seconds (now w 1 - start_time);
      Some {| options := branch :: more; generation_time := generation_time; cached := true |}
  | _ =>
      match _call_grok_api w 1 request with
      | Some (branches, tick) =>
          match total_seconds (now w tick - start_time) with
          | Some generation_time =>
              Some {| options := branches; generation_time := generation_time;
                      cached := false |}
          | None => _generate_fallback_branches w (S tick) request
          end
      | None => _generate_fallback_branches w 1 request
      end
  end.

End AIService.

(** ** The branches router ([app/routers/branches.py]) *)

Module Branches.
Import FastAPI.

(** The route [POST /branches/generate]; a service without a Redis client
    first tries to connect one. *)
Definition generate_branches (w : AIService.World) (request : AIService.BranchRequest)
  : Response AIService.BranchResponse :=
  if bool_decide (Py.strip (AIService.context request) = "")
  then HTTPException HTTP_400_BAD_REQUEST "Context cannot be empty"
  else
    let w :=
      match AIService.redis_client w with
      | None =>
          {| AIService.now := AIService.now w;
             AIService.timestamp_text := AIService.timestamp_text w;
             AIService.md5_hexdigest := AIService.md5_hexdigest w;
             AIService.redis_client := AIService.redis_from_url w;
             AIService.redis_from_url := AIService.redis_from_url w;
             AIService.chat_completion := AIService.chat_completion w |}
      | Some _ => w
      end in
    match AIService.generate_branches w request with
    | Some result => Return result
    | None => HTTPException HTTP_500_INTERNAL_SERVER_ERROR "Failed to generate story branches"
    end.

(** The route [POST /branches/regenerate]. *)
Definition regenerate_branches (w : AIService.World) (request : AIService.BranchRequest)
  : Response AIService.BranchResponse :=
  let modified_request :=
    {| AIService.context := AIService.context request +:+ " [regenerated]";
       AIService.current_node_id := AIService.current_node_id request;
       AIService.character_names := AIService.character_names request;
       AIService.genre := AIService.genre request;
       AIService.tone := AIService.tone request |} in
  match AIService.generate_branches w modified_request with
  | Some result => Return result
  | None => HTTPException HTTP_500_INTERNAL_SERVER_ERROR "Failed to regenerate story branches"
  end.

End Branches.

(** ** Notions used to state the properties of the branch service *)

Module BranchNotions.
Import AIService.

(** The impact is one of the three levels. *)
Definition valid_impact (branch : BranchOption) : Prop :=
  branch_impact branch ∈ ["low"; "medium"; "high"].

(** Every reading of the clock is a [datetime]: between the years 1 and
    9999, in microseconds. *)
Definition datetime_range (w : World) : Prop :=
  ∀ k, (0 ≤ now w k ≤ 315537897599999999)%Z.

(** No underscore in [s]. *)
Fixpoint underscore_free (s : string) : bool :=
  match s with
  | "" => true
  | String c s' => negb (Ascii.eqb c "_") && underscore_free s'
  end.

(** [id] is made of [kind], a timestamp, an underscore and the number [i]. *)
Definition tagged (kind : string) (i : Z) (id : string) : Prop :=
  ∃ stamp, id = kind +:+ stamp +:+ "_" +:+ Py.str i.

(** The texts of the request are ASCII. *)
Definition ascii_request (request : BranchRequest) : Prop :=
  TextNotions.isascii (context request) = true ∧
  TextNotions.isascii (genre request) = true ∧
  TextNotions.isascii (tone request) = true ∧
  Forall (fun name => TextNotions.isascii name = true) (character_names request).

(** The branches of a response that pass the body of the [try], in the
    order of the response; the item [i] is read at the reading [tick + i]
    of the clock. *)
Definition usable_branches (w : World) (tick : nat) (items : list Json.value)
  : list BranchOption :=
  omap (fun '(i, item) => parse_branch w (tick + Z.to_nat i) i item) (Py.enumerate items).

(** The request that [regenerate_branches] hands to the service. *)
Definition regenerated (request : BranchRequest) : BranchRequest :=
  {| context := context request +:+ " [regenerated]";
     current_node_id := current_node_id request;
     character_names := character_names request;
     genre := genre request;
     tone := tone request |}.

End BranchNotions.

(** ** Further sample requests *)

Module MoreSamples.
Import AnalysisService.

(** A scene of more than a hundred words. *)
Definition long_scene : StoryNode :=
  Samples.scene "March"
    (Py.join " " (repeat "They walked on, and the love they carried grew." 12)) 4.

Definition long_request : AnalysisRequest :=
  {| nodes := [long_scene; Samples.duel_scene]; project_info := Samples.project |}.

(** A world without Redis, whose model answers with one usable branch. *)
Definition one_branch_reply : Json.value :=
  Json.JDict
    [("branches",
      Json.JList
        [ Json.JDict [("title", Json.JStr "Storm"); ("impact", Json.JStr "High")];
          Json.JDict [("title", Json.JStr "Calm"); ("impact", Json.JStr "critical")];
          Json.JStr "not a branch" ])].

Definition offline_world : AIService.World :=
  {| AIService.now := fun k => (63000000000000000 + Z.of_nat (Nat.min k 1000) * 250)%Z;
     AIService.timestamp_text := fun t => Py.str t;
     AIService.md5_hexdigest := fun content => content;
     AIService.redis_client := None;
     AIService.redis_from_url := None;
     AIService.chat_completion := fun _ => Some one_branch_reply |}.

(** A world whose Redis holds one option for a regenerated request. *)
Definition cached_option : Json.value :=
  Json.JDict
    [ ("id", Json.JStr "branch_63000000000000250.0_0");
      ("title", Json.JStr "Storm");
      ("summary", Json.JStr "A storm breaks.");
      ("content", Json.JStr "Rain fell on the harbour.");
      ("characters", Json.JList [Json.JStr "Alice"]);
      ("impact", Json.JStr "high");
      ("tags", Json.JList []) ].

Definition cached_branch : AIService.BranchOption :=
  {| AIService.branch_id := "branch_63000000000000250.0_0";
     AIService.branch_title := "Storm";
     AIService.branch_summary := "A storm breaks.";
     AIService.branch_content := "Rain fell on the harbour.";
     AIService.branch_characters := ["Alice"];
     AIService.branch_impact := "high";
     AIService.branch_tags := [] |}.

Definition cached_world : AIService.World :=
  {| AIService.now := fun k => (63000000000000000 + Z.of_nat (Nat.min k 1000) * 250)%Z;
     AIService.timestamp_text := fun t => Py.str t;
     AIService.md5_hexdigest := fun content => content;
     AIService.redis_client :=
       Some (fun key =>
               if bool_decide (key = "branches:Night fell. [regenerated]_mystery_neutral_Alice,Bob")
               then AIService.GetText (Some (Json.JList [cached_option]))
               else AIService.GetNothing);
     AIService.redis_from_url := None;
     AIService.chat_completion := fun _ => None |}.

(** A context of 500 characters. *)
Definition five_hundred : string :=
  Py.join "" (repeat "0123456789" 50).

Definition branch_request (text : string) : AIService.BranchRequest :=
  {| AIService.context := text;
     AIService.current_node_id := "n1";
     AIService.character_names := ["Alice"; "Bob"];
     AIService.genre := "mystery";
     AIService.tone := "neutral" |}.

End MoreSamples.

(** ** Facts about the Python primitives *)

Section StringFacts.

Import Py.

Lemma startswith_nil_r sub : sub ≠ "" → startswith sub "" = false.
Proof. destruct sub; [congruence | reflexivity]. Qed.

Lemma append_nil_l (s : string) : "" +:+ s = s.
Proof. reflexivity. Qed.

Lemma append_cons c (s1 s2 : string) : String c s1 +:+ s2 = String c (s1 +:+ s2).
Proof. reflexivity. Qed.

Lemma startswith_app sub post : startswith sub (sub +:+ post) = true.
Proof.
  induction sub as [| a sub IH]; [reflexivity |].
  rewrite append_cons. simpl.
  rewrite bool_decide_eq_true_2 by reflexivity. exact IH.
Qed.

Lemma contains_startswith sub s : startswith sub s = true → contains sub s = true.
Proof. intros H. destruct s; simpl; rewrite H; reflexivity. Qed.

Lemma contains_embedded pre sub post : contains sub (pre +:+ sub +:+ post) = true.
Proof.
  induction pre as [| c pre IH].
  - rewrite append_nil_l. apply contains_startswith, startswith_app.
  - rewrite append_cons. simpl. rewrite IH. apply orb_true_r.
Qed.

(** A pattern occurs in a text exactly when [count] finds it. *)
Lemma count_from_pos sub s :
  sub ≠ "" → (0 < count_from sub 0 s)%nat ↔ contains sub s = true.
Proof.
  intros Hsub. induction s as [| c s IH].
  - simpl. rewrite (startswith_nil_r sub Hsub). simpl. split; [lia | discriminate].
  - change (count_from sub 0 (String c s))
      with (if startswith sub (String c s)
            then S (count_from sub (String.length sub - 1) s)
            else count_from sub 0 s).
    change (contains sub (String c s))
      with (startswith sub (String c s) || contains sub s).
    destruct (startswith sub (String c s)); simpl; [split; [reflexivity | lia] | exact IH].
Qed.

Lemma count_pos_contains sub s :
  sub ≠ "" → (0 < count sub s)%Z ↔ contains sub s = true.
Proof.
  intros Hsub. rewrite <- (count_from_pos sub s Hsub).
  destruct sub; [congruence |]. unfold count. lia.
Qed.

Lemma count_nonneg sub s : (0 ≤ count sub s)%Z.
Proof. unfold count. destruct sub; lia. Qed.

Lemma count_from_le sub skip s : (count_from sub skip s ≤ String.length s)%nat.
Proof.
  revert skip. induction s as [| c s IH]; intros skip; [simpl; lia |].
  destruct skip as [| k].
  - change (count_from sub 0 (String c s))
      with (if startswith sub (String c s)
            then S (count_from sub (String.length sub - 1) s)
            else count_from sub 0 s).
    destruct (startswith sub (String c s)); simpl.
    + specialize (IH (String.length sub - 1)). lia.
    + specialize (IH 0). lia.
  - simpl. specialize (IH k). lia.
Qed.

Lemma count_le sub s : (count sub s ≤ Z.of_nat (String.length s) + 1)%Z.
Proof.
  unfold count. destruct sub; [lia |].
  pose proof (count_from_le (String a sub) 0 s). lia.
Qed.

End StringFacts.

(** ** Facts about binary64 division, product and truncation *)

Section FloatFacts.

Import Py.
Local Open Scope Z_scope.

Lemma digits2_pos_size p : digits2_pos p = Pos.size p.
Proof. induction p as [p IH | p IH |]; simpl; [rewrite IH .. |]; reflexivity. Qed.

Lemma Zdigits2_le m k : 0 ≤ m → 0 ≤ k → m < 2 ^ k → Zdigits2 m ≤ k.
Proof.
  intros Hm Hk Hlt. destruct m as [| p | p]; [simpl; lia | | lia].
  simpl. rewrite digits2_pos_size.
  pose proof (Pos.size_le p) as Hs.
  assert (H2 : 2 ^ Zpos (Pos.size p) ≤ 2 * Zpos p).
  { change 2 with (Zpos 2) at 1. rewrite <- Pos2Z.inj_pow. 
    change (2 * Z.pos p) with (Zpos p~0). apply Pos2Z.pos_le_pos. exact Hs. }
  destruct (Z_le_gt_dec (Zpos (Pos.size p)) k) as [Hle | Hgt]; [exact Hle | exfalso].
  assert (2 ^ (k + 1) ≤ 2 ^ Zpos (Pos.size p)) by (apply Z.pow_le_mono_r; lia).
  rewrite Z.pow_add_r in H by lia. lia.
Qed.

Lemma iter_pos_nat {A} (f : A → A) p x : SpecFloat.iter_pos f p x = Nat.iter (Pos.to_nat p) f x.
Proof.
  revert x. induction p as [p IH | p IH |]; intros x.
  - change (SpecFloat.iter_pos f p~1 x)
      with (SpecFloat.iter_pos f p (SpecFloat.iter_pos f p (f x))).
    rewrite !IH, Pos2Nat.inj_xI.
    replace (S (2 * Pos.to_nat p)) with (Pos.to_nat p + S (Pos.to_nat p))%nat by lia.
    rewrite Nat.iter_add, Nat.iter_succ_r. reflexivity.
  - change (SpecFloat.iter_pos f p~0 x)
      with (SpecFloat.iter_pos f p (SpecFloat.iter_pos f p x)).
    rewrite !IH, Pos2Nat.inj_xO.
    replace (2 * Pos.to_nat p)%nat with (Pos.to_nat p + Pos.to_nat p)%nat by lia.
    rewrite Nat.iter_add. reflexivity.
  - reflexivity.
Qed.

Lemma shr_1_spec mrs :
  0 ≤ shr_m mrs →
  shr_m (shr_1 mrs) = shr_m mrs / 2 ∧
  inexact (shr_1 mrs) = Z.odd (shr_m mrs) || inexact mrs.
Proof.
  destruct mrs as [m r s]. unfold inexact.
  destruct m as [| [p | p |] | p]; intros Hm; try (exfalso; simpl in Hm; lia);
    (split; [| reflexivity]).
  - reflexivity.
  - change (Z.pos p = Z.pos p~1 / 2). apply Z.div_unique with (r := 1); lia.
  - change (Z.pos p = Z.pos p~0 / 2). apply Z.div_unique with (r := 0); lia.
  - reflexivity.
Qed.

Lemma iter_shr_1_spec n mrs :
  0 ≤ shr_m mrs →
  shr_m (Nat.iter n shr_1 mrs) = shr_m mrs / 2 ^ Z.of_nat n ∧
  (inexact mrs = false → shr_m mrs mod 2 ^ Z.of_nat n = 0 →
   inexact (Nat.iter n shr_1 mrs) = false).
Proof.
  intros Hm. induction n as [| n [IHm IHx]].
  - simpl. rewrite Z.div_1_r. auto.
  - change (Nat.iter (S n) shr_1 mrs) with (shr_1 (Nat.iter n shr_1 mrs)).
    assert (Hpos : 0 ≤ shr_m (Nat.iter n shr_1 mrs)).
    { rewrite IHm. apply Z.div_pos; lia. }
    destruct (shr_1_spec _ Hpos) as [H1 H2].
    rewrite Nat2Z.inj_succ, Z.pow_succ_r by lia.
    split.
    + rewrite H1, IHm. rewrite Z.div_div by lia. f_equal. lia.
    + intros Hex Hmod. rewrite H2, IHm.
      assert (Hd : shr_m mrs = 2 * 2 ^ Z.of_nat n * (shr_m mrs / (2 * 2 ^ Z.of_nat n))).
      { apply Z.div_exact in Hmod; lia. }
      set (q := shr_m mrs / (2 * 2 ^ Z.of_nat n)) in *.
      rewrite IHx.
      * rewrite orb_false_r. rewrite Hd.
        replace (2 * 2 ^ Z.of_nat n * q) with ((2 * q) * 2 ^ Z.of_nat n) by lia.
        rewrite Z.div_mul by lia. rewrite Z.odd_mul. reflexivity.
      * exact Hex.
      * rewrite Hd. replace (2 * 2 ^ Z.of_nat n * q) with ((2 * q) * 2 ^ Z.of_nat n) by lia.
        apply Z.mod_mul. lia.
Qed.

Lemma shr_spec mrs e n :
  0 ≤ shr_m mrs →
  snd (shr mrs e n) = e + Z.max 0 n ∧
  shr_m (fst (shr mrs e n)) = shr_m mrs / 2 ^ Z.max 0 n ∧
  (inexact mrs = false → shr_m mrs mod 2 ^ Z.max 0 n = 0 →
   inexact (fst (shr mrs e n)) = false).
Proof.
  intros Hm. destruct n as [| p | p]; simpl.
  - rewrite Z.div_1_r. split; [lia | auto].
  - rewrite iter_pos_nat. destruct (iter_shr_1_spec (Pos.to_nat p) mrs Hm) as [H1 H2].
    rewrite positive_nat_Z in H1, H2. auto.
  - rewrite Z.div_1_r. split; [lia | auto].
Qed.

Lemma round_nearest_even_bounds m l :
  m ≤ round_nearest_even m l ≤ m + 1 ∧ (l = loc_Exact → round_nearest_even m l = m).
Proof.
  destruct l as [| []]; simpl; try destruct (Z.even m); split; (lia || congruence || auto).
Qed.

Lemma loc_of_shr_record_exact mrs :
  inexact mrs = false → loc_of_shr_record mrs = loc_Exact.
Proof. destruct mrs as [m [] []]; unfold inexact; simpl; congruence. Qed.

Lemma shr_record_of_loc_m m l : shr_m (shr_record_of_loc m l) = m.
Proof. destruct l as [| []]; reflexivity. Qed.

Lemma shr_record_of_loc_exact m : inexact (shr_record_of_loc m loc_Exact) = false.
Proof. reflexivity. Qed.

Lemma fexp_nonpos m e :
  0 ≤ m → e ≤ 0 → m < 2 ^ (53 - e) → fexp prec emax (Zdigits2 m + e) ≤ 0.
Proof.
  intros Hm He Hlt. pose proof (Zdigits2_le m (53 - e) Hm ltac:(lia) Hlt).
  unfold fexp, emin, prec, emax. lia.
Qed.

Lemma pow2_split a b : 0 ≤ a → 0 ≤ b → 2 ^ (a + b) = 2 ^ a * 2 ^ b.
Proof. intros. apply Z.pow_add_r; lia. Qed.

Lemma shr_fexp_spec B m e l :
  0 ≤ m → e ≤ 0 → 0 ≤ B < 2 ^ 53 → m ≤ B * 2 ^ (- e) →
  ∃ k, 0 ≤ k ∧ snd (shr_fexp prec emax m e l) = e + k ∧ e + k ≤ 0 ∧
       shr_m (fst (shr_fexp prec emax m e l)) = m / 2 ^ k ∧
       (l = loc_Exact → m mod 2 ^ k = 0 →
        inexact (fst (shr_fexp prec emax m e l)) = false).
Proof.
  intros Hm He HB Hle. unfold shr_fexp.
  set (n := fexp prec emax (Zdigits2 m + e) - e).
  assert (Hn : e + Z.max 0 n ≤ 0).
  { assert (m < 2 ^ (53 - e)).
    { replace (53 - e) with (53 + - e) by lia. rewrite pow2_split by lia.
      assert (0 < 2 ^ (- e)) by (apply Z.pow_pos_nonneg; lia). nia. }
    pose proof (fexp_nonpos m e Hm He H). lia. }
  destruct (shr_spec (shr_record_of_loc m l) e n) as (H1 & H2 & H3).
  { rewrite shr_record_of_loc_m. exact Hm. }
  rewrite shr_record_of_loc_m in H2, H3.
  exists (Z.max 0 n). repeat split; [lia | exact H1 | exact Hn | exact H2 |].
  intros -> Hmod. apply H3; [reflexivity | exact Hmod].
Qed.

Lemma binary_round_aux_below B mx ex lx :
  0 ≤ mx → ex ≤ 0 → 0 ≤ B < 2 ^ 53 →
  mx < B * 2 ^ (- ex) ∨ (mx = B * 2 ^ (- ex) ∧ lx = loc_Exact) →
  below B (binary_round_aux prec emax false mx ex lx).
Proof.
  intros Hmx Hex HB Hle. unfold binary_round_aux.
  destruct (shr_fexp_spec B mx ex lx Hmx Hex HB ltac:(lia))
    as (k1 & Hk1 & He1 & He1' & Hm1 & Hx1).
  destruct (shr_fexp prec emax mx ex lx) as [mrs1 e1]. simpl in He1, Hm1, Hx1. subst e1.
  set (m1 := round_nearest_even (shr_m mrs1) (loc_of_shr_record mrs1)).
  assert (Hp1 : 0 < 2 ^ k1) by (apply Z.pow_pos_nonneg; lia).
  assert (Hsplit : 2 ^ (- ex) = 2 ^ (- (ex + k1)) * 2 ^ k1).
  { rewrite <- pow2_split by lia. f_equal. lia. }
  assert (Hpe : 0 < 2 ^ (- (ex + k1))) by (apply Z.pow_pos_nonneg; lia).
  assert (Hm1nn : 0 ≤ shr_m mrs1) by (rewrite Hm1; apply Z.div_pos; lia).
  assert (Hm1le : shr_m mrs1 ≤ B * 2 ^ (- (ex + k1))).
  { rewrite Hm1. apply Z.div_le_upper_bound; [lia |]. rewrite Hsplit in Hle. nia. }
  assert (Hr : 0 ≤ m1 ≤ B * 2 ^ (- (ex + k1))).
  { pose proof (round_nearest_even_bounds (shr_m mrs1) (loc_of_shr_record mrs1)) as [Hb Hexact].
    fold m1 in Hb, Hexact.
    destruct (Z_lt_le_dec (shr_m mrs1) (B * 2 ^ (- (ex + k1)))) as [Hlt | Hge]; [lia |].
    assert (Hbig : B * 2 ^ (- ex) ≤ mx).
    { pose proof (Z.mul_div_le mx (2 ^ k1) Hp1). rewrite <- Hm1 in H. rewrite Hsplit. nia. }
    destruct Hle as [Hlt | [Heq Hloc]]; [lia |].
    rewrite Hexact; [lia |]. apply loc_of_shr_record_exact, Hx1; [exact Hloc |].
    rewrite Heq, Hsplit, Z.mul_assoc. apply Z.mod_mul. lia. }
  destruct (shr_fexp_spec B m1 (ex + k1) loc_Exact ltac:(lia) He1' HB ltac:(lia))
    as (k2 & Hk2 & He2 & He2' & Hm2 & _).
  destruct (shr_fexp prec emax m1 (ex + k1) loc_Exact) as [mrs2 e2].
  simpl in He2, Hm2. subst e2.
  assert (Hp2 : 0 < 2 ^ k2) by (apply Z.pow_pos_nonneg; lia).
  assert (Hsplit2 : 2 ^ (- (ex + k1)) = 2 ^ (- (ex + k1 + k2)) * 2 ^ k2).
  { rewrite <- pow2_split by lia. f_equal. lia. }
  assert (Hm2nn : 0 ≤ shr_m mrs2) by (rewrite Hm2; apply Z.div_pos; lia).
  assert (Hm2le : shr_m mrs2 ≤ B * 2 ^ (- (ex + k1 + k2))).
  { rewrite Hm2. apply Z.div_le_upper_bound; [lia |]. rewrite Hsplit2 in Hr.
    assert (0 < 2 ^ (- (ex + k1 + k2))) by (apply Z.pow_pos_nonneg; lia). nia. }
  destruct (shr_m mrs2) as [| m | m]; [exact I | | lia].
  replace (ex + k1 + k2 <=? emax - prec) with true
    by (symmetry; apply Z.leb_le; unfold emax, prec; lia).
  simpl. split; [lia | exact Hm2le].
Qed.

Lemma new_location_exact nb : new_location nb 0 = loc_Exact.
Proof. unfold new_location. destruct (Z.even nb); reflexivity. Qed.

Lemma SFdiv_below B a b :
  (Z.pos a ≤ B * Z.pos b) → 0 ≤ B < 2 ^ 53 →
  below B (SFdiv prec emax (S754_finite false a 0) (S754_finite false b 0)).
Proof.
  intros Hab HB. unfold SFdiv, SFdiv_core_binary.
  set (e' := Z.min (fexp prec emax (Zdigits2 (Z.pos a) + 0 - (Zdigits2 (Z.pos b) + 0))) (0 - 0)).
  assert (He' : e' ≤ 0) by (unfold e'; lia).
  set (m' := match 0 - 0 - e' with
             | 0 => Z.pos a
             | Z.pos _ => Z.shiftl (Z.pos a) (0 - 0 - e')
             | Z.neg _ => 0
             end).
  assert (Hm' : m' = Z.pos a * 2 ^ (- e')).
  { unfold m'. replace (0 - 0 - e') with (- e') by lia.
    destruct (- e') as [| p | p] eqn:E; [simpl; lia | | lia].
    rewrite Z.shiftl_mul_pow2 by lia. reflexivity. }
  clearbody m'.
  pose proof (Z_div_mod m' (Z.pos b) ltac:(lia)) as Hdm.
  destruct (Z.div_eucl m' (Z.pos b)) as [q r]. destruct Hdm as [Hq Hr].
  simpl xorb.
  assert (Hp : 0 < 2 ^ (- e')) by (apply Z.pow_pos_nonneg; lia).
  assert (Hq0 : 0 ≤ q) by nia.
  apply binary_round_aux_below; [exact Hq0 | exact He' | exact HB |].
  destruct (Z_lt_le_dec q (B * 2 ^ (- e'))) as [Hlt | Hge]; [left; exact Hlt | right].
  assert (Hqeq : q = B * 2 ^ (- e')) by nia.
  split; [exact Hqeq |].
  assert (r = 0) by nia. subst r. apply new_location_exact.
Qed.

(** The quotient of two integers is at most a bound [B] of the exact ratio;
    in particular the division does not overflow. *)
Lemma truediv_below B a b :
  0 ≤ a → 0 < b → a ≤ B * b → 0 ≤ B < 2 ^ 53 →
  ∃ x, truediv a b = Some x ∧ below B x.
Proof.
  intros Ha Hb Hab HB. unfold truediv.
  replace (b =? 0) with false by (symmetry; apply Z.eqb_neq; lia).
  destruct b as [| b | b]; try lia.
  destruct a as [| a | a]; try lia.
  - exists (S754_zero false). split; reflexivity.
  - pose proof (SFdiv_below B a b Hab HB) as Hbel.
    unfold float_of_int.
    destruct (SFdiv prec emax (S754_finite false a 0) (S754_finite false b 0))
      as [[] | [] | | [] m e]; simpl in Hbel; try contradiction; eauto.
Qed.

Lemma mul_int_below B x k :
  below B x → 0 ≤ k → 0 ≤ B → B * k < 2 ^ 53 → below (B * k) (mul_int x k).
Proof.
  intros Hx Hk HB HBk. unfold mul_int.
  destruct x as [[] | [] | | [] m e]; simpl in Hx; try contradiction.
  - destruct k as [| k | k]; try lia; exact I.
  - destruct Hx as [He Hm]. destruct k as [| k | k]; try lia; [exact I |].
    unfold float_of_int, SFmul. simpl xorb.
    apply binary_round_aux_below; [lia | lia | nia |].
    rewrite Z.add_0_r.
    assert (0 < 2 ^ (- e)) by (apply Z.pow_pos_nonneg; lia).
    rewrite Pos2Z.inj_mul.
    destruct (Z_lt_le_dec (Z.pos m * Z.pos k) (B * Z.pos k * 2 ^ (- e))); [left; lia | right].
    split; [nia | reflexivity].
Qed.

Lemma int_below B x : 0 ≤ B → below B x → ∃ n, int x = Some n ∧ 0 ≤ n ≤ B.
Proof.
  intros HB. destruct x as [[] | [] | | [] m e]; simpl; try contradiction.
  - intros _. exists 0. split; [reflexivity | lia].
  - intros [He Hm]. exists (Z.shiftl (Z.pos m) e). split; [reflexivity |].
    rewrite Z.shiftl_div_pow2 by lia.
    assert (0 < 2 ^ (- e)) by (apply Z.pow_pos_nonneg; lia).
    split; [apply Z.div_pos; lia |].
    apply Z.div_le_upper_bound; lia.
Qed.

Lemma binary_round_aux_nonneg mx ex lx : nonneg (binary_round_aux prec emax false mx ex lx).
Proof.
  unfold binary_round_aux.
  destruct (shr_fexp prec emax mx ex lx) as [mrs1 e1].
  destruct (shr_fexp prec emax _ e1 loc_Exact) as [mrs2 e2].
  destruct (shr_m mrs2); [reflexivity | | exact I].
  destruct (e2 <=? emax - prec); reflexivity.
Qed.

Lemma truediv_nonneg a b x : 0 ≤ a → 0 < b → truediv a b = Some x → nonneg x.
Proof.
  intros Ha Hb. unfold truediv.
  destruct b as [| b | b]; try lia. destruct a as [| a | a]; try lia; simpl.
  - intros [= <-]. reflexivity.
  - unfold SFdiv_core_binary.
    destruct (Z.div_eucl _ (Z.pos b)) as [q r].
    match goal with |- context [binary_round_aux ?p ?e false ?m ?x ?l] =>
      pose proof (binary_round_aux_nonneg m x l) as Hn;
      destruct (binary_round_aux p e false m x l) end;
    intros [= <-]; exact Hn.
Qed.

Lemma mul_int_nonneg x k : nonneg x → 0 ≤ k → nonneg (mul_int x k).
Proof.
  intros Hx Hk. unfold mul_int.
  destruct k as [| k | k]; try lia;
    destruct x as [s | s | | s m e]; simpl in *; subst; try reflexivity; try exact I.
  apply binary_round_aux_nonneg.
Qed.

Lemma int_nonneg x n : nonneg x → int x = Some n → 0 ≤ n.
Proof.
  destruct x as [s | s | | s m e]; simpl; intros Hx; try discriminate.
  - intros [= <-]. lia.
  - subst s. intros [= <-]. apply Z.shiftl_nonneg. lia.
Qed.

End FloatFacts.

(** ** Facts about lists and dictionaries *)

Section ListFacts.
Import Py.
Local Open Scope Z_scope.

Lemma foldl_add_sum a l : foldl Z.add a l = a + sum l.
Proof.
  unfold sum. revert a. induction l as [| x l IH]; intros a; simpl; [lia |].
  rewrite (IH (a + x)), (IH (0 + x)). lia.
Qed.

Lemma sum_cons x l : sum (x :: l) = x + sum l.
Proof. unfold sum at 1. simpl. apply foldl_add_sum. Qed.

Lemma sum_nonneg l : Forall (fun x => 0 ≤ x) l → 0 ≤ sum l.
Proof.
  induction 1 as [| x l Hx _ IH]; [reflexivity |]. rewrite sum_cons. lia.
Qed.

Lemma sum_le_scaled B l : Forall (fun x => x ≤ B) l → sum l ≤ B * Z.of_nat (length l).
Proof.
  induction 1 as [| x l Hx _ IH]; [unfold sum; simpl; lia |].
  rewrite sum_cons. simpl length. rewrite Nat2Z.inj_succ. nia.
Qed.

Lemma elem_of_map {A B} (f : A → B) l y : y ∈ map f l ↔ ∃ x, y = f x ∧ x ∈ l.
Proof.
  rewrite list_elem_of_In, in_map_iff. split; intros (x & H1 & H2); exists x.
  - apply list_elem_of_In in H2. auto.
  - apply list_elem_of_In in H2. auto.
Qed.

Lemma foldl_nonneg {A} (f : Z → A → Z) a l :
  (∀ acc x, 0 ≤ acc → 0 ≤ f acc x) → 0 ≤ a → 0 ≤ foldl f a l.
Proof.
  intros Hf. revert a. induction l as [| x l IH]; intros a Ha; simpl; auto.
Qed.

(** The element chosen by [max_by] is the first one with the largest key. *)
Lemma max_by_fold {A} (key : A → Z) best rest done1 done2 :
  (∀ y, y ∈ done1 → key y < key best) →
  (∀ y, y ∈ done2 → key y ≤ key best) →
  ∃ l1 l2,
    (done1 ++ best :: done2 ++ rest)%list
      = (l1 ++ foldl (fun b y => if key b <? key y then y else b) best rest :: l2)%list ∧
    (∀ y, y ∈ l1 → key y < key (foldl (fun b y => if key b <? key y then y else b) best rest)) ∧
    (∀ y, y ∈ l2 → key y ≤ key (foldl (fun b y => if key b <? key y then y else b) best rest)).
Proof.
  revert best done1 done2. induction rest as [| y rest IH]; intros best done1 done2 H1 H2.
  - exists done1, done2. rewrite app_nil_r. auto.
  - simpl foldl. destruct (Z.ltb_spec (key best) (key y)) as [Hlt | Hge].
    + destruct (IH y (done1 ++ best :: done2)%list []) as (l1 & l2 & Heq & Hl1 & Hl2).
      * intros z Hz. apply elem_of_app in Hz as [Hz | Hz]; [specialize (H1 z Hz); lia |].
        apply elem_of_cons in Hz as [-> | Hz]; [lia | specialize (H2 z Hz); lia].
      * intros z Hz. inversion Hz.
      * exists l1, l2. split; [| auto]. rewrite <- Heq. simpl.
        rewrite <- !app_assoc. reflexivity.
    + destruct (IH best done1 (done2 ++ [y])%list) as (l1 & l2 & Heq & Hl1 & Hl2).
      * exact H1.
      * intros z Hz. apply elem_of_app in Hz as [Hz | Hz]; [auto |].
        apply list_elem_of_singleton in Hz as ->. lia.
      * exists l1, l2. split; [| auto]. rewrite <- Heq.
        rewrite <- !app_assoc. reflexivity.
Qed.

Lemma max_by_spec {A} (key : A → Z) l x :
  max_by key l = Some x →
  ∃ l1 l2, l = (l1 ++ x :: l2)%list ∧
           (∀ y, y ∈ l1 → key y < key x) ∧ (∀ y, y ∈ l2 → key y ≤ key x).
Proof.
  destruct l as [| x0 xs]; [discriminate |]. intros [= <-].
  destruct (max_by_fold key x0 xs [] []) as (l1 & l2 & Heq & H1 & H2).
  - intros y Hy. inversion Hy.
  - intros y Hy. inversion Hy.
  - exists l1, l2. auto.
Qed.

Lemma max_by_is_Some {A} (key : A → Z) l : l ≠ [] → is_Some (max_by key l).
Proof. destruct l; [congruence | eauto]. Qed.

Lemma max_spec l top :
  max l = Some top → top ∈ l ∧ ∀ y, y ∈ l → y ≤ top.
Proof.
  intros H. apply max_by_spec in H as (l1 & l2 & -> & H1 & H2). unfold id in *.
  split; [apply elem_of_app; right; left |].
  intros y Hy. apply elem_of_app in Hy as [Hy | Hy]; [specialize (H1 y Hy); lia |].
  apply elem_of_cons in Hy as [-> | Hy]; [lia | auto].
Qed.

Lemma index_spec x l : x ∈ l → ∃ i, index x l = Some i ∧ (i < length l)%nat.
Proof.
  induction l as [| y l IH]; intros Hx; [inversion Hx |].
  simpl. destruct (Z.eqb_spec y x) as [-> | Hne].
  - exists 0%nat. split; [reflexivity | lia].
  - apply elem_of_cons in Hx as [-> | Hx]; [congruence |].
    destruct (IH Hx) as (i & -> & Hi). exists (S i). split; [reflexivity | lia].
Qed.



(** Dictionaries *)

Lemma dict_get_fmap {V W} (f : V → W) (d : list (string * V)) k :
  dict_get (map (fun '(k, v) => (k, f v)) d) k = f <$> dict_get d k.
Proof.
  induction d as [| [k' v] d IH]; [reflexivity |]. simpl.
  destruct (bool_decide (k' = k)); [reflexivity | exact IH].
Qed.

Lemma fst_fmap {V W} (f : V → W) (d : list (string * V)) :
  map fst (map (fun '(k, v) => (k, f v)) d) = map fst d.
Proof. induction d as [| [k v] d IH]; [reflexivity |]. simpl. f_equal. exact IH. Qed.

Lemma dict_get_key {V} (d : list (string * V)) k :
  k ∈ map fst d → ∃ v, dict_get d k = Some v ∧ v ∈ map snd d.
Proof.
  induction d as [| [k' v] d IH]; intros Hk; [inversion Hk |]. simpl.
  destruct (bool_decide_reflect (k' = k)) as [-> | Hne].
  - exists v. split; [reflexivity | left].
  - simpl in Hk. apply elem_of_cons in Hk as [-> | Hk]; [congruence |].
    destruct (IH Hk) as (w & Hw & Hin). exists w. split; [exact Hw | right; exact Hin].
Qed.

Lemma dict_get_value {V} (d : list (string * V)) v :
  NoDup (map fst d) → v ∈ map snd d → ∃ k, k ∈ map fst d ∧ dict_get d k = Some v.
Proof.
  induction d as [| [k' v'] d IH]; intros Hnd Hv; [inversion Hv |].
  simpl in *. apply NoDup_cons in Hnd as [Hk' Hnd].
  apply elem_of_cons in Hv as [-> | Hv].
  - exists k'. split; [left |]. rewrite bool_decide_eq_true_2 by reflexivity. reflexivity.
  - destruct (IH Hnd Hv) as (k & Hk & Hget). exists k. split; [right; exact Hk |].
    rewrite bool_decide_eq_false_2; [exact Hget |]. intros ->. contradiction.
Qed.

(** In a dictionary of scores, the key picked by [max_by] carries the
    largest value. *)
Lemma dict_argmax_value (d : list (string * Z)) top core :
  NoDup (map fst d) →
  max (map snd d) = Some top →
  max_by (fun k => default 0 (dict_get d k)) (map fst d) = Some core →
  dict_get d core = Some top.
Proof.
  intros Hnd Hmax Hcore.
  apply max_spec in Hmax as [Htop Hle].
  apply max_by_spec in Hcore as (l1 & l2 & Hkeys & H1 & H2).
  assert (Hcin : core ∈ map fst d) by (rewrite Hkeys; apply elem_of_app; right; left).
  destruct (dict_get_key d core Hcin) as (v & Hv & Hvin).
  destruct (dict_get_value d top Hnd Htop) as (k & Hk & Hget).
  assert (default 0 (dict_get d k) ≤ default 0 (dict_get d core)).
  { rewrite Hkeys in Hk. apply elem_of_app in Hk as [Hk | Hk]; [specialize (H1 k Hk); lia |].
    apply elem_of_cons in Hk as [-> | Hk]; [lia | auto]. }
  rewrite Hget, Hv in H. simpl in H. specialize (Hle v Hvin).
  rewrite Hv. f_equal. lia.
Qed.

End ListFacts.

(** ** Facts about the analyzers *)

Section AnalyzerFacts.
Import AnalysisService Notions.
Local Open Scope Z_scope.

Lemma count_keywords_nonneg keywords text : 0 ≤ count_keywords keywords text.
Proof.
  unfold count_keywords. apply sum_nonneg, Forall_forall.
  intros x Hx. apply elem_of_map in Hx as (k & -> & _). apply count_nonneg.
Qed.


Lemma table_count_values (table : list (string * list string)) text x :
  x ∈ map snd (map (fun '(k, keywords) => (k, count_keywords keywords text)) table) →
  0 ≤ x.
Proof.
  intros Hx. apply elem_of_map in Hx as ([k v] & -> & Hin).
  apply elem_of_map in Hin as ([k' kws] & [= -> ->] & _).
  apply count_keywords_nonneg.
Qed.


Lemma theme_keys_nodup : NoDup (map fst theme_keywords).
Proof. apply (bool_decide_unpack _). vm_compute. exact I. Qed.


Lemma int_mean_range l :
  l ≠ [] → Forall (fun x => 0 ≤ x ≤ 100) l →
  ∃ r, Py.int_mean l = Some r ∧ 0 ≤ r ≤ 100.
Proof.
  intros Hne Hall. unfold Py.int_mean.
  assert (Hlen : 0 < Z.of_nat (length l)) by (destruct l; [congruence | simpl; lia]).
  assert (H0 : 0 ≤ Py.sum l).
  { apply sum_nonneg. eapply Forall_impl; [exact Hall |]. simpl. lia. }
  assert (H100 : Py.sum l ≤ 100 * Z.of_nat (length l)).
  { apply sum_le_scaled. eapply Forall_impl; [exact Hall |]. simpl. lia. }
  destruct (truediv_below 100 (Py.sum l) (Z.of_nat (length l)) H0 Hlen H100 ltac:(lia))
    as (x & Hx & Hbelow).
  destruct (int_below 100 x ltac:(lia) Hbelow) as (r & Hr & Hrange).
  exists r. split; [| exact Hrange].
  destruct l; [congruence |]. rewrite Hx. simpl. exact Hr.
Qed.

Lemma scene_tension_range clean_text : 0 ≤ scene_tension clean_text ≤ 100.
Proof.
  unfold scene_tension.
  set (t := foldl _ 0 _).
  assert (0 ≤ t).
  { apply foldl_nonneg; [| lia]. intros acc kw Hacc.
    pose proof (count_nonneg kw clean_text). lia. }
  destruct (any_in _ clean_text); lia.
Qed.

Lemma emotional_points_range (l : list (Z * StoryNode)) :
  Forall (fun x => 0 ≤ x ≤ 100)
         (map point_tension (map (fun '(i, node) => emotional_point i node) l)).
Proof.
  apply Forall_forall. intros x Hx.
  apply elem_of_map in Hx as (pt & -> & Hpt).
  apply elem_of_map in Hpt as ([i node] & -> & _).
  apply scene_tension_range.
Qed.

Lemma emotional_arc_range nodes full_text arc :
  _analyze_emotional_arc nodes full_text = Some arc →
  0 ≤ tension_score arc ≤ 100 ∧
  Forall (fun point => 0 ≤ point_tension point ≤ 100) (emotional_points arc).
Proof.
  unfold _analyze_emotional_arc.
  set (points := map _ (Py.enumerate (sorted_nodes nodes))).
  assert (Hpts : Forall (fun x => 0 ≤ x ≤ 100) (map point_tension points))
    by apply emotional_points_range.
  assert (Hpts' : Forall (fun point => 0 ≤ point_tension point ≤ 100) points).
  { apply Forall_forall. intros pt Hpt. rewrite Forall_forall in Hpts.
    apply Hpts, elem_of_map. exists pt. auto. }
  destruct (map point_tension points) as [| s scores] eqn:Hscores.
  - intros [= <-]. simpl. split; [lia | exact Hpts'].
  - destruct (int_mean_range (s :: scores) ltac:(discriminate) Hpts) as (r & Hr & Hrange).
    destruct (Py.max (s :: scores)) as [top |]; [| discriminate]. cbn [mbind option_bind].
    destruct (Py.index top (s :: scores)) as [idx |]; [| discriminate]. cbn [mbind option_bind].
    destruct (sorted_nodes nodes !! idx) as [peak |]; [| discriminate]. cbn [mbind option_bind].
    rewrite Hr. cbn [mbind option_bind]. intros [= <-]. simpl. split; [exact Hrange | exact Hpts'].
Qed.

Lemma theme_score_nonneg full_text theme strength :
  Py.dict_get (theme_scores full_text) theme = Some strength → 0 ≤ strength.
Proof.
  unfold theme_scores.
  rewrite (dict_get_fmap (fun keywords => count_keywords keywords (Py.lower full_text))).
  destruct (Py.dict_get theme_keywords theme); [| discriminate].
  intros [= <-]. apply count_keywords_nonneg.
Qed.

Lemma consistency_of_range theme_strength total_words score :
  0 ≤ theme_strength →
  consistency_of theme_strength total_words = Some score → 0 ≤ score ≤ 100.
Proof.
  intros Hs. unfold consistency_of.
  destruct (Py.truediv theme_strength (Z.max 1 total_words)) as [q |] eqn:Hq; [| discriminate].
  cbn [mbind option_bind].
  destruct (Py.int (Py.mul_int q 1000)) as [n |] eqn:Hn; [| discriminate].
  cbn [mbind option_bind]. intros [= <-].
  apply truediv_nonneg in Hq; [| exact Hs | lia].
  apply int_nonneg in Hn; [lia |]. apply mul_int_nonneg; [exact Hq | lia].
Qed.

(** Below 2^43 keyword occurrences the score is always produced. *)
Lemma consistency_of_total theme_strength total_words :
  0 ≤ theme_strength < 2 ^ 43 →
  ∃ score, consistency_of theme_strength total_words = Some score.
Proof.
  intros Hs. unfold consistency_of.
  assert (H43 : 2 ^ 43 = 8796093022208) by reflexivity.
  assert (H53 : 2 ^ 53 = 9007199254740992) by reflexivity.
  destruct (truediv_below theme_strength theme_strength (Z.max 1 total_words))
    as (q & Hq & Hbelow).
  { lia. }
  { lia. }
  { nia. }
  { lia. }
  rewrite Hq. cbn [mbind option_bind].
  assert (Hk : theme_strength * 1000 < 2 ^ 53) by lia.
  pose proof (mul_int_below theme_strength q 1000 Hbelow ltac:(lia) ltac:(lia) Hk) as Hmul.
  assert (Hnn : 0 ≤ theme_strength * 1000) by lia.
  destruct (int_below _ _ Hnn Hmul) as (n & Hn & _).
  rewrite Hn. cbn [mbind option_bind]. eauto.
Qed.

Lemma core_theme_and_score_range full_text core score :
  core_theme_and_score full_text = Some (core, score) → 0 ≤ score ≤ 100.
Proof.
  unfold core_theme_and_score.
  destruct (Py.max (map snd (theme_scores full_text))) as [top |]; [| intros [= <- <-]; lia].
  destruct (0 <? top); [| intros [= <- <-]; lia].
  destruct (Py.max_by _ _) as [c |]; [| discriminate]. cbn [mbind option_bind].
  destruct (Py.dict_get (theme_scores full_text) c) as [s |] eqn:Hs; [| discriminate].
  cbn [mbind option_bind].
  destruct (consistency_of s (word_count full_text)) as [n |] eqn:Hn; [| discriminate].
  cbn [mbind option_bind]. intros [= <- <-].
  eapply consistency_of_range; [| exact Hn]. eapply theme_score_nonneg, Hs.
Qed.

Lemma character_arc_range character text : 0 ≤ _analyze_character_arc character text ≤ 10.
Proof.
  unfold _analyze_character_arc.
  set (n := foldl _ 0 _).
  assert (0 ≤ n); [| lia].
  apply foldl_nonneg; [| lia]. intros acc sentence Hacc.
  destruct (Py.contains _ _); [destruct (any_in _ _) |]; lia.
Qed.

Lemma record_pair_range text char1 relationships char2 :
  map_Forall (fun _ edge => 1 ≤ edge_strength edge ≤ 10) relationships →
  map_Forall (fun _ edge => 1 ≤ edge_strength edge ≤ 10)
             (record_pair text char1 relationships char2).
Proof.
  intros H. unfold record_pair.
  destruct (Z.ltb_spec 0 (co_occurrence char1 char2 text)); [| exact H].
  apply map_Forall_insert_2; [simpl; lia | exact H].
Qed.

Lemma relationship_matrix_range characters text :
  map_Forall (fun _ edge => 1 ≤ edge_strength edge ≤ 10)
             (_build_relationship_matrix characters text).
Proof.
  unfold _build_relationship_matrix.
  destruct (length characters <? 2)%nat; [apply map_Forall_empty |].
  generalize (imap (fun i char1 => (i, char1)) (take 5 characters)).
  intros outer.
  assert (Hgen : ∀ m : gmap string RelationshipEdge,
             map_Forall (fun _ edge => 1 ≤ edge_strength edge ≤ 10) m →
             map_Forall (fun _ edge => 1 ≤ edge_strength edge ≤ 10)
               (foldl (fun relationships '(i, char1) =>
                         foldl (record_pair text char1) relationships
                               (drop (S i) (take 6 characters))) m outer)).
  { induction outer as [| [i char1] outer IH]; intros m Hm; [exact Hm |].
    simpl. apply IH.
    generalize (drop (S i) (take 6 characters)). intros inner. revert m Hm.
    induction inner as [| char2 inner IHi]; intros m Hm; [exact Hm |].
    simpl. apply IHi, record_pair_range, Hm. }
  apply Hgen, map_Forall_empty.
Qed.

Lemma span_lower_alpha s : all_alpha (fst (Py.span_lower s)) = true.
Proof.
  induction s as [| c s IH]; [reflexivity |]. simpl.
  destruct (Py.islower_c c) eqn:Hc; [| reflexivity].
  destruct (Py.span_lower s) as [run rest]. simpl in *.
  unfold Py.isalpha_c. rewrite Hc, IH, orb_true_r. reflexivity.
Qed.

Lemma findall_names_from_alpha skip prev s :
  Forall (fun w => all_alpha w = true) (Py.findall_names_from skip prev s).
Proof.
  revert skip prev. induction s as [| c s IH]; intros skip prev; [constructor |].
  simpl. destruct skip as [| k]; [| apply IH].
  pose proof (span_lower_alpha s) as Hrun.
  destruct (Py.span_lower s) as [run rest]. simpl in Hrun.
  destruct (negb prev && Py.isupper_c c && negb (bool_decide (run = ""))
            && Py.boundary_after rest) eqn:Hm; [| apply IH].
  constructor; [| apply IH].
  apply andb_true_iff in Hm as [Hm _]. apply andb_true_iff in Hm as [Hm _].
  apply andb_true_iff in Hm as [_ Hup].
  simpl. unfold Py.isalpha_c. rewrite Hup, Hrun. reflexivity.
Qed.

Lemma counter_add_keys w c :
  map fst (Py.counter_add w c)
  = if bool_decide (w ∈ map fst c) then map fst c else (map fst c ++ [w])%list.
Proof.
  induction c as [| [k n] c IH]; [reflexivity |]. simpl.
  destruct (bool_decide_reflect (k = w)) as [-> | Hne].
  - rewrite bool_decide_eq_true_2 by left. reflexivity.
  - simpl. rewrite IH.
    destruct (bool_decide_reflect (w ∈ map fst c)) as [Hin | Hnin].
    + rewrite bool_decide_eq_true_2 by (right; exact Hin). reflexivity.
    + rewrite bool_decide_eq_false_2; [reflexivity |].
      intros Hin. apply elem_of_cons in Hin as [-> | Hin]; congruence.
Qed.

Lemma Counter_from_keys c words :
  NoDup (map fst c) →
  NoDup (map fst (foldl (fun c w => Py.counter_add w c) c words)) ∧
  ∀ k, k ∈ map fst (foldl (fun c w => Py.counter_add w c) c words) →
       k ∈ map fst c ∨ k ∈ words.
Proof.
  revert c. induction words as [| w words IH]; intros c Hnd; simpl; [auto |].
  assert (Hnd' : NoDup (map fst (Py.counter_add w c))).
  { rewrite counter_add_keys. destruct (bool_decide_reflect (w ∈ map fst c)); [exact Hnd |].
    apply NoDup_app. split; [exact Hnd |]. split; [| apply NoDup_singleton].
    intros x Hx Hx'. apply list_elem_of_singleton in Hx' as ->. contradiction. }
  destruct (IH _ Hnd') as [H1 H2]. split; [exact H1 |].
  intros k Hk. destruct (H2 k Hk) as [Hk' | Hk']; [| right; right; exact Hk'].
  rewrite counter_add_keys in Hk'. destruct (bool_decide (w ∈ map fst c)); [left; exact Hk' |].
  apply elem_of_app in Hk' as [Hk' | Hk']; [left; exact Hk' |].
  apply list_elem_of_singleton in Hk' as ->. right. left.
Qed.

Lemma omap_keys {V} (f : string * V → option string) (l : list (string * V)) :
  (∀ k v name, f (k, v) = Some name → name = k) →
  NoDup (map fst l) →
  NoDup (omap f l) ∧ ∀ name, name ∈ omap f l → name ∈ map fst l.
Proof.
  intros Hf. induction l as [| [k v] l IH]; intros Hnd; simpl.
  - split; [constructor | auto].
  - simpl in Hnd. apply NoDup_cons in Hnd as [Hk Hnd]. destruct (IH Hnd) as [H1 H2].
    destruct (f (k, v)) as [name |] eqn:Hfk.
    + apply Hf in Hfk as ->. split.
      * apply NoDup_cons. split; [| exact H1]. intros Hin. apply Hk, H2, Hin.
      * intros name Hname. apply elem_of_cons in Hname as [-> | Hname]; [left | right; auto].
    + split; [exact H1 |]. intros name Hname. right. auto.
Qed.

(** The candidate names are pairwise distinct words of letters. *)
Lemma character_names_spec text :
  NoDup (_extract_character_names text) ∧
  ∀ name, name ∈ _extract_character_names text → all_alpha name = true.
Proof.
  unfold _extract_character_names.
  destruct (Counter_from_keys [] (Py.findall_names text)) as [Hnd Hsub]; [constructor |].
  fold (Py.Counter (Py.findall_names text)) in Hnd, Hsub.
  match goal with |- context [omap ?f _] =>
    destruct (omap_keys f (Py.Counter (Py.findall_names text))) as [H1 H2] end.
  { intros k v name. destruct (_ && _); [congruence | discriminate]. }
  { exact Hnd. }
  split.
  - exact (sublist_NoDup _ _ H1 (sublist_take _ _)).
  - intros name Hname. apply subseteq_take in Hname. apply H2, Hsub in Hname as [Hname | Hname].
    + inversion Hname.
    + pose proof (findall_names_from_alpha 0 false text) as Hall.
      rewrite Forall_forall in Hall. apply Hall, Hname.
Qed.

Lemma alpha_no_dash c : Py.isalpha_c c = true → c ≠ "-"%char.
Proof. intros H ->. vm_compute in H. discriminate. Qed.

Lemma pair_key_nil b : pair_key "" b = String "-" b.
Proof. reflexivity. Qed.

Lemma pair_key_cons c a b : pair_key (String c a) b = String c (pair_key a b).
Proof. reflexivity. Qed.

(** A key determines its pair when the names are words of letters. *)
Lemma pair_key_inj a b a' b' :
  all_alpha a = true → all_alpha a' = true →
  pair_key a b = pair_key a' b' → a = a' ∧ b = b'.
Proof.
  revert a'. induction a as [| c a IH]; intros [| c' a'] Ha Ha' Heq.
  - rewrite !pair_key_nil in Heq. injection Heq as ->. auto.
  - rewrite pair_key_nil, pair_key_cons in Heq.
    simpl in Ha'. apply andb_true_iff in Ha' as [Hc _]. apply alpha_no_dash in Hc. congruence.
  - rewrite pair_key_nil, pair_key_cons in Heq.
    simpl in Ha. apply andb_true_iff in Ha as [Hc _]. apply alpha_no_dash in Hc. congruence.
  - rewrite !pair_key_cons in Heq. injection Heq as -> Heq.
    simpl in Ha, Ha'. apply andb_true_iff in Ha as [_ Ha]. apply andb_true_iff in Ha' as [_ Ha'].
    destruct (IH a' Ha Ha' Heq) as [-> ->]. auto.
Qed.
(** The step of the double loop on one pair. *)
Lemma record_pair_unfold text char1 m char2 :
  record_pair text char1 m char2
  = if 0 <? co_occurrence char1 char2 text
    then <[pair_key char1 char2 := edge_of text char1 char2]> m else m.
Proof. reflexivity. Qed.

Lemma foldl_flat_map {A B C} (f : A → C → A) (g : B → list C) a l :
  foldl f a (flat_map g l) = foldl (fun a x => foldl f a (g x)) a l.
Proof.
  revert a. induction l as [| x l IH]; intros a; [reflexivity |].
  simpl. rewrite foldl_app. apply IH.
Qed.

Lemma foldl_map {A B C} (f : A → C → A) (h : B → C) a l :
  foldl f a (map h l) = foldl (fun a x => f a (h x)) a l.
Proof. revert a. induction l as [| x l IH]; intros a; [reflexivity | apply IH]. Qed.

Lemma foldl_ext_in {A B} (f g : A → B → A) a l :
  (∀ a x, f a x = g a x) → foldl f a l = foldl g a l.
Proof.
  intros H. revert a. induction l as [| x l IH]; intros a; [reflexivity |].
  simpl. rewrite H. apply IH.
Qed.

(** The matrix is the fold of the loop body over the visited pairs. *)
Lemma build_relationship_matrix_pairs characters text :
  _build_relationship_matrix characters text
  = foldl (fun m '(char1, char2) => record_pair text char1 m char2)
          ∅ (candidate_pairs characters).
Proof.
  unfold _build_relationship_matrix, candidate_pairs.
  destruct (Nat.ltb_spec (length characters) 2) as [Hlt | Hge].
  - destruct characters as [| a [| b l]]; [reflexivity | reflexivity | simpl in Hlt; lia].
  - rewrite foldl_flat_map. apply foldl_ext_in. intros m [i char1].
    rewrite foldl_map. reflexivity.
Qed.

Lemma candidate_pairs_spec characters char1 char2 :
  (char1, char2) ∈ candidate_pairs characters ↔
  ∃ i j, (i < 5)%nat ∧ (i < j < 6)%nat ∧
         characters !! i = Some char1 ∧ characters !! j = Some char2.
Proof.
  unfold candidate_pairs. rewrite list_elem_of_In, in_flat_map. split.
  - intros ([i c] & Hic & Hin).
    apply list_elem_of_In, elem_of_lookup_imap in Hic as (i' & c' & [= -> ->] & Hi).
    apply lookup_take_Some in Hi as [Hi Hi5].
    apply in_map_iff in Hin as (c2 & [= -> ->] & Hc2).
    apply list_elem_of_In, list_elem_of_lookup in Hc2 as (d & Hd).
    rewrite lookup_drop in Hd. apply lookup_take_Some in Hd as [Hd Hd6].
    exists i', (S i' + d)%nat. repeat split; (lia || assumption).
  - intros (i & j & Hi & [Hij Hj] & Hc1 & Hc2).
    exists (i, char1). split.
    + apply list_elem_of_In, elem_of_lookup_imap. exists i, char1. split; [reflexivity |].
      apply lookup_take_Some. auto.
    + apply in_map_iff. exists char2. split; [reflexivity |].
      apply list_elem_of_In, list_elem_of_lookup. exists (j - S i)%nat.
      rewrite lookup_drop. apply lookup_take_Some.
      replace (S i + (j - S i))%nat with j by lia. auto.
Qed.

(** An entry of the fold was in the initial map or was recorded for a
    visited pair whose names share a sentence. *)
Lemma fold_pairs_lookup_Some text pairs (m : gmap string RelationshipEdge) key edge :
  foldl (fun m '(char1, char2) => record_pair text char1 m char2) m pairs !! key = Some edge →
  m !! key = Some edge ∨
  ∃ char1 char2, (char1, char2) ∈ pairs ∧ key = pair_key char1 char2 ∧
                 0 < co_occurrence char1 char2 text ∧ edge = edge_of text char1 char2.
Proof.
  revert m. induction pairs as [| [a b] pairs IH]; intros m H; [left; exact H |].
  simpl in H. apply IH in H as [H | (c1 & c2 & Hin & Hk & Hco & He)].
  - rewrite record_pair_unfold in H.
    destruct (Z.ltb_spec 0 (co_occurrence a b text)) as [Hco | Hco]; [| left; exact H].
    rewrite lookup_insert in H. destruct (decide (pair_key a b = key)) as [<- | Hne].
    + injection H as <-. right. exists a, b. split; [left | auto].
    + left. exact H.
  - right. exists c1, c2. split; [right; exact Hin | auto].
Qed.


(** A key stays absent when no visited pair writes it. *)
Lemma fold_pairs_lookup_None text pairs (m : gmap string RelationshipEdge) key :
  m !! key = None →
  (∀ char1 char2, (char1, char2) ∈ pairs → pair_key char1 char2 = key →
                  co_occurrence char1 char2 text ≤ 0) →
  foldl (fun m '(char1, char2) => record_pair text char1 m char2) m pairs !! key = None.
Proof.
  intros Hm Hno.
  destruct (foldl _ m pairs !! key) as [edge |] eqn:H; [| reflexivity].
  apply fold_pairs_lookup_Some in H as [H | (c1 & c2 & Hin & -> & Hco & _)]; [congruence |].
  specialize (Hno c1 c2 Hin eq_refl). lia.
Qed.

Lemma co_occurrence_nonneg char1 char2 text : 0 ≤ co_occurrence char1 char2 text.
Proof.
  unfold co_occurrence. apply sum_nonneg, Forall_forall.
  intros x Hx. apply elem_of_map in Hx as (s & -> & _). lia.
Qed.

Lemma length_insert_by {A} (key : A → Z) x l :
  length (Py.insert_by key x l) = S (length l).
Proof.
  induction l as [| y l IH]; [reflexivity |]. simpl.
  destruct (key x <=? key y); simpl; [reflexivity | rewrite IH; reflexivity].
Qed.

Lemma length_sorted {A} (key : A → Z) l : length (Py.sorted key l) = length l.
Proof.
  induction l as [| x l IH]; [reflexivity |]. simpl.
  rewrite length_insert_by, IH. reflexivity.
Qed.

Lemma length_enumerate_from {A} start (l : list A) :
  length (Py.enumerate_from start l) = length l.
Proof.
  revert start. induction l as [| x l IH]; intros start; [reflexivity |].
  simpl. rewrite IH. reflexivity.
Qed.

Lemma length_lower s : String.length (Py.lower s) = String.length s.
Proof. induction s as [| c s IH]; [reflexivity |]. simpl. rewrite IH. reflexivity. Qed.

Lemma count_keywords_le keywords text :
  count_keywords keywords text
  ≤ Z.of_nat (length keywords) * (Z.of_nat (String.length text) + 1).
Proof.
  unfold count_keywords.
  rewrite <- (length_map (fun keyword => Py.count keyword text) keywords).
  rewrite Z.mul_comm. apply sum_le_scaled, Forall_forall.
  intros x Hx. apply elem_of_map in Hx as (k & -> & _). apply count_le.
Qed.

Lemma emotional_arc_total nodes full_text :
  is_Some (_analyze_emotional_arc nodes full_text).
Proof.
  unfold _analyze_emotional_arc.
  set (points := map _ (Py.enumerate (sorted_nodes nodes))).
  assert (Hlen : length (map point_tension points) = length (sorted_nodes nodes)).
  { unfold points, Py.enumerate. rewrite !length_map, length_enumerate_from. reflexivity. }
  assert (Hpts : Forall (fun x => 0 ≤ x ≤ 100) (map point_tension points))
    by apply emotional_points_range.
  destruct (map point_tension points) as [| s scores] eqn:Hscores; [eauto |].
  destruct (int_mean_range (s :: scores) ltac:(discriminate) Hpts) as (r & Hr & _).
  destruct (max_by_is_Some id (s :: scores) ltac:(discriminate)) as [top Htop].
  fold (Py.max (s :: scores)) in Htop.
  destruct (max_spec _ _ Htop) as [Hin _].
  destruct (index_spec top (s :: scores) Hin) as (idx & Hidx & Hlt).
  rewrite Htop. cbn [mbind option_bind]. rewrite Hidx. cbn [mbind option_bind].
  destruct (lookup_lt_is_Some_2 (sorted_nodes nodes) idx) as [peak Hpeak]; [lia |].
  rewrite Hpeak. cbn [mbind option_bind]. rewrite Hr. cbn [mbind option_bind]. eauto.
Qed.

Lemma percent_of_total part total :
  0 ≤ part ≤ total → 0 < total → is_Some (percent_of part total).
Proof.
  intros Hp Ht. unfold percent_of.
  assert (H53 : 2 ^ 53 = 9007199254740992) by reflexivity.
  destruct (truediv_below 1 part total) as (q & Hq & Hbelow); [lia | lia | lia | lia |].
  rewrite Hq. cbn [mbind option_bind].
  assert (Hk : 1 * 100 < 2 ^ 53) by lia.
  pose proof (mul_int_below 1 q 100 Hbelow ltac:(lia) ltac:(lia) Hk) as Hmul.
  assert (H100 : 0 ≤ 1 * 100) by lia.
  destruct (int_below _ _ H100 Hmul) as (n & Hn & _). eauto.
Qed.

Lemma pacing_total nodes full_text : is_Some (_analyze_pacing nodes full_text).
Proof.
  unfold _analyze_pacing.
  set (action := count_keywords _ (Py.lower full_text)).
  set (dialogue := Py.count double_quote full_text + Py.count single_quote full_text).
  set (description := count_keywords (keywords_of pacing_indicators "description") _).
  assert (0 ≤ action) by apply count_keywords_nonneg.
  assert (0 ≤ description) by apply count_keywords_nonneg.
  assert (0 ≤ dialogue).
  { pose proof (count_nonneg double_quote full_text).
    pose proof (count_nonneg single_quote full_text). unfold dialogue. lia. }
  unfold ratio_string_of.
  destruct (Z.ltb_spec 0 (action + dialogue + description)) as [Hpos | Hle];
    [| cbn [mbind option_bind]; eauto].
  destruct (percent_of_total action (action + dialogue + description)) as [a Ha]; [lia | lia |].
  destruct (percent_of_total dialogue (action + dialogue + description)) as [d Hd]; [lia | lia |].
  rewrite Ha. cbn [mbind option_bind]. rewrite Hd. cbn [mbind option_bind]. eauto.
Qed.

Lemma theme_consistency_total nodes full_text :
  Z.of_nat (String.length full_text) < 2 ^ 40 →
  is_Some (_analyze_theme_consistency nodes full_text).
Proof.
  intros Hlen. unfold _analyze_theme_consistency, core_theme_and_score.
  destruct (Py.max (map snd (theme_scores full_text))) as [top |];
    [| cbn [mbind option_bind]; eauto].
  destruct (0 <? top); [| cbn [mbind option_bind]; eauto].
  destruct (max_by_is_Some
              (fun theme => default 0 (Py.dict_get (theme_scores full_text) theme))
              (map fst (theme_scores full_text))) as [core Hcore].
  { unfold theme_scores.
    rewrite (fst_fmap (fun keywords => count_keywords keywords (Py.lower full_text))).
    discriminate. }
  rewrite Hcore. cbn [mbind option_bind].
  apply max_by_spec in Hcore as (l1 & l2 & Hkeys & _).
  destruct (dict_get_key (theme_scores full_text) core) as (strength & Hs & _).
  { rewrite Hkeys. apply elem_of_app. right. left. }
  rewrite Hs. cbn [mbind option_bind].
  destruct (consistency_of_total strength (word_count full_text)) as [score Hscore].
  { split; [eapply theme_score_nonneg, Hs |].
    unfold theme_scores in Hs.
    rewrite (dict_get_fmap (fun keywords => count_keywords keywords (Py.lower full_text))) in Hs.
    destruct (Py.dict_get theme_keywords core) as [keywords |] eqn:Hk; [| discriminate].
    injection Hs as <-.
    pose proof (count_keywords_le keywords (Py.lower full_text)) as Hle.
    rewrite length_lower in Hle.
    assert (Hfive : (length keywords ≤ 5)%nat).
    { clear -Hk. unfold theme_keywords in Hk. simpl in Hk.
      repeat (destruct (bool_decide _); [injection Hk as <-; simpl; lia |]). discriminate. }
    assert (H40 : 2 ^ 40 = 1099511627776) by reflexivity.
    assert (H43 : 2 ^ 43 = 8796093022208) by reflexivity. nia. }
  rewrite Hscore. cbn [mbind option_bind]. eauto.
Qed.

(** Two scenes with text are joined by one space, in the order of their
    creation, with nothing else between them. *)
Lemma extract_story_text_two (a b : StoryNode) :
  created_at a ≤ created_at b →
  Py.strip (Py.sub_tags (content a)) ≠ "" →
  Py.strip (Py.sub_tags (content b)) ≠ "" →
  _extract_story_text [a; b]
  = Py.strip (Py.sub_tags (content a)) +:+ " " +:+ Py.strip (Py.sub_tags (content b)).
Proof.
  intros Hab Ha Hb. unfold _extract_story_text, sorted_nodes.
  change (Py.sorted created_at [a; b])
    with (if created_at a <=? created_at b then [a; b] else [b; a]).
  replace (created_at a <=? created_at b) with true by (symmetry; apply Z.leb_le; exact Hab).
  cbn [foldl].
  destruct (Py.strip (Py.sub_tags (content a))) as [| ca sa]; [congruence |].
  destruct (Py.strip (Py.sub_tags (content b))) as [| cb sb]; [congruence |].
  reflexivity.
Qed.

End AnalyzerFacts.

(** ** The properties of the specification *)

Section Claims.
Import AnalysisService Notions.
Local Open Scope Z_scope.

#[local] Arguments Py.count : simpl never.
#[local] Arguments Py.contains : simpl never.

(** The analysis returns a profile for every request whose story text
    is shorter than 2^40 characters. *)
Theorem analyze_story_returns (now : Z) (request : AnalysisRequest) :
  Z.of_nat (String.length (_extract_story_text (nodes request))) < 2 ^ 40 →
  ∃ p, analyze_story now request = Some p.
Proof.
  intros Hlen. unfold analyze_story.
  destruct (emotional_arc_total (nodes request) (_extract_story_text (nodes request)))
    as [arc ->].
  destruct (theme_consistency_total (nodes request) _ Hlen) as [tc ->].
  destruct (pacing_total (nodes request) (_extract_story_text (nodes request))) as [pa ->].
  cbn [mbind option_bind]. eauto.
Qed.

(** C1, as worded, fails: the profile carries the reading of the clock, so
    two calls on the same (here empty) request made at different instants
    return profiles that differ. *)
Lemma timestamps_of_two_calls_differ :
  analyze_story 0 Samples.empty_request ≠ analyze_story 1 Samples.empty_request.
Proof. vm_compute. discriminate. Qed.

(** C2, as worded, fails: on zero scenes no profile has the core theme
    spelled ["No clear theme"] together with the other claimed fields. *)
Lemma empty_input_reports_title_cased_marker :
  ¬ (∃ p, analyze_story 0 Samples.empty_request = Some p ∧
          peak_moment (emotional_arc p) = "No peak identified" ∧
          tension_score (emotional_arc p) = 0%Z ∧
          core_theme (theme_consistency p) = Spec.no_clear_theme ∧
          consistency_score (theme_consistency p) = 0%Z ∧
          action_vs_dialogue_ratio (pacing_analysis p) = "50/50" ∧
          length (comparative_insights p) = 1%nat).
Proof.
  intros (p & Hp & _ & _ & Hcore & _).
  vm_compute in Hp. injection Hp as <-. vm_compute in Hcore. discriminate Hcore.
Qed.

(** C2 (amended). Empty input: with zero scenes the analysis returns a
    profile with peak moment ["No peak identified"], overall tension 0,
    core theme ["No Clear Theme"] (the marker, title-cased), consistency
    score 0, ratio ["50/50"] and the fallback insight as only insight. *)
Theorem empty_input_profile (now : Z) (project : StoryProject) :
  ∃ p, analyze_story now {| nodes := []; project_info := project |} = Some p ∧
       peak_moment (emotional_arc p) = "No peak identified" ∧
       tension_score (emotional_arc p) = 0%Z ∧
       core_theme (theme_consistency p) = "No Clear Theme" ∧
       core_theme (theme_consistency p) = Py.title Spec.no_clear_theme ∧
       consistency_score (theme_consistency p) = 0%Z ∧
       action_vs_dialogue_ratio (pacing_analysis p) = "50/50" ∧
       comparative_insights p = [insight_fallback].
Proof. eexists. split; [reflexivity |]. vm_compute. repeat split. Qed.

(** C3. Range invariants: in every returned profile the overall and the
    per-scene tension scores and the consistency score lie in [0,100],
    every arc strength and every edge strength in [0,10], and the pacing
    score in [10,100]. *)
Theorem range_invariants (now : Z) (request : AnalysisRequest) (p : NarrativeDNA) :
  analyze_story now request = Some p →
  0 ≤ tension_score (emotional_arc p) ≤ 100 ∧
  Forall (fun point => 0 ≤ point_tension point ≤ 100)
         (emotional_points (emotional_arc p)) ∧
  0 ≤ consistency_score (theme_consistency p) ≤ 100 ∧
  Forall (fun arc => 0 ≤ arc_strength arc ≤ 10)
         (character_arcs (character_development p)) ∧
  map_Forall (fun _ edge => 0 ≤ edge_strength edge ≤ 10)
             (relationship_matrix (character_development p)) ∧
  10 ≤ pacing_score (pacing_analysis p) ≤ 100.
Proof.
  unfold analyze_story.
  set (full_text := _extract_story_text (nodes request)).
  destruct (_analyze_emotional_arc (nodes request) full_text) as [arc |] eqn:Harc;
    [| discriminate].
  cbn [mbind option_bind].
  destruct (_analyze_theme_consistency (nodes request) full_text) as [tc |] eqn:Htc;
    [| discriminate].
  cbn [mbind option_bind].
  destruct (_analyze_pacing (nodes request) full_text) as [pa |] eqn:Hpa; [| discriminate].
  cbn [mbind option_bind]. intros [= <-].
  cbn [emotional_arc theme_consistency character_development pacing_analysis].
  destruct (emotional_arc_range _ _ _ Harc) as [Ht Hp].
  split; [exact Ht |]. split; [exact Hp |]. split; [| split; [| split]].
  - unfold _analyze_theme_consistency in Htc.
    destruct (core_theme_and_score full_text) as [[core score] |] eqn:Hcs; [| discriminate].
    cbn [mbind option_bind] in Htc. injection Htc as <-. cbn [consistency_score].
    eapply core_theme_and_score_range, Hcs.
  - unfold _analyze_character_development. cbn [character_arcs].
    apply Forall_forall. intros arc' Harc'.
    apply elem_of_map in Harc' as (char & -> & _). cbn [arc_strength].
    apply character_arc_range.
  - unfold _analyze_character_development. cbn [relationship_matrix].
    eapply map_Forall_impl; [apply relationship_matrix_range |].
    cbv beta. intros key edge Hedge. lia.
  - unfold _analyze_pacing in Hpa. cbv zeta in Hpa.
    destruct (ratio_string_of _ _ _) as [ratio |]; [| discriminate].
    cbn [mbind option_bind] in Hpa. injection Hpa as <-. cbn [pacing_score]. lia.
Qed.

(** C3 at the request [Samples.mixed_request]. *)
Lemma range_invariants_witness :
  ∃ p, analyze_story 7 Samples.mixed_request = Some p ∧
       0 ≤ tension_score (emotional_arc p) ≤ 100 ∧
       Forall (fun point => 0 ≤ point_tension point ≤ 100)
              (emotional_points (emotional_arc p)) ∧
       0 ≤ consistency_score (theme_consistency p) ≤ 100 ∧
       Forall (fun arc => 0 ≤ arc_strength arc ≤ 10)
              (character_arcs (character_development p)) ∧
       map_Forall (fun _ edge => 0 ≤ edge_strength edge ≤ 10)
                  (relationship_matrix (character_development p)) ∧
       10 ≤ pacing_score (pacing_analysis p) ≤ 100.
Proof.
  eexists. split; [vm_compute; reflexivity |].
  apply (range_invariants 7 Samples.mixed_request). vm_compute. reflexivity.
Defined.

(** C4. Tension scoring: a scene whose lowercased, tag-free text counts
    "danger" twice, contains "revelation" and counts no other tension
    keyword has tension score 10 × 2 + 30 = 50. *)
Theorem tension_danger_twice_revelation (i : Z) (node : StoryNode) :
  let clean_text := Py.lower (Py.sub_tags (content node)) in
  Py.count "danger" clean_text = 2%Z →
  Py.contains "revelation" clean_text = true →
  Py.count "conflict" clean_text = 0%Z →
  Py.count "tension" clean_text = 0%Z →
  Py.count "threat" clean_text = 0%Z →
  Py.count "fear" clean_text = 0%Z →
  Py.count "suspense" clean_text = 0%Z →
  Py.count "crisis" clean_text = 0%Z →
  point_tension (emotional_point i node) = (10 * 2 + 30)%Z.
Proof.
  intros clean_text Hd Hr H1 H2 H3 H4 H5 H6.
  unfold emotional_point. fold clean_text. simpl point_tension.
  unfold scene_tension, keywords_of, any_in. simpl.
  rewrite Hd, Hr, H1, H2, H3, H4, H5, H6.
  rewrite !orb_true_r. reflexivity.
Qed.

(** C4 at the scene [Samples.danger_scene]. *)
Lemma tension_danger_twice_revelation_witness :
  point_tension (emotional_point 0 Samples.danger_scene) = 50%Z.
Proof.
  apply (tension_danger_twice_revelation 0 Samples.danger_scene); reflexivity.
Defined.







(** C8, as worded, fails: when no rule matches, the only insight is not
    the string with the dash U+2014 that the claim quotes. *)
Lemma fallback_insight_is_spelled_with_a_hyphen :
  rule_christie [] "" = false ∧ rule_thrones [] "" = false ∧ rule_austen [] "" = false ∧
  _generate_comparative_insights [] "" ≠ [Spec.fallback_insight].
Proof. vm_compute. repeat split. discriminate. Qed.

(** C8 (amended). Insights: the insights are those of the matching rules
    in the order of their declaration, or the fallback string alone (spelled
    with a hyphen) when no rule matches; they are never empty. *)
Theorem insights_fallback_and_order (nodes : list StoryNode) (full_text : string) :
  let matched :=
    ((if rule_christie nodes full_text then [insight_christie] else []) ++
     (if rule_thrones nodes full_text then [insight_thrones] else []) ++
     (if rule_austen nodes full_text then [insight_austen] else []))%list in
  _generate_comparative_insights nodes full_text
    = match matched with [] => [insight_fallback] | _ => matched end ∧
  _generate_comparative_insights nodes full_text ≠ [] ∧
  insight_fallback = "Unique narrative structure - forge your own path!".
Proof.
  unfold _generate_comparative_insights.
  destruct (rule_christie nodes full_text), (rule_thrones nodes full_text),
    (rule_austen nodes full_text); simpl; repeat split; discriminate.
Qed.

(** C9. Substring matching: some text has no emotion keyword among its
    words, yet counts "mad" (inside "made") for anger and is tagged anger,
    not neutral; likewise "was" inside "washed" counts as description and
    "lie" inside "believe" counts for the theme betrayal. *)
Theorem substring_matching_ignores_word_boundaries :
  (∃ text,
      forallb (fun keyword => negb (bool_decide (keyword ∈ Py.split text)))
              (concat (map snd emotion_keywords)) = true ∧
      Py.contains "mad" text = true ∧
      count_keywords (keywords_of emotion_keywords "anger") text = 1%Z ∧
      _detect_dominant_emotion text = "anger" ∧
      _detect_dominant_emotion text ≠ "neutral") ∧
  (∃ text,
      negb (bool_decide ("was" ∈ Py.split text)) = true ∧
      count_keywords (keywords_of pacing_indicators "description") (Py.lower text) = 1%Z) ∧
  (∃ text,
      negb (bool_decide ("lie" ∈ Py.split text)) = true ∧
      Py.dict_get (theme_scores text) "betrayal" = Some 1%Z).
Proof.
  split; [| split].
  - exists "she made it". vm_compute. repeat split; congruence.
  - exists "he washed up". vm_compute. split; reflexivity.
  - exists "i believe you". vm_compute. split; reflexivity.
Qed.

(** C10. Sentences span scene boundaries: in the two scenes of the sample
    Alice occurs only behind the last terminator of the first and Bob only
    before the first terminator of the second; the joined text puts them in
    one sentence, so the pair gets the edge "Alice-Bob", while each scene
    alone yields no edge. *)
Theorem sentences_span_scene_boundaries :
  let scenes := [Samples.alice_scene; Samples.bob_scene] in
  let full_text := _extract_story_text scenes in
  Py.re_split_sentences (content Samples.alice_scene)
    = ["Night fell"; " Alice met Alice and Alice"] ∧
  Py.re_split_sentences (content Samples.bob_scene)
    = ["Bob saw Bob and Bob"; " Done"; ""] ∧
  full_text = "Night fell. Alice met Alice and Alice Bob saw Bob and Bob. Done." ∧
  Py.re_split_sentences full_text
    = ["Night fell"; " Alice met Alice and Alice Bob saw Bob and Bob"; " Done"; ""] ∧
  _extract_character_names full_text = ["Alice"; "Bob"] ∧
  co_occurrence "Alice" "Bob" full_text = 1%Z ∧
  relationship_matrix (_analyze_character_development scenes full_text) !! "Alice-Bob"
    = Some {| edge_strength := 1; edge_type := "connected" |} ∧
  relationship_matrix
    (_analyze_character_development [Samples.alice_scene]
       (_extract_story_text [Samples.alice_scene])) = ∅ ∧
  relationship_matrix
    (_analyze_character_development [Samples.bob_scene]
       (_extract_story_text [Samples.bob_scene])) = ∅.
Proof. vm_compute. repeat split. Qed.

End Claims.

(** ** Further properties of the analysis service *)

Section MoreProperties.
Import Py AnalysisService Notions MoreNotions TextNotions.
Local Open Scope Z_scope.

Lemma insert_by_perm {A} (key : A → Z) x l : Py.insert_by key x l ≡ₚ x :: l.
Proof.
  induction l as [| y l IH]; [reflexivity |]. simpl.
  destruct (key x <=? key y); [reflexivity |].
  rewrite IH. apply Permutation_swap.
Qed.

Lemma sorted_perm {A} (key : A → Z) l : Py.sorted key l ≡ₚ l.
Proof.
  induction l as [| x l IH]; [reflexivity |]. simpl.
  rewrite insert_by_perm, IH. reflexivity.
Qed.

Lemma insert_by_ascending {A} (key : A → Z) x l :
  StronglySorted (fun a b => key a ≤ key b) l →
  StronglySorted (fun a b => key a ≤ key b) (Py.insert_by key x l).
Proof.
  induction 1 as [| y l Hl IH Hy]; simpl; [repeat constructor |].
  destruct (Z.leb_spec (key x) (key y)) as [Hle | Hgt].
  - constructor; [constructor; assumption |].
    constructor; [exact Hle |].
    eapply Forall_impl; [exact Hy |]. simpl. intros. lia.
  - constructor; [exact IH |].
    rewrite insert_by_perm. constructor; [lia | exact Hy].
Qed.

Lemma sorted_ascending {A} (key : A → Z) l :
  StronglySorted (fun a b => key a ≤ key b) (Py.sorted key l).
Proof.
  induction l as [| x l IH]; simpl; [constructor | apply insert_by_ascending, IH].
Qed.

(** Two insertions commute when the keys differ. *)
Lemma insert_by_comm {A} (key : A → Z) x y l :
  key x ≠ key y →
  Py.insert_by key x (Py.insert_by key y l) = Py.insert_by key y (Py.insert_by key x l).
Proof.
  intros Hne.
  induction l as [| a l IH]; simpl;
    repeat (match goal with
            | |- context [(?a <=? ?b)] => destruct (Z.leb_spec a b); simpl
            end);
    try lia; try reflexivity.
  rewrite IH. reflexivity.
Qed.

(** With pairwise distinct keys the sorted list does not depend on the
    order of arrival. *)
Lemma sorted_of_permutation {A} (key : A → Z) l1 l2 :
  l1 ≡ₚ l2 → NoDup (map key l1) → Py.sorted key l1 = Py.sorted key l2.
Proof.
  induction 1 as [| x l1 l2 Hp IH | x y l | l1 l2 l3 H12 IH12 H23 IH23]; intros Hnd.
  - reflexivity.
  - simpl in *. apply NoDup_cons in Hnd as [_ Hnd]. rewrite IH by exact Hnd. reflexivity.
  - simpl in *. apply NoDup_cons in Hnd as [Hy _].
    apply insert_by_comm. intros Heq. apply Hy. rewrite Heq. left.
  - rewrite IH12 by exact Hnd. apply IH23.
    pose proof (Permutation_map key H12) as Hp. rewrite <- Hp. exact Hnd.
Qed.

Lemma enumerate_from_lookup {A} start (l : list A) k :
  Py.enumerate_from start l !! k = (fun x => (start + Z.of_nat k, x)) <$> l !! k.
Proof.
  revert start k. induction l as [| x l IH]; intros start k; [destruct k; reflexivity |].
  destruct k as [| k]; simpl.
  - rewrite Z.add_0_r. reflexivity.
  - rewrite IH. destruct (l !! k); simpl; [| reflexivity]. do 2 f_equal. lia.
Qed.

Lemma map_lookup {A B} (f : A → B) l k : map f l !! k = f <$> l !! k.
Proof.
  revert k. induction l as [| x l IH]; intros [| k]; simpl; auto.
Qed.

(** [l.index(x)] is the first position that holds [x]. *)
Lemma index_first x l i :
  Py.index x l = Some i →
  l !! i = Some x ∧ ∀ j y, (j < i)%nat → l !! j = Some y → y ≠ x.
Proof.
  revert i. induction l as [| a l IH]; intros i; [discriminate |]. simpl.
  destruct (Z.eqb_spec a x) as [-> | Hne].
  - intros [= <-]. split; [reflexivity |]. intros j y Hj. lia.
  - destruct (Py.index x l) as [i' |]; [| discriminate]. simpl. intros [= <-].
    destruct (IH i' eq_refl) as [Hi Hbefore]. split; [exact Hi |].
    intros [| j] y Hj Hy; simpl in Hy.
    + injection Hy as <-. exact Hne.
    + apply (Hbefore j y); [lia | exact Hy].
Qed.

Lemma sorted_nodes_length nodes : length (sorted_nodes nodes) = length nodes.
Proof. apply length_sorted. Qed.

(** The points of the arc, one per scene in chronological order. *)
Lemma arc_points nodes full_text arc :
  _analyze_emotional_arc nodes full_text = Some arc →
  emotional_points arc
  = map (fun '(i, node) => emotional_point i node) (Py.enumerate (sorted_nodes nodes)).
Proof.
  unfold _analyze_emotional_arc.
  set (points := map _ (Py.enumerate (sorted_nodes nodes))).
  destruct (map point_tension points) as [| s scores]; [intros [= <-]; reflexivity |].
  destruct (Py.max (s :: scores)) as [top |]; [| discriminate]. cbn [mbind option_bind].
  destruct (Py.index top (s :: scores)) as [idx |]; [| discriminate]. cbn [mbind option_bind].
  destruct (sorted_nodes nodes !! idx) as [peak |]; [| discriminate]. cbn [mbind option_bind].
  destruct (Py.int_mean (s :: scores)) as [r |]; [| discriminate]. cbn [mbind option_bind].
  intros [= <-]. reflexivity.
Qed.

Lemma arc_point_lookup nodes k :
  map (fun '(i, node) => emotional_point i node) (Py.enumerate (sorted_nodes nodes)) !! k
  = emotional_point (Z.of_nat k) <$> sorted_nodes nodes !! k.
Proof.
  rewrite map_lookup. unfold Py.enumerate. rewrite enumerate_from_lookup.
  destruct (sorted_nodes nodes !! k); reflexivity.
Qed.

Lemma arc_tensions nodes :
  map point_tension
      (map (fun '(i, node) => emotional_point i node) (Py.enumerate (sorted_nodes nodes)))
  = map node_tension (sorted_nodes nodes).
Proof.
  apply list_eq. intros k.
  rewrite (map_lookup point_tension), arc_point_lookup, (map_lookup node_tension).
  destruct (sorted_nodes nodes !! k); reflexivity.
Qed.

(** X1. An emotional arc that is returned has one point for every scene, in
    ascending order of [created_at]: the point at place [k] carries the
    scene number [k + 1], the title of that scene and its tension. *)
Theorem emotional_points_in_chronological_order
    (nodes : list StoryNode) (full_text : string) (arc : EmotionalArc) :
  _analyze_emotional_arc nodes full_text = Some arc →
  sorted_nodes nodes ≡ₚ nodes ∧
  StronglySorted (fun a b => created_at a ≤ created_at b) (sorted_nodes nodes) ∧
  length (emotional_points arc) = length nodes ∧
  ∀ k node,
    sorted_nodes nodes !! k = Some node →
    ∃ point,
      emotional_points arc !! k = Some point ∧
      point_scene point = Z.of_nat k + 1 ∧
      point_title point = title node ∧
      point_tension point = node_tension node.
Proof.
  intros Harc.
  split; [apply sorted_perm |]. split; [apply sorted_ascending |].
  rewrite (arc_points _ _ _ Harc). split.
  - unfold Py.enumerate.
    rewrite length_map, length_enumerate_from. apply sorted_nodes_length.
  - intros k node Hk. rewrite arc_point_lookup, Hk. simpl.
    eexists. split; [reflexivity |]. split_and!; reflexivity.
Qed.

(** X1 on the sample story of five scenes. *)
Lemma emotional_points_in_chronological_order_witness :
  let nodes := AnalysisService.nodes Samples.mixed_request in
  ∃ arc,
    _analyze_emotional_arc nodes "" = Some arc ∧
    sorted_nodes nodes ≡ₚ nodes ∧
    StronglySorted (fun a b => created_at a ≤ created_at b) (sorted_nodes nodes) ∧
    length (emotional_points arc) = length nodes ∧
    ∀ k node,
      sorted_nodes nodes !! k = Some node →
      ∃ point,
        emotional_points arc !! k = Some point ∧
        point_scene point = Z.of_nat k + 1 ∧
        point_title point = title node ∧
        point_tension point = node_tension node.
Proof.
  intros nodes. eexists. split; [vm_compute; reflexivity |].
  apply (emotional_points_in_chronological_order nodes "").
  vm_compute. reflexivity.
Defined.

(** X2. With at least one scene, the peak moment is the title of the first
    scene in chronological order whose tension is the highest of all, and
    the overall tension score is not above that tension. *)
Theorem peak_moment_is_first_maximum
    (nodes : list StoryNode) (full_text : string) (arc : EmotionalArc) :
  nodes ≠ [] →
  _analyze_emotional_arc nodes full_text = Some arc →
  ∃ k peak,
    sorted_nodes nodes !! k = Some peak ∧
    peak_moment arc = title peak ∧
    (∀ j node, sorted_nodes nodes !! j = Some node → node_tension node ≤ node_tension peak) ∧
    (∀ j node, (j < k)%nat → sorted_nodes nodes !! j = Some node →
               node_tension node < node_tension peak) ∧
    tension_score arc ≤ node_tension peak.
Proof.
  intros Hne Harc. pose proof Harc as Hdef. unfold _analyze_emotional_arc in Hdef.
  rewrite arc_tensions in Hdef.
  assert (Hrange : Forall (fun x => 0 ≤ x ≤ 100) (map node_tension (sorted_nodes nodes))).
  { apply Forall_forall. intros x Hx. apply elem_of_map in Hx as (node & -> & _).
    apply scene_tension_range. }
  destruct (map node_tension (sorted_nodes nodes)) as [| s scores] eqn:Hscores.
  { exfalso. apply Hne. apply (f_equal length) in Hscores.
    rewrite length_map, sorted_nodes_length in Hscores. destruct nodes; [reflexivity | discriminate]. }
  destruct (Py.max (s :: scores)) as [top |] eqn:Htop; [| discriminate].
  cbn [mbind option_bind] in Hdef.
  destruct (Py.index top (s :: scores)) as [idx |] eqn:Hidx; [| discriminate].
  cbn [mbind option_bind] in Hdef.
  destruct (sorted_nodes nodes !! idx) as [peak |] eqn:Hpeak; [| discriminate].
  cbn [mbind option_bind] in Hdef.
  destruct (Py.int_mean (s :: scores)) as [r |] eqn:Hmean; [| discriminate].
  cbn [mbind option_bind] in Hdef. injection Hdef as <-. cbn [peak_moment tension_score].
  destruct (max_spec _ _ Htop) as [Hin Hmax].
  destruct (index_first _ _ _ Hidx) as [Hat Hbefore].
  rewrite <- Hscores in Hat, Hbefore.
  rewrite map_lookup, Hpeak in Hat. injection Hat as Hat.
  assert (Hle : ∀ j node, sorted_nodes nodes !! j = Some node → node_tension node ≤ top).
  { intros j node Hj. apply Hmax. rewrite <- Hscores. apply elem_of_map.
    exists node. split; [reflexivity |]. apply list_elem_of_lookup. eauto. }
  exists idx, peak. rewrite Hat. split_and!.
  - exact Hpeak.
  - reflexivity.
  - exact Hle.
  - intros j node Hj Hnode. specialize (Hle j node Hnode).
    assert (node_tension node ≠ top); [| lia].
    apply (Hbefore j); [exact Hj |]. rewrite map_lookup, Hnode. reflexivity.
  - unfold Py.int_mean in Hmean.
    assert (Htop0 : 0 ≤ top < 2 ^ 53).
    { rewrite Forall_forall in Hrange. specialize (Hrange top Hin).
      assert (2 ^ 53 = 9007199254740992) by reflexivity. lia. }
    destruct (truediv_below top (Py.sum (s :: scores)) (Z.of_nat (length (s :: scores))))
      as (x & Hx & Hbelow).
    + apply sum_nonneg. eapply Forall_impl; [exact Hrange |]. simpl. lia.
    + simpl. lia.
    + apply sum_le_scaled, Forall_forall. exact Hmax.
    + exact Htop0.
    + rewrite Hx in Hmean. cbn [mbind option_bind] in Hmean.
      destruct (int_below top x ltac:(lia) Hbelow) as (n & Hn & Hle').
      rewrite Hn in Hmean. injection Hmean as <-. lia.
Qed.

(** X3. When the scenes have pairwise distinct timestamps, the profile does
    not depend on the order in which the request lists them, nor on the
    project information. *)
Theorem analysis_ignores_arrival_order
    (now : Z) (nodes1 nodes2 : list StoryNode) (project1 project2 : StoryProject) :
  nodes1 ≡ₚ nodes2 →
  NoDup (map created_at nodes1) →
  analyze_story now {| nodes := nodes1; project_info := project1 |}
  = analyze_story now {| nodes := nodes2; project_info := project2 |}.
Proof.
  intros Hperm Hnd.
  assert (Hs : sorted_nodes nodes1 = sorted_nodes nodes2)
    by (apply sorted_of_permutation; assumption).
  assert (Hl : length nodes1 = length nodes2) by (apply Permutation_length, Hperm).
  unfold analyze_story. cbn [nodes].
  assert (Htext : _extract_story_text nodes1 = _extract_story_text nodes2)
    by (unfold _extract_story_text; rewrite Hs; reflexivity).
  rewrite <- Htext. set (full_text := _extract_story_text nodes1).
  assert (Harc : _analyze_emotional_arc nodes1 full_text
                 = _analyze_emotional_arc nodes2 full_text)
    by (unfold _analyze_emotional_arc; rewrite Hs; reflexivity).
  assert (Htheme : _analyze_theme_consistency nodes1 full_text
                   = _analyze_theme_consistency nodes2 full_text)
    by (unfold _analyze_theme_consistency, theme_mentions_of; rewrite Hs; reflexivity).
  assert (Hpacing : _analyze_pacing nodes1 full_text = _analyze_pacing nodes2 full_text)
    by (unfold _analyze_pacing, slow_sections_of; rewrite Hs; reflexivity).
  assert (Hins : _generate_comparative_insights nodes1 full_text
                 = _generate_comparative_insights nodes2 full_text)
    by (unfold _generate_comparative_insights, rule_christie, rule_thrones, rule_austen;
        rewrite Hl; reflexivity).
  rewrite Harc, Htheme, Hpacing, Hins. reflexivity.
Qed.

(** X3 on two scenes given in either order. *)
Lemma analysis_ignores_arrival_order_witness :
  analyze_story 0 {| nodes := [Samples.alice_scene; Samples.bob_scene];
                     project_info := Samples.project |}
  = analyze_story 0 {| nodes := [Samples.bob_scene; Samples.alice_scene];
                       project_info := Samples.project |}.
Proof.
  apply analysis_ignores_arrival_order.
  - apply perm_swap.
  - apply (bool_decide_unpack _). vm_compute. exact I.
Defined.

(** X2 on the sample story of five scenes. *)
Lemma peak_moment_is_first_maximum_witness :
  ∃ arc k peak,
    _analyze_emotional_arc (nodes Samples.mixed_request) "" = Some arc ∧
    sorted_nodes (nodes Samples.mixed_request) !! k = Some peak ∧
    peak_moment arc = title peak ∧
    tension_score arc ≤ node_tension peak.
Proof.
  eexists.
  destruct (peak_moment_is_first_maximum (nodes Samples.mixed_request) "" _
              ltac:(discriminate) ltac:(vm_compute; reflexivity))
    as (k & peak & H1 & H2 & _ & _ & H5).
  exists k, peak. split; [vm_compute; reflexivity |]. split_and!; assumption.
Defined.

Lemma occurrences_nil w : occurrences w [] = 0.
Proof. reflexivity. Qed.

Lemma occurrences_cons w x words :
  occurrences w (x :: words) = (if bool_decide (x = w) then 1 else 0) + occurrences w words.
Proof.
  unfold occurrences. rewrite filter_cons.
  destruct (decide (x = w)) as [-> | Hne].
  - rewrite bool_decide_eq_true_2 by reflexivity. simpl length. lia.
  - rewrite bool_decide_eq_false_2 by exact Hne. lia.
Qed.

Lemma occurrences_nonneg w words : 0 ≤ occurrences w words.
Proof. unfold occurrences. lia. Qed.

Lemma counter_add_get w c k :
  Py.dict_get (Py.counter_add w c) k
  = if bool_decide (k = w) then Some (default 0 (Py.dict_get c k) + 1) else Py.dict_get c k.
Proof.
  induction c as [| [k' n] c IH]; simpl.
  - destruct (bool_decide_reflect (w = k)) as [-> | Hne].
    + rewrite bool_decide_eq_true_2 by reflexivity. reflexivity.
    + rewrite bool_decide_eq_false_2 by congruence. reflexivity.
  - destruct (bool_decide_reflect (k' = w)) as [-> | Hne]; simpl.
    + destruct (bool_decide_reflect (w = k)) as [-> | Hne'].
      * rewrite bool_decide_eq_true_2 by reflexivity. reflexivity.
      * rewrite bool_decide_eq_false_2 by congruence. reflexivity.
    + destruct (bool_decide_reflect (k' = k)) as [-> | Hne'].
      * rewrite bool_decide_eq_false_2 by congruence. reflexivity.
      * exact IH.
Qed.

(** A counter holds, for each word, the number of its occurrences. *)
Lemma Counter_from_get c words k :
  Py.dict_get (foldl (fun c w => Py.counter_add w c) c words) k
  = if occurrences k words =? 0 then Py.dict_get c k
    else Some (default 0 (Py.dict_get c k) + occurrences k words).
Proof.
  revert c. induction words as [| w words IH]; intros c; [reflexivity |].
  simpl foldl. rewrite IH, counter_add_get, occurrences_cons.
  pose proof (occurrences_nonneg k words) as Hnn.
  destruct (bool_decide_reflect (w = k)) as [-> | Hne].
  - rewrite bool_decide_eq_true_2 by reflexivity. simpl default.
    destruct (Z.eqb_spec (occurrences k words) 0) as [-> | Hz];
      destruct (Z.eqb_spec (1 + occurrences k words) 0); try lia.
    + reflexivity.
    + f_equal. lia.
  - rewrite bool_decide_eq_false_2 by congruence. reflexivity.
Qed.

Lemma Counter_get words k :
  Py.dict_get (Py.Counter words) k
  = if occurrences k words =? 0 then None else Some (occurrences k words).
Proof. unfold Py.Counter. rewrite Counter_from_get. reflexivity. Qed.

Lemma dict_get_elem {V} (d : list (string * V)) k v :
  Py.dict_get d k = Some v → (k, v) ∈ d.
Proof.
  induction d as [| [k' v'] d IH]; [discriminate |]. simpl.
  destruct (bool_decide_reflect (k' = k)) as [-> | Hne].
  - intros [= ->]. left.
  - intros H. right. auto.
Qed.

Lemma elem_dict_get {V} (d : list (string * V)) k v :
  NoDup (map fst d) → (k, v) ∈ d → Py.dict_get d k = Some v.
Proof.
  induction d as [| [k' v'] d IH]; intros Hnd Hin; [inversion Hin |].
  simpl in *. apply NoDup_cons in Hnd as [Hk' Hnd].
  apply elem_of_cons in Hin as [[= -> ->] | Hin].
  - rewrite bool_decide_eq_true_2 by reflexivity. reflexivity.
  - rewrite bool_decide_eq_false_2; [auto |]. intros ->. apply Hk'.
    apply elem_of_map. exists (k, v). auto.
Qed.

Lemma span_lower_all_lower s : all_lower (fst (Py.span_lower s)) = true.
Proof.
  induction s as [| c s IH]; [reflexivity |]. simpl.
  destruct (Py.islower_c c) eqn:Hc; [| reflexivity].
  destruct (Py.span_lower s) as [run rest]. simpl in *. rewrite Hc, IH. reflexivity.
Qed.

Lemma findall_names_from_capitalized skip prev s :
  Forall (fun w => capitalized w = true) (Py.findall_names_from skip prev s).
Proof.
  revert skip prev. induction s as [| c s IH]; intros skip prev; [constructor |].
  simpl. destruct skip as [| k]; [| apply IH].
  pose proof (span_lower_all_lower s) as Hrun.
  destruct (Py.span_lower s) as [run rest]. simpl in Hrun.
  destruct (negb prev && Py.isupper_c c && negb (bool_decide (run = ""))
            && Py.boundary_after rest) eqn:Hm; [| apply IH].
  constructor; [| apply IH].
  apply andb_true_iff in Hm as [Hm _]. apply andb_true_iff in Hm as [Hm Hne].
  apply andb_true_iff in Hm as [_ Hup].
  simpl. rewrite Hup, Hne, Hrun. reflexivity.
Qed.

(** X4. For a text of ASCII characters, the character candidates are the
    first ten entries of a list without
    duplicates that holds exactly the words found by the name pattern which
    occur at least three times, are none of the ten common words and are
    longer than two characters; each is an uppercase letter followed by
    lowercase letters. *)
Theorem candidate_names_spec (text : string) :
  isascii text = true →
  let words := Py.findall_names text in
  ∃ pool,
    _extract_character_names text = take 10 pool ∧
    (length (_extract_character_names text) ≤ 10)%nat ∧
    NoDup pool ∧
    (∀ name, name ∈ pool ↔
             3 ≤ occurrences name words ∧ (name ∉ common_words) ∧
             (2 < String.length name)%nat) ∧
    (∀ name, name ∈ pool → capitalized name = true).
Proof.
  intros _ words. unfold _extract_character_names. fold words.
  set (f := fun '(name, count) =>
              if (3 <=? count) && negb (bool_decide (name ∈ common_words))
                 && (2 <? String.length name)%nat
              then Some name else None).
  destruct (Counter_from_keys [] words) as [Hnd Hsub]; [constructor |].
  fold (Py.Counter words) in Hnd, Hsub.
  destruct (omap_keys f (Py.Counter words)) as [H1 H2].
  { intros k v name. unfold f. destruct (_ && _); [congruence | discriminate]. }
  { exact Hnd. }
  exists (omap f (Py.Counter words)). split_and!.
  - reflexivity.
  - rewrite length_take. lia.
  - exact H1.
  - intros name. rewrite list_elem_of_omap. split.
    + intros ([k n] & Hin & Hf). unfold f in Hf.
      destruct ((3 <=? n) && negb (bool_decide (k ∈ common_words))
                && (2 <? String.length k)%nat) eqn:Hc; [| discriminate].
      injection Hf as ->.
      apply andb_true_iff in Hc as [Hc Hlen]. apply andb_true_iff in Hc as [Hn Hcommon].
      apply Z.leb_le in Hn. apply Nat.ltb_lt in Hlen.
      apply negb_true_iff, bool_decide_eq_false in Hcommon.
      apply (elem_dict_get _ _ _ Hnd) in Hin. rewrite Counter_get in Hin.
      destruct (occurrences name words =? 0); [discriminate |]. injection Hin as ->.
      auto.
    + intros (Hocc & Hcommon & Hlen).
      exists (name, occurrences name words). split.
      * apply dict_get_elem. rewrite Counter_get.
        destruct (Z.eqb_spec (occurrences name words) 0); [lia | reflexivity].
      * unfold f.
        replace (3 <=? occurrences name words) with true by (symmetry; apply Z.leb_le; exact Hocc).
        rewrite bool_decide_eq_false_2 by exact Hcommon.
        replace (2 <? String.length name)%nat with true
          by (symmetry; apply Nat.ltb_lt; exact Hlen).
        reflexivity.
  - intros name Hname. apply H2, Hsub in Hname as [Hname | Hname]; [inversion Hname |].
    pose proof (findall_names_from_capitalized 0 false text) as Hall.
    rewrite Forall_forall in Hall. apply Hall, Hname.
Qed.

(** X4 on the text of the sample story of five scenes. *)
Lemma candidate_names_spec_witness :
  let text := _extract_story_text (nodes Samples.mixed_request) in
  isascii text = true ∧
  let words := Py.findall_names text in
  ∃ pool,
    _extract_character_names text = take 10 pool ∧
    (length (_extract_character_names text) ≤ 10)%nat ∧
    NoDup pool ∧
    (∀ name, name ∈ pool ↔
             3 ≤ occurrences name words ∧ (name ∉ common_words) ∧
             (2 < String.length name)%nat) ∧
    (∀ name, name ∈ pool → capitalized name = true).
Proof.
  intros text. split; [vm_compute; reflexivity |].
  apply (candidate_names_spec text). vm_compute. reflexivity.
Defined.

Lemma span_lower_app s : s = fst (Py.span_lower s) +:+ snd (Py.span_lower s).
Proof.
  induction s as [| c s IH]; [reflexivity |]. simpl.
  destruct (Py.islower_c c); [| reflexivity].
  destruct (Py.span_lower s) as [run rest]. simpl in *.
  rewrite append_cons. f_equal. exact IH.
Qed.

Lemma startswith_lower sub s :
  Py.startswith sub s = true → Py.startswith (Py.lower sub) (Py.lower s) = true.
Proof.
  revert s. induction sub as [| a sub IH]; intros [| b s]; simpl; try (auto; discriminate).
  intros H. apply andb_true_iff in H as [Hab H]. apply bool_decide_eq_true in Hab as ->.
  rewrite bool_decide_eq_true_2 by reflexivity. simpl. auto.
Qed.

Lemma count_from_cons sub c s :
  Py.count_from sub 0 (String c s)
  = if Py.startswith sub (String c s)
    then S (Py.count_from sub (String.length sub - 1) s)
    else Py.count_from sub 0 s.
Proof. reflexivity. Qed.

Lemma count_from_skip sub k c s :
  Py.count_from sub (S k) (String c s) = Py.count_from sub k s.
Proof. reflexivity. Qed.

Lemma findall_names_from_skip k prev c s :
  Py.findall_names_from (S k) prev (String c s) = Py.findall_names_from k true s.
Proof. reflexivity. Qed.

(** Counting a name in the lowercased text finds at least the words that
    the name pattern matched: [k] and [k'] are the characters that the
    count and the pattern scan still skip. *)
Lemma count_from_covers_names name s :
  name ≠ "" →
  ∀ k k' prev,
    (k ≤ String.length name - 1)%nat →
    ((k ≤ k')%nat →
     occurrences name (Py.findall_names_from k' prev s)
     ≤ Z.of_nat (Py.count_from (Py.lower name) k (Py.lower s))) ∧
    occurrences name (Py.findall_names_from k' prev s)
    ≤ Z.of_nat (Py.count_from (Py.lower name) k (Py.lower s)) + 1.
Proof.
  intros Hname. induction s as [| c s IH]; intros k k' prev Hk.
  - simpl. rewrite occurrences_nil. lia.
  - assert (Hlen : String.length (Py.lower name) = String.length name) by apply length_lower.
    assert (Hstep : ∀ a b pr, (a ≤ String.length name - 1)%nat →
              ((a ≤ b)%nat →
               occurrences name (Py.findall_names_from b pr s)
               ≤ Z.of_nat (Py.count_from (Py.lower name) a (Py.lower s))) ∧
              occurrences name (Py.findall_names_from b pr s)
              ≤ Z.of_nat (Py.count_from (Py.lower name) a (Py.lower s)) + 1)
      by exact IH.
    change (Py.lower (String c s)) with (String (Py.lower_c c) (Py.lower s)).
    destruct k' as [| k'].
    + (* the pattern scan is at a position where a word may start *)
      change (Py.findall_names_from 0 prev (String c s))
        with (let '(run, rest) := Py.span_lower s in
              if negb prev && Py.isupper_c c && negb (bool_decide (run = ""))
                 && Py.boundary_after rest
              then String c run :: Py.findall_names_from (String.length run) true s
              else Py.findall_names_from 0 (Py.isword_c c) s).
      pose proof (span_lower_app s) as Happ.
      destruct (Py.span_lower s) as [run rest]. simpl fst in Happ. simpl snd in Happ.
      destruct (negb prev && Py.isupper_c c && negb (bool_decide (run = ""))
                && Py.boundary_after rest).
      * rewrite occurrences_cons.
        destruct (bool_decide_reflect (String c run = name)) as [<- | Hne].
        -- (* the word is the name: the count has it here or is inside a match *)
           assert (HL : (String.length (String c run) - 1 = String.length run)%nat)
             by (simpl; lia).
           rewrite HL in Hk, Hstep.
           destruct k as [| k].
           ++ rewrite count_from_cons.
              replace (Py.startswith (Py.lower (String c run)) (String (Py.lower_c c) (Py.lower s)))
                with true.
              ** rewrite Hlen, HL.
                 destruct (Hstep (String.length run) (String.length run) true ltac:(lia))
                   as [H1 _].
                 specialize (H1 ltac:(lia)). split; intros; lia.
              ** symmetry. apply (startswith_lower (String c run) (String c s)).
                 simpl. rewrite bool_decide_eq_true_2 by reflexivity. simpl.
                 rewrite Happ at 1. apply startswith_app.
           ++ rewrite count_from_skip.
              destruct (Hstep k (String.length run) true ltac:(lia)) as [H1 _].
              specialize (H1 ltac:(lia)). split; intros; lia.
        -- (* another word *)
           destruct k as [| k].
           ++ rewrite count_from_cons.
              destruct (Py.startswith _ _).
              ** destruct (Hstep (String.length (Py.lower name) - 1)%nat
                                 (String.length run) true ltac:(lia)) as [_ H2].
                 split; intros; lia.
              ** destruct (Hstep 0%nat (String.length run) true ltac:(lia)) as [H1 _].
                 specialize (H1 ltac:(lia)). split; intros; lia.
           ++ rewrite count_from_skip.
              destruct (Hstep k (String.length run) true ltac:(lia)) as [H1 H2].
              split; [intros; lia |].
              destruct (le_gt_dec k (String.length run)); [specialize (H1 ltac:(lia)) |]; lia.
      * (* no word starts here *)
        destruct k as [| k].
        -- rewrite count_from_cons.
           destruct (Py.startswith _ _).
           ++ destruct (Hstep (String.length (Py.lower name) - 1)%nat 0%nat
                              (Py.isword_c c) ltac:(lia)) as [_ H2].
              split; intros; lia.
           ++ destruct (Hstep 0%nat 0%nat (Py.isword_c c) ltac:(lia)) as [H1 _].
              specialize (H1 ltac:(lia)). split; intros; lia.
        -- rewrite count_from_skip.
           destruct (Hstep k 0%nat (Py.isword_c c) ltac:(lia)) as [H1 H2].
           split; [intros; lia |].
           destruct k; [specialize (H1 ltac:(lia)) |]; lia.
    + (* the pattern scan is inside a matched word *)
      rewrite findall_names_from_skip.
      destruct k as [| k].
      * rewrite count_from_cons.
        destruct (Py.startswith _ _).
        -- destruct (Hstep (String.length (Py.lower name) - 1)%nat k' true ltac:(lia))
             as [_ H2].
           split; intros; lia.
        -- destruct (Hstep 0%nat k' true ltac:(lia)) as [H1 _].
           specialize (H1 ltac:(lia)). split; intros; lia.
      * rewrite count_from_skip.
        destruct (Hstep k k' true ltac:(lia)) as [H1 H2].
        split; [intros; specialize (H1 ltac:(lia)); lia |].
        destruct (le_gt_dec k k'); [specialize (H1 ltac:(lia)) |]; lia.
Qed.

(** A name is mentioned at least as often as it was matched as a word. *)
Lemma mentions_cover_occurrences name text :
  name ≠ "" →
  occurrences name (Py.findall_names text)
  ≤ Py.count (Py.lower name) (Py.lower text).
Proof.
  intros Hname.
  destruct (count_from_covers_names name text Hname 0%nat 0%nat false ltac:(lia)) as [H _].
  specialize (H ltac:(lia)). unfold Py.findall_names, Py.count.
  destruct name as [| c name]; [congruence |]. exact H.
Qed.

(** A candidate was matched as a word at least three times. *)
Lemma candidate_occurrences text name :
  name ∈ _extract_character_names text →
  3 ≤ occurrences name (Py.findall_names text) ∧ name ≠ "".
Proof.
  unfold _extract_character_names. intros Hname. apply subseteq_take in Hname.
  apply list_elem_of_omap in Hname as ([k n] & Hin & Hf).
  destruct ((3 <=? n) && negb (bool_decide (k ∈ common_words))
            && (2 <? String.length k)%nat) eqn:Hc; [| discriminate].
  injection Hf as ->.
  apply andb_true_iff in Hc as [Hc Hlen]. apply andb_true_iff in Hc as [Hn _].
  apply Z.leb_le in Hn. apply Nat.ltb_lt in Hlen.
  destruct (Counter_from_keys [] (Py.findall_names text)) as [Hnd _]; [constructor |].
  fold (Py.Counter (Py.findall_names text)) in Hnd.
  apply (elem_dict_get _ _ _ Hnd) in Hin. rewrite Counter_get in Hin.
  destruct (occurrences name (Py.findall_names text) =? 0); [discriminate |].
  injection Hin as ->. split; [exact Hn |]. intros ->. simpl in Hlen. lia.
Qed.

(** X5. For a text of ASCII characters, the character arcs are those of the
    first five candidates, in their
    order; the mentions reported for a name are at least the number of
    times the pattern found it, hence at least three. *)
Theorem character_arcs_of_first_candidates (nodes : list StoryNode) (full_text : string) :
  isascii full_text = true →
  let development := _analyze_character_development nodes full_text in
  map arc_name (character_arcs development) = take 5 (_extract_character_names full_text) ∧
  (length (character_arcs development) ≤ 5)%nat ∧
  Forall (fun arc =>
            occurrences (arc_name arc) (Py.findall_names full_text) ≤ arc_mentions arc ∧
            3 ≤ arc_mentions arc)
         (character_arcs development).
Proof.
  intros _. unfold _analyze_character_development. cbn [character_arcs]. split_and!.
  - rewrite map_map. cbn [arc_name]. apply map_id.
  - rewrite length_map, length_take. lia.
  - apply Forall_forall. intros arc Harc.
    apply elem_of_map in Harc as (name & -> & Hname). cbn [arc_name arc_mentions].
    apply subseteq_take in Hname.
    destruct (candidate_occurrences _ _ Hname) as [Hocc Hne].
    pose proof (mentions_cover_occurrences name full_text Hne). lia.
Qed.

(** X5 on the sample story of five scenes. *)
Lemma character_arcs_of_first_candidates_witness :
  let nodes := AnalysisService.nodes Samples.mixed_request in
  let full_text := _extract_story_text nodes in
  isascii full_text = true ∧
  let development := _analyze_character_development nodes full_text in
  map arc_name (character_arcs development) = take 5 (_extract_character_names full_text) ∧
  (length (character_arcs development) ≤ 5)%nat ∧
  Forall (fun arc =>
            occurrences (arc_name arc) (Py.findall_names full_text) ≤ arc_mentions arc ∧
            3 ≤ arc_mentions arc)
         (character_arcs development).
Proof.
  intros nodes full_text. split; [vm_compute; reflexivity |].
  apply (character_arcs_of_first_candidates nodes full_text). vm_compute. reflexivity.
Defined.

Lemma co_occurrence_sym char1 char2 text :
  co_occurrence char1 char2 text = co_occurrence char2 char1 text.
Proof.
  unfold co_occurrence. do 2 f_equal.
  apply list_filter_iff. intros sentence. tauto.
Qed.

(** X6. For a text of ASCII characters: of two candidates the relationship
    matrix holds no key that names
    the later one first, and the number of sentences shared by two names
    does not depend on their order. *)
Theorem relationship_edges_are_unordered (nodes : list StoryNode) (full_text : string) :
  isascii full_text = true →
  let candidates := _extract_character_names full_text in
  let matrix := relationship_matrix (_analyze_character_development nodes full_text) in
  ∀ i j char1 char2,
    (i < j)%nat →
    candidates !! i = Some char1 → candidates !! j = Some char2 →
    matrix !! pair_key char2 char1 = None ∧
    co_occurrence char1 char2 full_text = co_occurrence char2 char1 full_text.
Proof.
  intros _ candidates matrix i j c1 c2 Hij Hc1 Hc2.
  split; [| apply co_occurrence_sym].
  assert (Hmatrix : matrix = foldl (fun m '(char1, char2) => record_pair full_text char1 m char2)
                                   ∅ (candidate_pairs candidates))
    by apply build_relationship_matrix_pairs.
  destruct (character_names_spec full_text) as [Hnd Halpha]. fold candidates in Hnd, Halpha.
  rewrite Hmatrix. apply fold_pairs_lookup_None; [apply lookup_empty |].
  intros a b Hab Hkey. exfalso.
  apply candidate_pairs_spec in Hab as (i' & j' & _ & [Hij' _] & Ha & Hb).
  apply pair_key_inj in Hkey as [-> ->].
  - pose proof (NoDup_lookup _ _ _ _ Hnd Ha Hc2).
    pose proof (NoDup_lookup _ _ _ _ Hnd Hb Hc1). lia.
  - apply Halpha, list_elem_of_lookup. eauto.
  - apply Halpha, list_elem_of_lookup. eauto.
Qed.

(** X6 on the sample story of five scenes. *)
Lemma relationship_edges_are_unordered_witness :
  relationship_matrix
    (_analyze_character_development (nodes Samples.mixed_request)
       (_extract_story_text (nodes Samples.mixed_request))) !! pair_key "Bob" "Alice" = None ∧
  co_occurrence "Alice" "Bob" (_extract_story_text (nodes Samples.mixed_request))
  = co_occurrence "Bob" "Alice" (_extract_story_text (nodes Samples.mixed_request)).
Proof.
  apply (relationship_edges_are_unordered (nodes Samples.mixed_request)
           (_extract_story_text (nodes Samples.mixed_request))
           ltac:(vm_compute; reflexivity) 0%nat 1%nat "Alice" "Bob").
  - lia.
  - vm_compute. reflexivity.
  - vm_compute. reflexivity.
Defined.

Lemma theme_scores_keys full_text : map fst (theme_scores full_text) = map fst theme_keywords.
Proof.
  unfold theme_scores.
  apply (fst_fmap (fun keywords => count_keywords keywords (Py.lower full_text))).
Qed.

Lemma theme_scores_nonneg full_text score :
  score ∈ map snd (theme_scores full_text) → 0 ≤ score.
Proof. apply table_count_values. Qed.

(** What [core_theme_and_score] returns: the marker with score 0 when no
    theme keyword occurs, one of the seven themes otherwise. *)
Lemma core_theme_cases full_text core score :
  core_theme_and_score full_text = Some (core, score) →
  (core = "No clear theme" ∧ score = 0 ∧
   ∀ s, s ∈ map snd (theme_scores full_text) → s = 0)
  ∨
  (core ∈ map fst theme_keywords ∧
   ∃ top, Py.dict_get (theme_scores full_text) core = Some top ∧ 0 < top).
Proof.
  unfold core_theme_and_score.
  destruct (Py.max (map snd (theme_scores full_text))) as [top |] eqn:Hmax.
  - destruct (Z.ltb_spec 0 top) as [Hpos | Hle].
    + destruct (Py.max_by _ _) as [c |] eqn:Hc; [| discriminate].
      cbn [mbind option_bind].
      assert (Hget : Py.dict_get (theme_scores full_text) c = Some top).
      { apply dict_argmax_value; [| exact Hmax | exact Hc].
        rewrite theme_scores_keys. exact theme_keys_nodup. }
      rewrite Hget. cbn [mbind option_bind].
      destruct (consistency_of top (word_count full_text)); [| discriminate].
      cbn [mbind option_bind]. intros [= <- <-]. right. split; [| eauto].
      apply max_by_spec in Hc as (l1 & l2 & Hkeys & _).
      rewrite <- (theme_scores_keys full_text), Hkeys. apply elem_of_app. right. left.
    + intros [= <- <-]. left. split_and!; [reflexivity .. |].
      intros s Hs. destruct (max_spec _ _ Hmax) as [_ Hall].
      specialize (Hall s Hs). pose proof (theme_scores_nonneg _ _ Hs). lia.
  - exfalso. unfold theme_scores in Hmax. simpl in Hmax. discriminate.
Qed.

Lemma theme_titles :
  Forall (fun core =>
            Py.title core ∈ ["Love"; "Betrayal"; "Redemption"; "Power"; "Identity";
                             "Freedom"; "Justice"; "No Clear Theme"] ∧
            Py.title core ≠ "No Clear Theme")
         (map fst theme_keywords).
Proof. apply (bool_decide_unpack _). vm_compute. exact I. Qed.

(** X7. The core theme is one of seven title-cased themes or
    [No Clear Theme]; it is the latter exactly when no theme keyword occurs
    in the text, and then the consistency score is 0 and no mention is
    listed. *)
Theorem core_theme_is_one_of_eight
    (nodes : list StoryNode) (full_text : string) (tc : ThemeConsistency) :
  _analyze_theme_consistency nodes full_text = Some tc →
  core_theme tc ∈ ["Love"; "Betrayal"; "Redemption"; "Power"; "Identity"; "Freedom";
                   "Justice"; "No Clear Theme"] ∧
  (core_theme tc = "No Clear Theme" ↔
   ∀ score, score ∈ map snd (theme_scores full_text) → score = 0) ∧
  (core_theme tc = "No Clear Theme" →
   consistency_score tc = 0 ∧ theme_mentions tc = []).
Proof.
  unfold _analyze_theme_consistency.
  destruct (core_theme_and_score full_text) as [[core score] |] eqn:Hcs; [| discriminate].
  cbn [mbind option_bind]. intros [= <-]. cbn [core_theme consistency_score theme_mentions].
  apply core_theme_cases in Hcs as [(-> & -> & Hzero) | (Hcore & top & Hget & Hpos)].
  - split_and!.
    + change (Py.title "No clear theme") with "No Clear Theme".
      do 7 right. left.
    + split; [intros _; exact Hzero | intros _; reflexivity].
    + intros _. split; reflexivity.
  - pose proof theme_titles as Htitles. rewrite Forall_forall in Htitles.
    destruct (Htitles core Hcore) as [Hin Hnot].
    split_and!.
    + exact Hin.
    + split; [contradiction |]. intros Hzero. exfalso.
      destruct (dict_get_key (theme_scores full_text) core) as (v & Hv & Hvin).
      { rewrite theme_scores_keys. exact Hcore. }
      rewrite Hget in Hv. injection Hv as <-. specialize (Hzero top Hvin). lia.
    + contradiction.
Qed.

(** Entries selected from an enumeration keep the order of the positions. *)
Lemma omap_enumerate_from_sorted {A B} (f : Z * A → option B) (idx : B → Z) start l :
  (∀ i x y, f (i, x) = Some y → idx y = i + 1) →
  StronglySorted (fun a b => idx a < idx b) (omap f (Py.enumerate_from start l)) ∧
  Forall (fun y => start < idx y) (omap f (Py.enumerate_from start l)).
Proof.
  intros Hf. revert start. induction l as [| x l IH]; intros start; simpl.
  - split; constructor.
  - destruct (IH (start + 1)) as [Hs Hall].
    assert (Hall' : Forall (fun y => start < idx y) (omap f (Py.enumerate_from (start + 1) l))).
    { eapply Forall_impl; [exact Hall |]. simpl. intros. lia. }
    destruct (f (start, x)) as [y |] eqn:Hy; [| split; assumption].
    apply Hf in Hy. split.
    + constructor; [exact Hs |]. eapply Forall_impl; [exact Hall |]. simpl. intros. lia.
    + constructor; [lia | exact Hall'].
Qed.

Lemma omap_enumerate_from_elem {A B} (f : Z * A → option B) start (l : list A) y :
  y ∈ omap f (Py.enumerate_from start l) →
  ∃ k x, l !! k = Some x ∧ f (start + Z.of_nat k, x) = Some y.
Proof.
  intros Hy. apply list_elem_of_omap in Hy as ([i x] & Hin & Hf).
  apply list_elem_of_lookup in Hin as (k & Hk).
  rewrite enumerate_from_lookup in Hk.
  destruct (l !! k) as [x' |] eqn:Hx; [| discriminate]. injection Hk as <- <-.
  exists k, x'. auto.
Qed.

(** X8. The theme mentions are listed by increasing scene number; each has a
    positive count and carries the number and the title of a scene, counted
    in chronological order from 1. *)
Theorem theme_mentions_in_scene_order
    (nodes : list StoryNode) (full_text : string) (tc : ThemeConsistency) :
  _analyze_theme_consistency nodes full_text = Some tc →
  StronglySorted (fun a b => mention_scene a < mention_scene b) (theme_mentions tc) ∧
  ∀ mention,
    mention ∈ theme_mentions tc →
    0 < mention_count mention ∧
    ∃ k node,
      sorted_nodes nodes !! k = Some node ∧
      mention_scene mention = Z.of_nat k + 1 ∧
      mention_title mention = title node.
Proof.
  unfold _analyze_theme_consistency.
  destruct (core_theme_and_score full_text) as [[core score] |]; [| discriminate].
  cbn [mbind option_bind]. intros [= <-]. cbn [theme_mentions].
  unfold theme_mentions_of.
  destruct (bool_decide (core ≠ "No clear theme")).
  - split.
    + apply (omap_enumerate_from_sorted _ mention_scene 0 (sorted_nodes nodes)).
      intros i node y. destruct (0 <? _); [| discriminate]. intros [= <-]. reflexivity.
    + intros mention Hm. unfold Py.enumerate in Hm.
      apply omap_enumerate_from_elem in Hm as (k & node & Hk & Hf).
      destruct (Z.ltb_spec 0 (count_keywords (keywords_of theme_keywords core)
                                (Py.lower (Py.sub_tags (content node)))));
        [| discriminate].
      injection Hf as <-. cbn [mention_count mention_scene mention_title].
      split; [assumption |]. exists k, node. split_and!; [exact Hk | lia | reflexivity].
  - split; [constructor |]. intros mention Hm. inversion Hm.
Qed.

(** X8 on the sample story of five scenes. *)
Lemma theme_mentions_in_scene_order_witness :
  ∃ tc,
    _analyze_theme_consistency (nodes Samples.mixed_request)
      (_extract_story_text (nodes Samples.mixed_request)) = Some tc ∧
    StronglySorted (fun a b => mention_scene a < mention_scene b) (theme_mentions tc) ∧
    ∀ mention,
      mention ∈ theme_mentions tc →
      0 < mention_count mention ∧
      ∃ k node,
        sorted_nodes (nodes Samples.mixed_request) !! k = Some node ∧
        mention_scene mention = Z.of_nat k + 1 ∧
        mention_title mention = title node.
Proof.
  eexists. split; [vm_compute; reflexivity |].
  apply (theme_mentions_in_scene_order (nodes Samples.mixed_request)
           (_extract_story_text (nodes Samples.mixed_request))).
  vm_compute. reflexivity.
Defined.

(** X7 on the sample story of five scenes. *)
Lemma core_theme_is_one_of_eight_witness :
  ∃ tc,
    _analyze_theme_consistency (nodes Samples.mixed_request)
      (_extract_story_text (nodes Samples.mixed_request)) = Some tc ∧
    core_theme tc ∈ ["Love"; "Betrayal"; "Redemption"; "Power"; "Identity"; "Freedom";
                     "Justice"; "No Clear Theme"].
Proof.
  eexists. split; [vm_compute; reflexivity |].
  apply (core_theme_is_one_of_eight (nodes Samples.mixed_request)
           (_extract_story_text (nodes Samples.mixed_request))).
  vm_compute. reflexivity.
Defined.

Lemma rstrip_cons c s :
  Py.rstrip (String c s)
  = match Py.rstrip s with
    | "" => if Py.isspace_c c then "" else String c ""
    | r => String c r
    end.
Proof. reflexivity. Qed.

Lemma rstrip_idem s : Py.rstrip (Py.rstrip s) = Py.rstrip s.
Proof.
  induction s as [| c s IH]; [reflexivity |]. rewrite rstrip_cons.
  destruct (Py.rstrip s) as [| c' r] eqn:Hr.
  - destruct (Py.isspace_c c) eqn:Hc; [reflexivity |].
    rewrite rstrip_cons. simpl. rewrite Hc. reflexivity.
  - rewrite rstrip_cons, IH. reflexivity.
Qed.

Lemma lstrip_head s :
  Py.lstrip s = "" ∨ ∃ c r, Py.lstrip s = String c r ∧ Py.isspace_c c = false.
Proof.
  induction s as [| c s IH]; [left; reflexivity |]. simpl.
  destruct (Py.isspace_c c) eqn:Hc; [exact IH |]. right. eauto.
Qed.

Lemma lstrip_fixed c r : Py.isspace_c c = false → Py.lstrip (String c r) = String c r.
Proof. intros H. simpl. rewrite H. reflexivity. Qed.

(** A stripped text is empty or begins with a character that is no
    whitespace, and stripping it again changes nothing. *)
Lemma strip_cases s :
  Py.strip s = "" ∨
  ∃ c r, Py.strip s = String c r ∧ Py.isspace_c c = false ∧
         Py.rstrip (String c r) = String c r.
Proof.
  unfold Py.strip. destruct (lstrip_head s) as [-> | (c & r & -> & Hc)]; [left; reflexivity |].
  pose proof (rstrip_idem (String c r)) as Hidem.
  rewrite rstrip_cons in *. destruct (Py.rstrip r) as [| c' r'].
  - rewrite Hc in *. right. exists c, "". auto.
  - right. exists c, (String c' r'). auto.
Qed.

Lemma rstrip_app_fixed a b :
  b ≠ "" → Py.rstrip b = b → Py.rstrip (a +:+ b) = a +:+ b.
Proof.
  intros Hne Hb. induction a as [| c a IH]; [rewrite append_nil_l; exact Hb |].
  rewrite append_cons, rstrip_cons, IH.
  destruct (a +:+ b) eqn:Hab; [| reflexivity].
  destruct a; [rewrite append_nil_l in Hab; congruence | rewrite append_cons in Hab; discriminate].
Qed.

Lemma join_cons2 sep p q ps : Py.join sep (p :: q :: ps) = p +:+ sep +:+ Py.join sep (q :: ps).
Proof. reflexivity. Qed.

(** Joining stripped, non-empty parts gives a text without whitespace at
    either end. *)
Lemma join_trimmed parts :
  Forall (fun part => part ≠ "" ∧ trimmed part) parts → trimmed (Py.join " " parts).
Proof.
  unfold trimmed. intros Hall.
  assert (Hgen : parts = [] ∨
            ∃ c r, Py.join " " parts = String c r ∧ Py.isspace_c c = false ∧
                   Py.rstrip (Py.join " " parts) = Py.join " " parts).
  { induction Hall as [| p parts [Hne Hp] Hall IH]; [left; reflexivity |]. right.
    destruct (strip_cases p) as [He | (c & r & Hs & Hc & Hr)]; [congruence |].
    rewrite Hp in Hs. 
    destruct IH as [-> | (c' & r' & Hj & Hc' & Hr')].
    - exists c, r. simpl. rewrite Hs. auto.
    - destruct parts as [| q parts]; [discriminate |].
      rewrite join_cons2. exists c, (r +:+ " " +:+ Py.join " " (q :: parts)).
      split; [rewrite Hs, append_cons; reflexivity |]. split; [exact Hc |].
      apply rstrip_app_fixed.
      + change (" " +:+ Py.join " " (q :: parts))
          with (String " " (Py.join " " (q :: parts))). discriminate.
      + apply rstrip_app_fixed; [rewrite Hj; discriminate | exact Hr']. }
  destruct Hgen as [-> | (c & r & Hj & Hc & Hr)]; [reflexivity |].
  unfold Py.strip. rewrite Hj, (lstrip_fixed c r Hc), <- Hj. exact Hr.
Qed.

Lemma strip_trimmed s : trimmed (Py.strip s).
Proof.
  unfold trimmed. destruct (strip_cases s) as [-> | (c & r & -> & Hc & Hr)]; [reflexivity |].
  unfold Py.strip. rewrite (lstrip_fixed c r Hc). exact Hr.
Qed.

(** The loop of [_extract_story_text] collects the non-empty stripped
    texts. *)
Lemma text_parts_fold (scenes : list StoryNode) (acc : list string) :
  foldl (fun (text_parts : list string) node =>
           let clean_text := Py.sub_tags (content node) in
           match Py.strip clean_text with
           | "" => text_parts
           | stripped => (text_parts ++ [stripped])%list
           end) acc scenes
  = (acc ++ text_parts_of scenes)%list.
Proof.
  revert acc. unfold text_parts_of.
  induction scenes as [| node scenes IH]; intros acc; simpl; [rewrite app_nil_r; reflexivity |].
  rewrite IH, filter_cons.
  destruct (Py.strip (Py.sub_tags (content node))) as [| c r] eqn:Hs.
  - destruct (decide ("" ≠ "")) as [Hne | _]; [exfalso; apply Hne; reflexivity | reflexivity].
  - destruct (decide (String c r ≠ "")) as [_ | Heq]; [| exfalso; apply Heq; discriminate].
    rewrite <- app_assoc. reflexivity.
Qed.

Lemma extract_story_text_parts nodes :
  _extract_story_text nodes = Py.join " " (text_parts_of (sorted_nodes nodes)).
Proof. unfold _extract_story_text. rewrite text_parts_fold. reflexivity. Qed.

(** X9. For scenes of ASCII characters, the story text has no whitespace at
    either end: it is the
    non-empty, stripped, tag-free scene contents in chronological order,
    joined by single spaces. *)
Theorem story_text_is_trimmed (nodes : list StoryNode) :
  ascii_scenes nodes →
  Py.strip (_extract_story_text nodes) = _extract_story_text nodes ∧
  _extract_story_text nodes = Py.join " " (text_parts_of (sorted_nodes nodes)) ∧
  Forall (fun part => part ≠ "" ∧ Py.strip part = part) (text_parts_of (sorted_nodes nodes)).
Proof.
  intros _.
  assert (Hparts : Forall (fun part => part ≠ "" ∧ trimmed part)
                          (text_parts_of (sorted_nodes nodes))).
  { apply Forall_forall. intros part Hpart. unfold text_parts_of in Hpart.
    apply list_elem_of_filter in Hpart as [Hne Hin].
    apply elem_of_map in Hin as (node & -> & _). split; [exact Hne | apply strip_trimmed]. }
  split_and!.
  - rewrite extract_story_text_parts. apply join_trimmed, Hparts.
  - apply extract_story_text_parts.
  - exact Hparts.
Qed.

(** X9 on the sample story of five scenes. *)
Lemma story_text_is_trimmed_witness :
  let nodes := AnalysisService.nodes Samples.mixed_request in
  ascii_scenes nodes ∧
  Py.strip (_extract_story_text nodes) = _extract_story_text nodes ∧
  _extract_story_text nodes = Py.join " " (text_parts_of (sorted_nodes nodes)) ∧
  Forall (fun part => part ≠ "" ∧ Py.strip part = part) (text_parts_of (sorted_nodes nodes)).
Proof.
  intros nodes.
  assert (Hascii : ascii_scenes nodes)
    by (apply (bool_decide_unpack _); vm_compute; exact I).
  split; [exact Hascii |].
  apply (story_text_is_trimmed nodes Hascii).
Defined.

(** Inserting a scene that adds nothing leaves a fold unchanged. *)
Lemma foldl_insert_by_skip {A B} (key : A → Z) (f : B → A → B) x l acc :
  (∀ b, f b x = b) → foldl f acc (Py.insert_by key x l) = foldl f acc l.
Proof.
  intros Hx. revert acc. induction l as [| y l IH]; intros acc; simpl; [apply Hx |].
  destruct (key x <=? key y); simpl; [rewrite Hx; reflexivity | apply IH].
Qed.

(** X10. A scene whose content is blank once its tags are removed adds
    nothing to the story text, yet it still gets a point of an emotional
    arc that is returned. *)
Theorem blank_scene_adds_no_text (node : StoryNode) (nodes : list StoryNode) (full_text : string) :
  Py.strip (Py.sub_tags (content node)) = "" →
  _extract_story_text (node :: nodes) = _extract_story_text nodes ∧
  ∀ arc, _analyze_emotional_arc (node :: nodes) full_text = Some arc →
         length (emotional_points arc) = S (length nodes).
Proof.
  intros Hblank. split.
  - unfold _extract_story_text, sorted_nodes. simpl Py.sorted.
    rewrite foldl_insert_by_skip; [reflexivity |].
    intros parts. cbv zeta. rewrite Hblank. reflexivity.
  - intros arc Harc. rewrite (arc_points _ _ _ Harc).
    unfold Py.enumerate. rewrite length_map, length_enumerate_from, sorted_nodes_length.
    reflexivity.
Qed.

(** X10 on a scene that is blank. *)
Lemma blank_scene_adds_no_text_witness :
  let node := Samples.scene "Pause" " <br/> " 9 in
  let nodes := AnalysisService.nodes Samples.mixed_request in
  _extract_story_text (node :: nodes) = _extract_story_text nodes ∧
  ∀ arc, _analyze_emotional_arc (node :: nodes) "" = Some arc →
         length (emotional_points arc) = S (length nodes).
Proof.
  apply (blank_scene_adds_no_text (Samples.scene "Pause" " <br/> " 9)
           (nodes Samples.mixed_request) "").
  vm_compute. reflexivity.
Defined.

Lemma Zdigits2_lower m : 0 < m → 2 ^ (Zdigits2 m - 1) ≤ m.
Proof.
  intros Hm. destruct m as [| p | p]; try lia. simpl Zdigits2.
  rewrite digits2_pos_size.
  pose proof (Pos.size_le p) as Hs.
  assert (H2 : 2 ^ Z.pos (Pos.size p) ≤ 2 * Z.pos p).
  { change 2 with (Z.pos 2) at 1. rewrite <- Pos2Z.inj_pow.
    change (2 * Z.pos p) with (Z.pos p~0). apply Pos2Z.pos_le_pos. exact Hs. }
  replace (Z.pos (Pos.size p)) with (Z.pos (Pos.size p) - 1 + 1) in H2 by lia.
  rewrite Z.pow_add_r in H2 by lia. lia.
Qed.

Lemma fexp_scaled m e s :
  0 ≤ m → 0 ≤ s ≤ 1074 → e ≤ - s → m < 2 ^ (53 - s - e) →
  fexp prec emax (Zdigits2 m + e) ≤ - s.
Proof.
  intros Hm Hs He Hlt. pose proof (Zdigits2_le m (53 - s - e) Hm ltac:(lia) Hlt).
  unfold fexp, emin, prec, emax. lia.
Qed.

Lemma shr_fexp_scaled N s m e l :
  0 ≤ m → 0 ≤ s ≤ 1074 → e ≤ - s → 0 ≤ N < 2 ^ 53 → m ≤ N * 2 ^ (- s - e) →
  ∃ k, 0 ≤ k ∧ snd (shr_fexp prec emax m e l) = e + k ∧ e + k ≤ - s ∧
       shr_m (fst (shr_fexp prec emax m e l)) = m / 2 ^ k ∧
       (l = loc_Exact → m mod 2 ^ k = 0 →
        inexact (fst (shr_fexp prec emax m e l)) = false).
Proof.
  intros Hm Hs He HN Hle. unfold shr_fexp.
  set (n := fexp prec emax (Zdigits2 m + e) - e).
  assert (Hn : e + Z.max 0 n ≤ - s).
  { assert (m < 2 ^ (53 - s - e)).
    { replace (53 - s - e) with (53 + (- s - e)) by lia. rewrite pow2_split by lia.
      assert (0 < 2 ^ (- s - e)) by (apply Z.pow_pos_nonneg; lia). nia. }
    pose proof (fexp_scaled m e s Hm Hs He H). lia. }
  destruct (shr_spec (shr_record_of_loc m l) e n) as (H1 & H2 & H3).
  { rewrite shr_record_of_loc_m. exact Hm. }
  rewrite shr_record_of_loc_m in H2, H3.
  exists (Z.max 0 n). repeat split; [lia | exact H1 | exact Hn | exact H2 |].
  intros -> Hmod. apply H3; [reflexivity | exact Hmod].
Qed.

Lemma binary_round_aux_below_scaled N s mx ex lx :
  0 ≤ mx → 0 ≤ s ≤ 1074 → ex ≤ - s → 0 ≤ N < 2 ^ 53 →
  mx < N * 2 ^ (- s - ex) ∨ (mx = N * 2 ^ (- s - ex) ∧ lx = loc_Exact) →
  below_scaled N s (binary_round_aux prec emax false mx ex lx).
Proof.
  intros Hmx Hs Hex HN Hle. unfold binary_round_aux.
  destruct (shr_fexp_scaled N s mx ex lx Hmx Hs Hex HN ltac:(lia))
    as (k1 & Hk1 & He1 & He1' & Hm1 & Hx1).
  destruct (shr_fexp prec emax mx ex lx) as [mrs1 e1]. simpl in He1, Hm1, Hx1. subst e1.
  set (m1 := round_nearest_even (shr_m mrs1) (loc_of_shr_record mrs1)).
  assert (Hp1 : 0 < 2 ^ k1) by (apply Z.pow_pos_nonneg; lia).
  assert (Hsplit : 2 ^ (- s - ex) = 2 ^ (- s - (ex + k1)) * 2 ^ k1).
  { rewrite <- pow2_split by lia. f_equal. lia. }
  assert (Hpe : 0 < 2 ^ (- s - (ex + k1))) by (apply Z.pow_pos_nonneg; lia).
  assert (Hm1nn : 0 ≤ shr_m mrs1) by (rewrite Hm1; apply Z.div_pos; lia).
  assert (Hm1le : shr_m mrs1 ≤ N * 2 ^ (- s - (ex + k1))).
  { rewrite Hm1. apply Z.div_le_upper_bound; [lia |]. rewrite Hsplit in Hle. nia. }
  assert (Hr : 0 ≤ m1 ≤ N * 2 ^ (- s - (ex + k1))).
  { pose proof (round_nearest_even_bounds (shr_m mrs1) (loc_of_shr_record mrs1)) as [Hb Hexact].
    fold m1 in Hb, Hexact.
    destruct (Z_lt_le_dec (shr_m mrs1) (N * 2 ^ (- s - (ex + k1)))) as [Hlt | Hge]; [lia |].
    assert (Hbig : N * 2 ^ (- s - ex) ≤ mx).
    { pose proof (Z.mul_div_le mx (2 ^ k1) Hp1). rewrite <- Hm1 in H. rewrite Hsplit. nia. }
    destruct Hle as [Hlt | [Heq Hloc]]; [lia |].
    rewrite Hexact; [lia |]. apply loc_of_shr_record_exact, Hx1; [exact Hloc |].
    rewrite Heq, Hsplit, Z.mul_assoc. apply Z.mod_mul. lia. }
  destruct (shr_fexp_scaled N s m1 (ex + k1) loc_Exact ltac:(lia) Hs He1' HN ltac:(lia))
    as (k2 & Hk2 & He2 & He2' & Hm2 & _).
  destruct (shr_fexp prec emax m1 (ex + k1) loc_Exact) as [mrs2 e2].
  simpl in He2, Hm2. subst e2.
  assert (Hp2 : 0 < 2 ^ k2) by (apply Z.pow_pos_nonneg; lia).
  assert (Hsplit2 : 2 ^ (- s - (ex + k1)) = 2 ^ (- s - (ex + k1 + k2)) * 2 ^ k2).
  { rewrite <- pow2_split by lia. f_equal. lia. }
  assert (Hm2nn : 0 ≤ shr_m mrs2) by (rewrite Hm2; apply Z.div_pos; lia).
  assert (Hm2le : shr_m mrs2 ≤ N * 2 ^ (- s - (ex + k1 + k2))).
  { rewrite Hm2. apply Z.div_le_upper_bound; [lia |]. rewrite Hsplit2 in Hr.
    assert (0 < 2 ^ (- s - (ex + k1 + k2))) by (apply Z.pow_pos_nonneg; lia). nia. }
  destruct (shr_m mrs2) as [| m | m]; [exact I | | lia].
  replace (ex + k1 + k2 <=? emax - prec) with true
    by (symmetry; apply Z.leb_le; unfold emax, prec; lia).
  simpl. split; [lia | exact Hm2le].
Qed.

Lemma SFdiv_below_scaled N s a b :
  Z.pos a * 2 ^ s ≤ N * Z.pos b → 0 ≤ s ≤ 1074 → 0 ≤ N < 2 ^ 52 →
  below_scaled N s (SFdiv prec emax (S754_finite false a 0) (S754_finite false b 0)).
Proof.
  intros Hab Hs HN. unfold SFdiv, SFdiv_core_binary.
  set (d1 := Zdigits2 (Z.pos a)). set (d2 := Zdigits2 (Z.pos b)).
  set (e' := Z.min (fexp prec emax (d1 + 0 - (d2 + 0))) (0 - 0)).
  assert (H52 : 2 ^ 52 * 2 = 2 ^ 53) by reflexivity.
  assert (Hps : 0 < 2 ^ s) by (apply Z.pow_pos_nonneg; lia).
  assert (Hd : d1 - d2 ≤ 53 - s).
  { pose proof (Zdigits2_lower (Z.pos a) ltac:(lia)) as Ha. fold d1 in Ha.
    assert (Hb : Z.pos b < 2 ^ d2).
    { unfold d2. simpl Zdigits2. rewrite digits2_pos_size.
      change 2 with (Z.pos 2). rewrite <- Pos2Z.inj_pow. apply Pos2Z.pos_lt_pos, Pos.size_gt. }
    assert (Hd1 : 0 < d1) by (unfold d1; simpl; lia).
    assert (Hd2 : 0 < d2) by (unfold d2; simpl; lia).
    destruct (Z_le_gt_dec (d1 - d2) (53 - s)) as [Hle | Hgt]; [exact Hle | exfalso].
    assert (Hlow : 2 ^ (52 + d2) ≤ 2 ^ (d1 - 1 + s)) by (apply Z.pow_le_mono_r; lia).
    rewrite !pow2_split in Hlow by lia.
    assert (0 < 2 ^ d2) by (apply Z.pow_pos_nonneg; lia).
    assert (0 < 2 ^ (d1 - 1)) by (apply Z.pow_pos_nonneg; lia).
    assert (2 ^ (d1 - 1) * 2 ^ s ≤ Z.pos a * 2 ^ s) by nia.
    assert (N * Z.pos b < 2 ^ 52 * 2 ^ d2) by nia. lia. }
  assert (He' : e' ≤ - s).
  { unfold e', fexp, emin, prec, emax. lia. }
  set (m' := match 0 - 0 - e' with
             | 0 => Z.pos a
             | Z.pos _ => Z.shiftl (Z.pos a) (0 - 0 - e')
             | Z.neg _ => 0
             end).
  assert (Hm' : m' = Z.pos a * 2 ^ (- e')).
  { unfold m'. replace (0 - 0 - e') with (- e') by lia.
    destruct (- e') as [| p | p] eqn:E; [simpl; lia | | lia].
    rewrite Z.shiftl_mul_pow2 by lia. reflexivity. }
  clearbody m'.
  pose proof (Z_div_mod m' (Z.pos b) ltac:(lia)) as Hdm.
  destruct (Z.div_eucl m' (Z.pos b)) as [q r]. destruct Hdm as [Hq Hr].
  simpl xorb.
  assert (Hp : 0 < 2 ^ (- s - e')) by (apply Z.pow_pos_nonneg; lia).
  assert (Hsplit : 2 ^ (- e') = 2 ^ s * 2 ^ (- s - e')).
  { rewrite <- pow2_split by lia. f_equal. lia. }
  assert (Hq0 : 0 ≤ q) by nia.
  apply binary_round_aux_below_scaled; [exact Hq0 | exact Hs | exact He' | lia |].
  assert (Hmm : m' ≤ N * 2 ^ (- s - e') * Z.pos b) by (rewrite Hm', Hsplit; nia).
  destruct (Z_lt_le_dec q (N * 2 ^ (- s - e'))) as [Hlt | Hge]; [left; exact Hlt | right].
  assert (Hqeq : q = N * 2 ^ (- s - e')) by nia.
  split; [exact Hqeq |].
  assert (r = 0) by nia. subst r. apply new_location_exact.
Qed.

Lemma truediv_below_scaled N s a b :
  0 ≤ a → 0 < b → a * 2 ^ s ≤ N * b → 0 ≤ s ≤ 1074 → 0 ≤ N < 2 ^ 52 →
  ∃ x, truediv a b = Some x ∧ below_scaled N s x.
Proof.
  intros Ha Hb Hab Hs HN. unfold truediv.
  replace (b =? 0) with false by (symmetry; apply Z.eqb_neq; lia).
  destruct b as [| b | b]; try lia.
  destruct a as [| a | a]; try lia.
  - exists (S754_zero false). split; reflexivity.
  - pose proof (SFdiv_below_scaled N s a b Hab Hs HN) as Hbel.
    unfold float_of_int.
    destruct (SFdiv prec emax (S754_finite false a 0) (S754_finite false b 0))
      as [[] | [] | | [] m e]; simpl in Hbel; try contradiction; eauto.
Qed.

Lemma mul_int_below_scaled N s x k :
  below_scaled N s x → 0 ≤ s ≤ 1074 → 0 ≤ k → 0 ≤ N → N * k < 2 ^ 53 →
  below_scaled (N * k) s (mul_int x k).
Proof.
  intros Hx Hs Hk HN HNk. unfold mul_int.
  destruct x as [[] | [] | | [] m e]; simpl in Hx; try contradiction.
  - destruct k as [| k | k]; try lia; exact I.
  - destruct Hx as [He Hm]. destruct k as [| k | k]; try lia; [exact I |].
    unfold float_of_int, SFmul. simpl xorb.
    apply binary_round_aux_below_scaled; [lia | exact Hs | lia | nia |].
    rewrite Z.add_0_r.
    assert (0 < 2 ^ (- s - e)) by (apply Z.pow_pos_nonneg; lia).
    rewrite Pos2Z.inj_mul.
    destruct (Z_lt_le_dec (Z.pos m * Z.pos k) (N * Z.pos k * 2 ^ (- s - e))); [left; lia | right].
    split; [nia | reflexivity].
Qed.

Lemma int_below_scaled N s x :
  0 ≤ N → 0 ≤ s → below_scaled N s x → ∃ n, int x = Some n ∧ 0 ≤ n ∧ n * 2 ^ s ≤ N.
Proof.
  intros HN Hs. destruct x as [[] | [] | | [] m e]; simpl; try contradiction.
  - intros _. exists 0. split; [reflexivity | lia].
  - intros [He Hm]. exists (Z.shiftl (Z.pos m) e). split; [reflexivity |].
    rewrite Z.shiftl_div_pow2 by lia.
    assert (Hpe : 0 < 2 ^ (- e)) by (apply Z.pow_pos_nonneg; lia).
    assert (Hps : 0 < 2 ^ s) by (apply Z.pow_pos_nonneg; lia).
    assert (Hp : 0 < 2 ^ (- s - e)) by (apply Z.pow_pos_nonneg; lia).
    assert (Hsplit : 2 ^ (- e) = 2 ^ s * 2 ^ (- s - e)).
    { rewrite <- pow2_split by lia. f_equal. lia. }
    split; [apply Z.div_pos; lia |].
    pose proof (Z.mul_div_le (Z.pos m) (2 ^ (- e)) Hpe) as Hfloor.
    set (n := Z.pos m / 2 ^ (- e)) in *.
    rewrite Hsplit in Hfloor.
    assert (n * 2 ^ s * 2 ^ (- s - e) ≤ N * 2 ^ (- s - e)) by lia.
    nia.
Qed.

(** A percentage reaches [k] only when the exact ratio exceeds
    [k - 1/2] percent. *)
Lemma percent_of_reaches part total k r :
  0 ≤ part → 0 < total → 1 ≤ k ≤ 101 →
  percent_of part total = Some r → k ≤ r →
  (2 * k - 1) * total < 200 * part.
Proof.
  intros Hp Ht Hk Hr Hkr.
  destruct (Z_lt_le_dec ((2 * k - 1) * total) (200 * part)) as [Hlt | Hge]; [exact Hlt |].
  exfalso. unfold percent_of in Hr.
  assert (H40 : 2 ^ 40 = 1099511627776) by reflexivity.
  assert (H52 : 2 ^ 52 = 4503599627370496) by reflexivity.
  assert (H53 : 2 ^ 53 = 9007199254740992) by reflexivity.
  set (N := ((2 * k - 1) * 2 ^ 40 + 199) / 200).
  assert (HN : (2 * k - 1) * 2 ^ 40 ≤ 200 * N ≤ (2 * k - 1) * 2 ^ 40 + 199).
  { unfold N. pose proof (Z.div_mod ((2 * k - 1) * 2 ^ 40 + 199) 200 ltac:(lia)).
    pose proof (Z.mod_pos_bound ((2 * k - 1) * 2 ^ 40 + 199) 200 ltac:(lia)). lia. }
  destruct (truediv_below_scaled N 40 part total) as (q & Hq & Hbelow); [lia | lia | | lia | lia |].
  { nia. }
  rewrite Hq in Hr. cbn [mbind option_bind] in Hr.
  assert (HNk : N * 100 < 2 ^ 53) by lia.
  pose proof (mul_int_below_scaled N 40 q 100 Hbelow ltac:(lia) ltac:(lia) ltac:(lia) HNk)
    as Hmul.
  assert (HN0 : 0 ≤ N * 100) by lia.
  destruct (int_below_scaled _ 40 _ HN0 ltac:(lia) Hmul) as (n & Hn & Hn0 & Hle).
  rewrite Hn in Hr. injection Hr as <-. lia.
Qed.

Lemma percent_of_range part total :
  0 ≤ part ≤ total → 0 < total → ∃ r, percent_of part total = Some r ∧ 0 ≤ r ≤ 100.
Proof.
  intros Hp Ht. unfold percent_of.
  assert (H53 : 2 ^ 53 = 9007199254740992) by reflexivity.
  destruct (truediv_below 1 part total) as (q & Hq & Hbelow); [lia | lia | lia | lia |].
  rewrite Hq. cbn [mbind option_bind].
  assert (Hk : 1 * 100 < 2 ^ 53) by lia.
  pose proof (mul_int_below 1 q 100 Hbelow ltac:(lia) ltac:(lia) Hk) as Hmul.
  assert (H100 : 0 ≤ 1 * 100) by lia.
  destruct (int_below _ _ H100 Hmul) as (n & Hn & Hrange). exists n. split; [exact Hn | lia].
Qed.

(** The two percentages of disjoint parts never add up to more than 100. *)
Lemma percentages_sum action dialogue total a d :
  0 ≤ action → 0 ≤ dialogue → action + dialogue ≤ total → 0 < total →
  percent_of action total = Some a → percent_of dialogue total = Some d →
  0 ≤ a ∧ 0 ≤ d ∧ a + d ≤ 100.
Proof.
  intros Ha Hd Hsum Ht Hpa Hpd.
  destruct (percent_of_range action total ltac:(lia) Ht) as (a' & Ha' & Hra).
  destruct (percent_of_range dialogue total ltac:(lia) Ht) as (d' & Hd' & Hrd).
  rewrite Hpa in Ha'. injection Ha' as <-. rewrite Hpd in Hd'. injection Hd' as <-.
  split; [lia |]. split; [lia |].
  destruct (Z_le_gt_dec (a + d) 100) as [Hle | Hgt]; [exact Hle | exfalso].
  pose proof (percent_of_reaches action total a a Ha Ht ltac:(lia) Hpa ltac:(lia)).
  pose proof (percent_of_reaches dialogue total d d Hd Ht ltac:(lia) Hpd ltac:(lia)).
  nia.
Qed.

(** X11. The ratio of a pacing analysis that is returned has the form
    [a/b] with [a] and [b] not negative and [a + b = 100]. *)
Theorem pacing_ratio_parts_sum_to_100
    (nodes : list StoryNode) (full_text : string) (pacing : PacingAnalysis) :
  _analyze_pacing nodes full_text = Some pacing →
  ∃ first second,
    action_vs_dialogue_ratio pacing = Py.str first +:+ "/" +:+ Py.str second ∧
    0 ≤ first ∧ 0 ≤ second ∧ first + second = 100.
Proof.
  unfold _analyze_pacing.
  set (action := count_keywords _ (Py.lower full_text)).
  set (dialogue := Py.count double_quote full_text + Py.count single_quote full_text).
  set (description := count_keywords (keywords_of pacing_indicators "description") _).
  assert (Ha : 0 ≤ action) by apply count_keywords_nonneg.
  assert (Hdesc : 0 ≤ description) by apply count_keywords_nonneg.
  assert (Hd : 0 ≤ dialogue).
  { pose proof (count_nonneg double_quote full_text).
    pose proof (count_nonneg single_quote full_text). unfold dialogue. lia. }
  unfold ratio_string_of.
  destruct (Z.ltb_spec 0 (action + dialogue + description)) as [Hpos | Hle].
  - destruct (percent_of_range action (action + dialogue + description)) as (a & Hpa & _);
      [lia | lia |].
    destruct (percent_of_range dialogue (action + dialogue + description)) as (d & Hpd & _);
      [lia | lia |].
    assert (Hparts : action + dialogue ≤ action + dialogue + description) by lia.
    destruct (percentages_sum action dialogue _ a d Ha Hd Hparts Hpos Hpa Hpd)
      as (Ha0 & Hd0 & Hsum).
    rewrite Hpa. cbn [mbind option_bind]. rewrite Hpd. cbn [mbind option_bind].
    intros [= <-]. exists (a + d), (100 - a - d).
    cbn [action_vs_dialogue_ratio]. split_and!; [reflexivity | lia | lia | lia].
  - cbn [mbind option_bind]. intros [= <-]. exists 50, 50.
    cbn [action_vs_dialogue_ratio]. split_and!; [reflexivity | lia | lia | lia].
Qed.

(** X11 on the sample story of five scenes. *)
Lemma pacing_ratio_parts_sum_to_100_witness :
  let nodes := AnalysisService.nodes Samples.mixed_request in
  ∃ pacing,
    _analyze_pacing nodes (_extract_story_text nodes) = Some pacing ∧
    ∃ first second,
      action_vs_dialogue_ratio pacing = Py.str first +:+ "/" +:+ Py.str second ∧
      0 ≤ first ∧ 0 ≤ second ∧ first + second = 100.
Proof.
  intros nodes. eexists. split; [vm_compute; reflexivity |].
  apply (pacing_ratio_parts_sum_to_100 nodes (_extract_story_text nodes)).
  vm_compute. reflexivity.
Defined.

End MoreProperties.

(** ** Further properties of the character and pacing analysis *)

Section CharacterAndPacingProperties.
Import Py AnalysisService Notions MoreNotions TextNotions.
Local Open Scope Z_scope.

Lemma count_protagonist_development_sum text :
  _count_protagonist_development text
  = Py.sum (map (fun indicator => Py.count indicator (Py.lower text)) development_indicators).
Proof.
  unfold _count_protagonist_development. cbv zeta.
  generalize (Py.lower text). intros lowered.
  assert (H : ∀ l acc,
            foldl (fun count indicator => count + Py.count indicator lowered) acc l
            = acc + Py.sum (map (fun indicator => Py.count indicator lowered) l)).
  { induction l as [| x l IH]; intros acc; simpl.
    - unfold Py.sum. simpl. lia.
    - rewrite IH, sum_cons. lia. }
  rewrite H. lia.
Qed.

Lemma count_protagonist_development_nonneg text : 0 ≤ _count_protagonist_development text.
Proof.
  rewrite count_protagonist_development_sum. apply sum_nonneg, Forall_forall.
  intros x Hx. apply elem_of_map in Hx as (k & -> & _). apply count_nonneg.
Qed.

(** X12. The protagonist growth reads [g% completed], where [g] is five times
    the number of development indicators found in the lowercased text,
    capped at 100: a multiple of 5 between 0 and 100, which is 100 exactly
    from twenty indicators on. *)
Theorem protagonist_growth_is_a_multiple_of_five (nodes : list StoryNode) (full_text : string) :
  ∃ growth,
    protagonist_growth (_analyze_character_development nodes full_text)
    = Py.str growth +:+ "% completed" ∧
    growth = Z.min 100 (5 * _count_protagonist_development full_text) ∧
    0 ≤ growth ≤ 100 ∧
    growth `mod` 5 = 0 ∧
    (growth = 100 ↔ 20 ≤ _count_protagonist_development full_text).
Proof.
  pose proof (count_protagonist_development_nonneg full_text) as Hc.
  exists (Z.min 100 (Z.max 0 (_count_protagonist_development full_text * 5))).
  split_and!.
  - reflexivity.
  - lia.
  - lia.
  - lia.
  - destruct (Z_le_gt_dec 20 (_count_protagonist_development full_text)) as [Hbig | Hsmall].
    + rewrite Z.min_l by lia. reflexivity.
    + rewrite Z.min_r by lia. rewrite Z.max_r by lia. apply Z.mod_mul. lia.
  - lia.
Qed.

Lemma foldl_record_pair_size text (pairs : list (string * string))
    (m : gmap string RelationshipEdge) :
  (size (foldl (fun m '(char1, char2) => record_pair text char1 m char2) m pairs)
   ≤ size m + length pairs)%nat.
Proof.
  revert m. induction pairs as [| [char1 char2] pairs IH]; intros m; simpl; [lia |].
  etransitivity; [apply IH |].
  assert (size (record_pair text char1 m char2) ≤ S (size m))%nat; [| lia].
  unfold record_pair. cbv zeta. destruct (0 <? co_occurrence char1 char2 text); [| lia].
  destruct (m !! pair_key char1 char2) eqn:Hk.
  - rewrite map_size_insert_Some by eauto. lia.
  - rewrite map_size_insert_None by exact Hk. lia.
Qed.

Lemma candidate_pairs_length characters : (length (candidate_pairs characters) ≤ 15)%nat.
Proof.
  destruct characters as [| a [| b [| c [| d [| e [| f rest]]]]]];
    unfold candidate_pairs; cbn; rewrite ?take_0; cbn; lia.
Qed.

(** X13. The relationship matrix has at most fifteen entries, and none when
    there are fewer than two candidates. *)
Theorem relationship_matrix_has_at_most_15_entries
    (nodes : list StoryNode) (full_text : string) :
  let matrix := relationship_matrix (_analyze_character_development nodes full_text) in
  (size matrix ≤ 15)%nat ∧
  ((length (_extract_character_names full_text) < 2)%nat → matrix = ∅).
Proof.
  cbv zeta. unfold _analyze_character_development. cbn [relationship_matrix].
  split.
  - rewrite build_relationship_matrix_pairs.
    etransitivity; [apply foldl_record_pair_size |].
    rewrite map_size_empty.
    pose proof (candidate_pairs_length (_extract_character_names full_text)). lia.
  - intros Hlt. unfold _build_relationship_matrix.
    apply Nat.ltb_lt in Hlt. rewrite Hlt. reflexivity.
Qed.

Lemma omap_length_le {A B} (f : A → option B) (l : list A) :
  (length (omap f l) ≤ length l)%nat.
Proof.
  induction l as [| x l IH]; [reflexivity |].
  cbn [omap list_omap]. destruct (f x); simpl; lia.
Qed.

(** X14. For scenes of ASCII characters, the slow sections are exactly the
    entries [Scene k: title] of the
    scenes, numbered in chronological order from 1, whose lowercased
    tag-free content has more than 100 words and no action keyword; there
    are at most as many as scenes. *)
Theorem slow_sections_are_long_scenes_without_action
    (nodes : list StoryNode) (full_text : string) (pacing : PacingAnalysis) :
  ascii_scenes nodes →
  _analyze_pacing nodes full_text = Some pacing →
  (length (slow_sections pacing) ≤ length nodes)%nat ∧
  ∀ entry,
    entry ∈ slow_sections pacing ↔
    ∃ k node,
      sorted_nodes nodes !! k = Some node ∧
      entry = "Scene " +:+ Py.str (Z.of_nat k + 1) +:+ ": " +:+ title node ∧
      (100 < length (Py.split (Py.lower (Py.sub_tags (content node)))))%nat ∧
      count_keywords (keywords_of pacing_indicators "action")
                     (Py.lower (Py.sub_tags (content node))) = 0.
Proof.
  intros _. unfold _analyze_pacing. cbv zeta.
  destruct (ratio_string_of _ _ _) as [ratio |]; [| discriminate].
  cbn [mbind option_bind]. intros [= <-]. cbn [slow_sections].
  unfold slow_sections_of, Py.enumerate. split.
  - etransitivity; [apply omap_length_le |].
    rewrite length_enumerate_from, sorted_nodes_length. lia.
  - intros entry. split.
    + intros Hin. apply omap_enumerate_from_elem in Hin as (k & node & Hk & Hf).
      exists k, node. cbv zeta in Hf.
      destruct (Nat.ltb_spec 100 (length (Py.split (Py.lower (Py.sub_tags (content node))))))
        as [Hlong | Hshort]; [| discriminate].
      destruct (Z.eqb_spec (count_keywords (keywords_of pacing_indicators "action")
                              (Py.lower (Py.sub_tags (content node)))) 0) as [Hnone | Hsome];
        [| discriminate].
      cbn [andb] in Hf. injection Hf as <-.
      split_and!; [exact Hk | reflexivity | exact Hlong | exact Hnone].
    + intros (k & node & Hk & -> & Hlong & Hnone).
      apply list_elem_of_omap. exists (0 + Z.of_nat k, node). split.
      * apply list_elem_of_lookup. exists k. rewrite enumerate_from_lookup, Hk. reflexivity.
      * cbv zeta. apply Nat.ltb_lt in Hlong. rewrite Hlong, Hnone. reflexivity.
Qed.

(** X14 on a story with one long scene without action. *)
Lemma slow_sections_are_long_scenes_without_action_witness :
  ∃ pacing,
    _analyze_pacing (nodes MoreSamples.long_request)
                    (_extract_story_text (nodes MoreSamples.long_request)) = Some pacing ∧
    (length (slow_sections pacing) ≤ length (nodes MoreSamples.long_request))%nat ∧
    ∀ entry,
      entry ∈ slow_sections pacing ↔
      ∃ k node,
        sorted_nodes (nodes MoreSamples.long_request) !! k = Some node ∧
        entry = "Scene " +:+ Py.str (Z.of_nat k + 1) +:+ ": " +:+ title node ∧
        (100 < length (Py.split (Py.lower (Py.sub_tags (content node)))))%nat ∧
        count_keywords (keywords_of pacing_indicators "action")
                       (Py.lower (Py.sub_tags (content node))) = 0.
Proof.
  eexists. split; [vm_compute; reflexivity |].
  apply (slow_sections_are_long_scenes_without_action (nodes MoreSamples.long_request)
           (_extract_story_text (nodes MoreSamples.long_request))).
  - apply (bool_decide_unpack _). vm_compute. exact I.
  - vm_compute. reflexivity.
Defined.

End CharacterAndPacingProperties.

(** ** Properties of the analytics route *)

Section RouteProperties.
Import AnalysisService Notions MoreNotions TextNotions FastAPI.
Local Open Scope Z_scope.

(** With scenes, the peak moment is the title of one of them. *)
Lemma peak_is_scene_title nodes full_text arc :
  nodes ≠ [] →
  _analyze_emotional_arc nodes full_text = Some arc →
  ∃ node, node ∈ nodes ∧ peak_moment arc = title node.
Proof.
  intros Hne. unfold _analyze_emotional_arc.
  set (points := map _ (Py.enumerate (sorted_nodes nodes))).
  destruct (map point_tension points) as [| s scores] eqn:Hscores.
  - exfalso. apply Hne. apply (f_equal length) in Hscores.
    unfold points, Py.enumerate in Hscores.
    rewrite !length_map, length_enumerate_from, sorted_nodes_length in Hscores.
    destruct nodes; [reflexivity | discriminate].
  - destruct (Py.max (s :: scores)) as [top |]; [| discriminate]. cbn [mbind option_bind].
    destruct (Py.index top (s :: scores)) as [idx |]; [| discriminate].
    cbn [mbind option_bind].
    destruct (sorted_nodes nodes !! idx) as [peak |] eqn:Hpeak; [| discriminate].
    cbn [mbind option_bind].
    destruct (Py.int_mean (s :: scores)) as [r |]; [| discriminate].
    cbn [mbind option_bind]. intros [= <-]. exists peak. split; [| reflexivity].
    apply list_elem_of_lookup_2 in Hpeak.
    rewrite <- (sorted_perm created_at nodes). exact Hpeak.
Qed.

(** X15. For scenes of ASCII characters, the route [/analytics/analyze]
    answers 400 exactly when the request has no scene, or fewer than 100
    words in the raw contents of its scenes, each with its own detail. With
    100 words or more it hands on what the service gives: a profile that is
    returned is the profile of the service, and its peak moment is the
    title of a scene of the request; an exception of the service is
    answered with 500 and [Failed to analyze story]. *)
Theorem analyze_route_outcomes (now : Z) (request : AnalysisRequest) :
  ascii_scenes (nodes request) →
  match Analytics.analyze_story now request with
  | Return profile =>
      nodes request ≠ [] ∧
      100 ≤ Analytics.total_words (nodes request) ∧
      AnalysisService.analyze_story now request = Some profile ∧
      ∃ node, node ∈ nodes request ∧ peak_moment (emotional_arc profile) = title node
  | HTTPException status_code detail =>
      status_code = 400 ∧ nodes request = [] ∧
      detail = "At least one story node is required"
      ∨
      status_code = 400 ∧ nodes request ≠ [] ∧
      Analytics.total_words (nodes request) < 100 ∧
      detail = "Story needs at least 100 words for meaningful analysis"
      ∨
      status_code = 500 ∧ nodes request ≠ [] ∧
      100 ≤ Analytics.total_words (nodes request) ∧
      AnalysisService.analyze_story now request = None ∧
      detail = "Failed to analyze story"
  end.
Proof.
  intros _. unfold Analytics.analyze_story.
  destruct (nodes request) as [| node rest] eqn:Hnodes.
  - left. split_and!; reflexivity.
  - cbv zeta. destruct (Z.ltb_spec (Analytics.total_words (node :: rest)) 100) as [Hlt | Hge].
    + right. left. split_and!; [reflexivity | discriminate | exact Hlt | reflexivity].
    + destruct (AnalysisService.analyze_story now request) as [profile |] eqn:Hp.
      * split_and!; [discriminate | exact Hge | reflexivity |].
        unfold AnalysisService.analyze_story in Hp. rewrite Hnodes in Hp.
        destruct (_analyze_emotional_arc (node :: rest) _) as [arc |] eqn:Harc;
          [| discriminate].
        cbn [mbind option_bind] in Hp.
        destruct (_analyze_theme_consistency (node :: rest) _) as [tc |]; [| discriminate].
        cbn [mbind option_bind] in Hp.
        destruct (_analyze_pacing (node :: rest) _) as [pa |]; [| discriminate].
        cbn [mbind option_bind] in Hp. injection Hp as <-. cbn [emotional_arc].
        eapply peak_is_scene_title; [discriminate | exact Harc].
      * right. right.
        split_and!; [reflexivity | discriminate | exact Hge | reflexivity | reflexivity].
Qed.

(** X15 on a story of 120 words. *)
Lemma analyze_route_outcomes_witness :
  let request := MoreSamples.long_request in
  ascii_scenes (nodes request) ∧
  match Analytics.analyze_story 0 request with
  | Return profile =>
      nodes request ≠ [] ∧
      100 ≤ Analytics.total_words (nodes request) ∧
      AnalysisService.analyze_story 0 request = Some profile ∧
      ∃ node, node ∈ nodes request ∧ peak_moment (emotional_arc profile) = title node
  | HTTPException status_code detail =>
      status_code = 400 ∧ nodes request = [] ∧
      detail = "At least one story node is required"
      ∨
      status_code = 400 ∧ nodes request ≠ [] ∧
      Analytics.total_words (nodes request) < 100 ∧
      detail = "Story needs at least 100 words for meaningful analysis"
      ∨
      status_code = 500 ∧ nodes request ≠ [] ∧
      100 ≤ Analytics.total_words (nodes request) ∧
      AnalysisService.analyze_story 0 request = None ∧
      detail = "Failed to analyze story"
  end.
Proof.
  intros request.
  assert (Hascii : ascii_scenes (nodes request))
    by (apply (bool_decide_unpack _); vm_compute; exact I).
  split; [exact Hascii |].
  apply (analyze_route_outcomes 0 request Hascii).
Defined.

End RouteProperties.

(** ** Properties of the branch generation service *)

Section BranchProperties.
Import Json AIService BranchNotions TextNotions FastAPI.
Local Open Scope Z_scope.

(** *** Identifiers *)

Lemma append_inj_l (k a b : string) : k +:+ a = k +:+ b → a = b.
Proof.
  induction k as [| c k IH]; [rewrite !append_nil_l; auto |].
  rewrite !append_cons. intros [= H]. auto.
Qed.

Lemma underscore_free_embedded (a d : string) :
  underscore_free (a +:+ String "_" d) = false.
Proof.
  induction a as [| c a IH]; [reflexivity |].
  rewrite append_cons. simpl. rewrite IH. apply andb_false_r.
Qed.

(** The text after the last underscore is determined. *)
Lemma last_field_inj (a b d1 d2 : string) :
  underscore_free d1 = true → underscore_free d2 = true →
  a +:+ "_" +:+ d1 = b +:+ "_" +:+ d2 → d1 = d2.
Proof.
  intros H1 H2. revert b. induction a as [| x a IH]; intros [| y b].
  - rewrite !append_nil_l. intros [= H]. exact H.
  - rewrite !append_cons, !append_nil_l.
    intros [= _ H]. rewrite H, underscore_free_embedded in H1. discriminate.
  - rewrite !append_cons, !append_nil_l.
    intros [= _ H]. rewrite <- H, underscore_free_embedded in H2. discriminate.
  - rewrite !append_cons. intros [= _ H]. apply (IH _ H).
Qed.

Lemma pretty_N_go_underscore_free (x : N) (s : string) :
  underscore_free s = true → underscore_free (pretty_N_go x s) = true.
Proof.
  revert s. induction (N.lt_wf_0 x) as [x _ IH]. intros s Hs.
  assert (x = 0 ∨ 0 < x)%N as [-> | Hx] by lia.
  - rewrite pretty_N_go_0. exact Hs.
  - rewrite pretty_N_go_step by exact Hx. apply IH.
    + apply N.div_lt; lia.
    + simpl. rewrite Hs. unfold pretty_N_char. repeat case_match; reflexivity.
Qed.

Lemma str_underscore_free (i : Z) : underscore_free (Py.str i) = true.
Proof.
  assert (HN : ∀ n : N, underscore_free (pretty n) = true).
  { intros n. unfold pretty, pretty_N. case_decide; [reflexivity |].
    apply pretty_N_go_underscore_free. reflexivity. }
  unfold Py.str, pretty, pretty_Z. destruct i as [| p | p].
  - reflexivity.
  - apply HN.
  - change ("-" +:+ pretty p) with (String "-" (pretty p)).
    simpl. apply (HN (N.pos p)).
Qed.

(** An identifier carries one number. *)
Lemma tagged_inj kind i j id : tagged kind i id → tagged kind j id → i = j.
Proof.
  intros [s1 ->] [s2 H]. apply append_inj_l in H.
  apply last_field_inj in H; [| apply str_underscore_free ..].
  apply (inj pretty) in H. exact H.
Qed.

Lemma tagged_kinds i j id : tagged "branch_" i id → tagged "fallback_" j id → False.
Proof. intros [s1 ->] [s2 H]. discriminate H. Qed.

(** *** Validation *)

Lemma BranchOption_new_valid id title summary content characters impact tags branch :
  BranchOption_new id title summary content characters impact tags = Some branch →
  valid_impact branch ∧ validate_str id = Some (branch_id branch).
Proof.
  unfold BranchOption_new.
  destruct (validate_str id) as [id' |]; [| discriminate]. cbn [mbind option_bind].
  destruct (validate_str title) as [title' |]; [| discriminate]. cbn [mbind option_bind].
  destruct (validate_str summary) as [summary' |]; [| discriminate]. cbn [mbind option_bind].
  destruct (validate_str content) as [content' |]; [| discriminate]. cbn [mbind option_bind].
  destruct (validate_str_list characters) as [characters' |]; [| discriminate].
  cbn [mbind option_bind].
  destruct (validate_str impact) as [impact' |]; [| discriminate]. cbn [mbind option_bind].
  destruct (validate_str_list tags) as [tags' |]; [| discriminate]. cbn [mbind option_bind].
  destruct (impact_pattern impact') eqn:Hp; [| discriminate].
  intros [= <-]. split; [| reflexivity].
  unfold valid_impact. cbn [branch_impact].
  apply bool_decide_eq_true_1 in Hp. exact Hp.
Qed.

Lemma BranchOption_of_valid branch option :
  BranchOption_of branch = Some option → valid_impact option.
Proof.
  unfold BranchOption_of. destruct branch as [| | | | | | d]; try discriminate.
  destruct (Py.dict_get d "id") as [id |]; [| discriminate]. cbn [mbind option_bind].
  destruct (Py.dict_get d "title") as [title |]; [| discriminate]. cbn [mbind option_bind].
  destruct (Py.dict_get d "summary") as [summary |]; [| discriminate]. cbn [mbind option_bind].
  destruct (Py.dict_get d "content") as [content |]; [| discriminate]. cbn [mbind option_bind].
  destruct (Py.dict_get d "impact") as [impact |]; [| discriminate]. cbn [mbind option_bind].
  intros H. apply BranchOption_new_valid in H as [H _]. exact H.
Qed.

Lemma fallback_index (index : Z) :
  (Z.to_nat (index `mod` Z.of_nat (length fallback_options)) < 3)%nat.
Proof.
  change (Z.of_nat (length fallback_options)) with 3.
  pose proof (Z.mod_pos_bound index 3 ltac:(lia)). lia.
Qed.

Lemma fallback_valid w tick index : valid_impact (_create_fallback_branch w tick index).
Proof.
  unfold valid_impact, _create_fallback_branch. cbn [branch_impact].
  pose proof (fallback_index index) as H.
  destruct (Z.to_nat _) as [| [| [| n]]]; [| | | lia]; simpl; set_solver.
Qed.

Lemma fallback_tagged w tick index :
  tagged "fallback_" index (branch_id (_create_fallback_branch w tick index)).
Proof. eexists. reflexivity. Qed.

Lemma parse_branch_spec w tick i branch_data branch :
  parse_branch w tick i branch_data = Some branch →
  valid_impact branch ∧ tagged "branch_" i (branch_id branch).
Proof.
  unfold parse_branch. destruct branch_data as [| | | | | | d]; try discriminate.
  destruct (validate_str _) as [impact |]; [| discriminate]. cbn [mbind option_bind].
  intros H. apply BranchOption_new_valid in H as [Hv Hid]. split; [exact Hv |].
  injection Hid as <-. eexists. reflexivity.
Qed.

(** *** The two loops *)

(** Identifiers with distinct numbers are distinct. *)
Lemma tagged_NoDup kind (idxs : list Z) (l : list BranchOption) :
  Forall2 (fun i branch => tagged kind i (branch_id branch)) idxs l →
  NoDup idxs → NoDup (map branch_id l).
Proof.
  induction 1 as [| i branch idxs l Hi Hrest IH]; intros Hnd; [constructor |].
  apply NoDup_cons in Hnd as [Hnotin Hnd]. cbn [map]. apply NoDup_cons.
  split; [| apply IH, Hnd].
  intros Hin. apply Hnotin. clear IH Hnd Hnotin.
  induction Hrest as [| j other idxs l Hj Hrest IH]; [inversion Hin |].
  cbn [map] in Hin. apply elem_of_cons in Hin as [Heq | Hin].
  - rewrite <- Heq in Hj. rewrite (tagged_inj _ _ _ _ Hi Hj). apply elem_of_cons. left.
    reflexivity.
  - apply elem_of_cons. right. apply IH, Hin.
Qed.

(** The [for] loop adds the branches that pass, numbered in increasing
    order, and reads the clock once for every item. *)
Lemma parse_items_spec w items :
  ∀ tick start acc,
  ∃ new idxs,
    parse_items w tick (Py.enumerate_from start items) acc
    = ((acc ++ new)%list, (tick + length items)%nat) ∧
    Forall valid_impact new ∧
    Forall2 (fun i branch => tagged "branch_" i (branch_id branch)) idxs new ∧
    Forall (fun i => start ≤ i) idxs ∧
    NoDup idxs.
Proof.
  induction items as [| item items IH]; intros tick start acc.
  - exists [], []. cbn [Py.enumerate_from parse_items length].
    rewrite app_nil_r, Nat.add_0_r. split_and!; constructor.
  - cbn [Py.enumerate_from parse_items length].
    destruct (parse_branch w tick start item) as [branch |] eqn:Hb.
    + destruct (IH (S tick) (start + 1) (acc ++ [branch])%list)
        as (new & idxs & -> & Hv & Ht & Hlo & Hnd).
      apply parse_branch_spec in Hb as [Hbv Hbt].
      exists (branch :: new), (start :: idxs). split_and!.
      * rewrite <- app_assoc. f_equal. lia.
      * constructor; assumption.
      * constructor; assumption.
      * constructor; [lia |]. eapply Forall_impl; [exact Hlo |]. cbv beta. intros. lia.
      * apply NoDup_cons. split; [| exact Hnd].
        intros Hin. rewrite Forall_forall in Hlo. specialize (Hlo _ Hin). lia.
    + destruct (IH (S tick) (start + 1) acc) as (new & idxs & -> & Hv & Ht & Hlo & Hnd).
      exists new, idxs. split_and!; try assumption.
      * f_equal. lia.
      * eapply Forall_impl; [exact Hlo |]. cbv beta. intros. lia.
Qed.

(** The [while] loop fills the places that are left, the place [k] with
    the fallback option [k]; three rounds are enough. *)
Lemma pad_branches_three w tick branches :
  pad_branches 3 w tick branches
  = match branches with
    | [] => ([ _create_fallback_branch w tick 0;
               _create_fallback_branch w (S tick) 1;
               _create_fallback_branch w (S (S tick)) 2 ], S (S (S tick)))
    | [a] => ([ a; _create_fallback_branch w tick 1;
                _create_fallback_branch w (S tick) 2 ], S (S tick))
    | [a; b] => ([ a; b; _create_fallback_branch w tick 2 ], S tick)
    | _ => (branches, tick)
    end.
Proof. destruct branches as [| a [| b [| c rest]]]; reflexivity. Qed.

(** What [_parse_grok_response] returns, in terms of the branches that
    passed. *)
Lemma parse_grok_response_spec w tick d :
  match iterate (get d "branches" (JList [])) with
  | None => _parse_grok_response w tick (JDict d) = None
  | Some items =>
      ∃ parsed idxs,
        _parse_grok_response w tick (JDict d)
        = Some (take 3 (fst (pad_branches 3 w (tick + length items) parsed)),
                snd (pad_branches 3 w (tick + length items) parsed)) ∧
        Forall valid_impact parsed ∧
        Forall2 (fun i branch => tagged "branch_" i (branch_id branch)) idxs parsed ∧
        NoDup idxs
  end.
Proof.
  unfold _parse_grok_response.
  destruct (iterate (get d "branches" (JList []))) as [items |]; [| reflexivity].
  cbn [mbind option_bind]. unfold Py.enumerate.
  destruct (parse_items_spec w items tick 0 []) as (parsed & idxs & -> & Hv & Ht & _ & Hnd).
  rewrite app_nil_l. exists parsed, idxs.
  split_and!; [| exact Hv | exact Ht | exact Hnd].
  destruct (pad_branches 3 w (tick + length items) parsed) as [branches tick']. reflexivity.
Qed.

Lemma fallback_ids_differ w t1 t2 i j :
  i ≠ j →
  branch_id (_create_fallback_branch w t1 i) ≠ branch_id (_create_fallback_branch w t2 j).
Proof.
  intros Hij Heq. apply Hij.
  apply (tagged_inj "fallback_" i j (branch_id (_create_fallback_branch w t1 i))).
  - apply fallback_tagged.
  - rewrite Heq. apply fallback_tagged.
Qed.

Lemma parsed_id_is_no_fallback w t i j (branch : BranchOption) :
  tagged "branch_" i (branch_id branch) →
  branch_id branch ≠ branch_id (_create_fallback_branch w t j).
Proof.
  intros Hb Heq. apply (tagged_kinds i j (branch_id branch) Hb).
  rewrite Heq. apply fallback_tagged.
Qed.

(** The three options that are returned. *)
Lemma padded_options w tick parsed idxs :
  Forall valid_impact parsed →
  Forall2 (fun i branch => tagged "branch_" i (branch_id branch)) idxs parsed →
  NoDup idxs →
  let branches := take 3 (fst (pad_branches 3 w tick parsed)) in
  length branches = 3%nat ∧
  Forall valid_impact branches ∧
  NoDup (map branch_id branches) ∧
  (tick ≤ snd (pad_branches 3 w tick parsed))%nat ∧
  ∃ n, (n ≤ 3)%nat ∧
       (∀ k, (k < n)%nat →
             ∃ branch i, branches !! k = Some branch ∧ tagged "branch_" i (branch_id branch)) ∧
       (∀ k, (n ≤ k < 3)%nat →
             ∃ t, branches !! k = Some (_create_fallback_branch w t (Z.of_nat k))).
Proof.
  intros Hv Ht Hnd. rewrite pad_branches_three.
  pose proof (tagged_NoDup _ _ _ Ht Hnd) as Hids.
  destruct Ht as [| i a idxs parsed Ha Ht].
  { cbn [fst snd take length]. split_and!.
    - reflexivity.
    - repeat first [apply Forall_nil_2 | apply Forall_cons_2]; apply fallback_valid.
    - cbn [map]. repeat (apply NoDup_cons; split); try apply NoDup_nil_2;
        rewrite ?elem_of_cons, ?elem_of_nil; intros H;
        repeat (destruct H as [H | H]); try (exact H);
        revert H; apply fallback_ids_differ; lia.
    - lia.
    - exists 0%nat. split_and!; [lia | intros k Hk; lia |].
      intros k Hk. destruct k as [| [| [| k]]]; [| | | lia]; eexists; reflexivity. }
  destruct Ht as [| j b idxs parsed Hb Ht].
  { cbn [fst snd take length]. apply Forall_cons in Hv as [Hva _]. split_and!.
    - reflexivity.
    - repeat first [apply Forall_nil_2 | apply Forall_cons_2];
        [exact Hva | apply fallback_valid ..].
    - cbn [map]. repeat (apply NoDup_cons; split); try apply NoDup_nil_2;
        rewrite ?elem_of_cons, ?elem_of_nil; intros H;
        repeat (destruct H as [H | H]); try (exact H); revert H;
        first [ apply (parsed_id_is_no_fallback _ _ _ _ _ Ha)
              | apply fallback_ids_differ; lia ].
    - lia.
    - exists 1%nat. split_and!; [lia | |].
      + intros k Hk. destruct k as [| k]; [| lia]. exists a, i. split; [reflexivity | exact Ha].
      + intros k Hk. destruct k as [| [| [| k]]]; [lia | | | lia]; eexists; reflexivity. }
  destruct Ht as [| l c idxs parsed Hc Ht].
  { cbn [fst snd take length].
    apply Forall_cons in Hv as [Hva Hv]. apply Forall_cons in Hv as [Hvb _].
    cbn [map] in Hids. apply NoDup_cons in Hids as [Hab _].
    split_and!.
    - reflexivity.
    - repeat first [apply Forall_nil_2 | apply Forall_cons_2];
        [exact Hva | exact Hvb | apply fallback_valid].
    - cbn [map]. repeat (apply NoDup_cons; split); try apply NoDup_nil_2;
        rewrite ?elem_of_cons, ?elem_of_nil; intros H;
        repeat (destruct H as [H | H]); try (exact H).
      + apply Hab. rewrite H. apply elem_of_cons. left. reflexivity.
      + revert H. apply (parsed_id_is_no_fallback _ _ _ _ _ Ha).
      + revert H. apply (parsed_id_is_no_fallback _ _ _ _ _ Hb).
    - lia.
    - exists 2%nat. split_and!; [lia | |].
      + intros k Hk. destruct k as [| [| k]]; [| | lia].
        * exists a, i. split; [reflexivity | exact Ha].
        * exists b, j. split; [reflexivity | exact Hb].
      + intros k Hk. destruct k as [| [| [| k]]]; [lia | lia | | lia]. eexists; reflexivity. }
  cbn [fst snd]. change (take 3 (a :: b :: c :: parsed)) with [a; b; c].
  apply Forall_cons in Hv as [Hva Hv]. apply Forall_cons in Hv as [Hvb Hv].
  apply Forall_cons in Hv as [Hvc _].
  split_and!.
  - reflexivity.
  - repeat first [apply Forall_nil_2 | apply Forall_cons_2]; assumption.
  - change (map branch_id [a; b; c]) with (take 3 (map branch_id (a :: b :: c :: parsed))).
    eapply sublist_NoDup; [exact Hids | apply sublist_take].
  - lia.
  - exists 3%nat. split_and!; [lia | | intros k Hk; lia].
    intros k Hk. destruct k as [| [| [| k]]]; [| | | lia].
    + exists a, i. split; [reflexivity | exact Ha].
    + exists b, j. split; [reflexivity | exact Hb].
    + exists c, l. split; [reflexivity | exact Hc].
Qed.

(** The outcome of [_parse_grok_response]. *)
Lemma parse_grok_response_shape (w : World) (tick : nat) (response : value) :
  match _parse_grok_response w tick response with
  | Some (branches, tick') =>
      length branches = 3%nat ∧
      Forall valid_impact branches ∧
      NoDup (map branch_id branches) ∧
      (tick ≤ tick')%nat
  | None =>
      match response with
      | JDict d => iterate (get d "branches" (JList [])) = None
      | _ => True
      end
  end.
Proof.
  destruct response as [| | | | | | d]; try exact I.
  pose proof (parse_grok_response_spec w tick d) as Hspec.
  destruct (iterate (get d "branches" (JList []))) as [items |] eqn:Hitems.
  - destruct Hspec as (parsed & idxs & -> & Hv & Ht & Hnd).
    destruct (padded_options w (tick + length items) parsed idxs Hv Ht Hnd)
      as (Hlen & Hvalid & Hids & Htick & _).
    split_and!; [exact Hlen | exact Hvalid | exact Hids | lia].
  - rewrite Hspec. reflexivity.
Qed.

(** X16. When [_parse_grok_response] returns, it returns exactly three
    options, each with the impact [low], [medium] or [high], with pairwise
    distinct identifiers, whatever the clock shows; it raises only for a
    response that is a dict whose [branches] cannot be iterated (other
    responses, which are no dicts, raise as well). *)
Theorem parse_gives_three_valid_options (w : World) (tick : nat) (response : value) :
  match _parse_grok_response w tick response with
  | Some (branches, tick') =>
      length branches = 3%nat ∧
      Forall valid_impact branches ∧
      NoDup (map branch_id branches) ∧
      (tick ≤ tick')%nat
  | None =>
      match response with
      | JDict d => iterate (get d "branches" (JList [])) = None
      | _ => True
      end
  end.
Proof. apply parse_grok_response_shape. Qed.

(** The [for] loop collects the usable branches. *)
Lemma parse_items_usable w items :
  ∀ tick start acc,
    0 ≤ start →
    parse_items w (tick + Z.to_nat start) (Py.enumerate_from start items) acc
    = ((acc ++ omap (fun '(i, item) => parse_branch w (tick + Z.to_nat i) i item)
                    (Py.enumerate_from start items))%list,
       (tick + Z.to_nat start + length items)%nat).
Proof.
  induction items as [| item items IH]; intros tick start acc Hstart.
  - cbn [Py.enumerate_from parse_items omap list_omap length].
    rewrite app_nil_r, Nat.add_0_r. reflexivity.
  - cbn [Py.enumerate_from parse_items omap list_omap length].
    assert (Hnext : (tick + Z.to_nat (start + 1) = S (tick + Z.to_nat start))%nat) by lia.
    rewrite <- Hnext.
    destruct (parse_branch w (tick + Z.to_nat start) start item) as [branch |].
    + rewrite (IH tick (start + 1) _ ltac:(lia)), <- app_assoc. f_equal. lia.
    + rewrite (IH tick (start + 1) _ ltac:(lia)). f_equal. lia.
Qed.

(** X17. The options that [_parse_grok_response] returns for a dict whose
    [branches] can be iterated: the first three usable branches of the
    response, in its order; when fewer than three are usable, the places
    that are left are filled with fallback options, the place [k], counted
    from 0, with the fallback option [k]. *)
Theorem parsed_branches_come_first
    (w : World) (tick : nat) (d : list (string * value)) (items : list value) :
  iterate (get d "branches" (JList [])) = Some items →
  let usable := usable_branches w tick items in
  let n := length usable in
  _parse_grok_response w tick (JDict d)
  = Some ((take 3 usable
           ++ map (fun k => _create_fallback_branch w (tick + length items + (k - n))
                                                    (Z.of_nat k))
                  (seq n (3 - n)))%list,
          (tick + length items + (3 - n))%nat).
Proof.
  intros Hitems usable n. unfold _parse_grok_response. rewrite Hitems.
  cbn [mbind option_bind]. unfold Py.enumerate.
  pose proof (parse_items_usable w items tick 0 [] ltac:(lia)) as Hparse.
  rewrite Nat.add_0_r, app_nil_l in Hparse. rewrite Hparse. fold (Py.enumerate items).
  change (omap _ (Py.enumerate items)) with usable.
  rewrite pad_branches_three. subst n.
  set (T := (tick + length items)%nat).
  destruct usable as [| a [| b [| c rest]]]; cbn [length take seq map Nat.sub app].
  - replace (T + 0)%nat with T by lia. replace (T + 1)%nat with (S T) by lia.
    replace (T + 2)%nat with (S (S T)) by lia. replace (T + 3)%nat with (S (S (S T))) by lia.
    reflexivity.
  - replace (T + 0)%nat with T by lia. replace (T + 1)%nat with (S T) by lia.
    replace (T + 2)%nat with (S (S T)) by lia. reflexivity.
  - replace (T + 0)%nat with T by lia. replace (T + 1)%nat with (S T) by lia.
    reflexivity.
  - change (take 3 (a :: b :: c :: rest)) with [a; b; c].
    rewrite app_nil_r, Nat.add_0_r. reflexivity.
Qed.

(** X17 on a response with one usable branch of three. *)
Lemma parsed_branches_come_first_witness :
  let w := MoreSamples.offline_world in
  let items :=
    [ JDict [("title", JStr "Storm"); ("impact", JStr "High")];
      JDict [("title", JStr "Calm"); ("impact", JStr "critical")];
      JStr "not a branch" ] in
  let usable := usable_branches w 1 items in
  let n := length usable in
  n = 1%nat ∧
  _parse_grok_response w 1 MoreSamples.one_branch_reply
  = Some ((take 3 usable
           ++ map (fun k => _create_fallback_branch w (1 + length items + (k - n))
                                                    (Z.of_nat k))
                  (seq n (3 - n)))%list,
          (1 + length items + (3 - n))%nat).
Proof.
  intros w items usable n. split; [reflexivity |].
  apply (parsed_branches_come_first w 1
           [("branches", JList items)] items).
  reflexivity.
Defined.

(** *** The duration of a call *)

(** The sign of the dividend does not decide whether a quotient
    overflows. *)
Lemma SFdiv_sign_overflow a b s :
  SFdiv Py.prec Py.emax (S754_finite true a 0) (S754_finite false b 0) = S754_infinity s →
  ∃ s', SFdiv Py.prec Py.emax (S754_finite false a 0) (S754_finite false b 0)
        = S754_infinity s'.
Proof.
  unfold SFdiv. destruct (SFdiv_core_binary _ _ _ _ _ _) as [[mz ez] lz].
  unfold binary_round_aux.
  destruct (shr_fexp _ _ mz ez lz) as [mrs' e'].
  destruct (shr_fexp _ _ _ e' loc_Exact) as [mrs'' e''].
  destruct (shr_m mrs''); [discriminate | | discriminate].
  destruct (e'' <=? Py.emax - Py.prec); [discriminate |].
  intros _. eexists. reflexivity.
Qed.

Lemma total_seconds_returns (microseconds : Z) :
  Z.abs microseconds < 2 ^ 62 → ∃ x, total_seconds microseconds = Some x.
Proof.
  intros Hb. unfold total_seconds.
  assert (H62 : 2 ^ 62 = 4611686018427387904) by reflexivity.
  assert (H53 : 2 ^ 53 = 9007199254740992) by reflexivity.
  destruct microseconds as [| p | p].
  - eexists. reflexivity.
  - destruct (truediv_below (2 ^ 53 - 1) (Z.pos p) 1000000) as (x & Hx & _);
      [lia | lia | lia | lia |].
    exists x. exact Hx.
  - unfold Py.truediv. cbn [Z.eqb Py.float_of_int].
    destruct (SFdiv _ _ _ _) as [s | s | | s m e] eqn:Hdiv; try (eexists; reflexivity).
    exfalso. apply SFdiv_sign_overflow in Hdiv as [s' Hdiv].
    assert (Hp : Z.pos p ≤ (2 ^ 53 - 1) * Z.pos 1000000) by lia.
    assert (HB : 0 ≤ 2 ^ 53 - 1 < 2 ^ 53) by lia.
    pose proof (SFdiv_below (2 ^ 53 - 1) p 1000000%positive Hp HB) as Hbel.
    rewrite Hdiv in Hbel. exact Hbel.
Qed.

Lemma duration_returns w j k :
  datetime_range w → ∃ x, total_seconds (now w k - now w j) = Some x.
Proof.
  intros Hw. apply total_seconds_returns.
  assert (H62 : 2 ^ 62 = 4611686018427387904) by reflexivity.
  pose proof (Hw j). pose proof (Hw k). lia.
Qed.

(** *** [generate_branches] *)

Lemma cached_result_valid w cache_key branches :
  _get_cached_result w cache_key = Some branches → Forall valid_impact branches.
Proof.
  unfold _get_cached_result.
  destruct (redis_client w) as [redis_get |]; [| discriminate].
  destruct (redis_get cache_key) as [| | [data |]]; try discriminate.
  cbn [mbind option_bind].
  destruct (iterate data) as [items |]; [| discriminate]. cbn [mbind option_bind].
  intros H. apply mapM_Some in H.
  induction H as [| item branch items branches Hb _ IH]; constructor; [| exact IH].
  apply (BranchOption_of_valid _ _ Hb).
Qed.

Lemma fallback_branches_spec w tick request :
  datetime_range w →
  ∃ generation_time,
    _generate_fallback_branches w tick request
    = Some {| options := [ _create_fallback_branch w (tick + 1) 0;
                           _create_fallback_branch w (tick + 2) 1;
                           _create_fallback_branch w (tick + 3) 2 ];
              generation_time := generation_time;
              cached := false |}.
Proof.
  intros Hw. unfold _generate_fallback_branches.
  destruct (duration_returns w tick (tick + 4) Hw) as [x ->].
  exists x. reflexivity.
Qed.

Lemma fallback_branches_shape w t1 t2 t3 :
  let branches := [ _create_fallback_branch w t1 0;
                    _create_fallback_branch w t2 1;
                    _create_fallback_branch w t3 2 ] in
  length branches = 3%nat ∧ Forall valid_impact branches ∧ NoDup (map branch_id branches).
Proof.
  split_and!.
  - reflexivity.
  - repeat first [apply Forall_nil_2 | apply Forall_cons_2]; apply fallback_valid.
  - cbn [map]. repeat (apply NoDup_cons; split); try apply NoDup_nil_2;
      rewrite ?elem_of_cons, ?elem_of_nil; intros H;
      repeat (destruct H as [H | H]); try (exact H);
      revert H; apply fallback_ids_differ; lia.
Qed.

(** The answers of [generate_branches]: the cached options, or three
    options made now. *)
Lemma generate_branches_spec w request :
  datetime_range w →
  ∃ response,
    generate_branches w request = Some response ∧
    Forall valid_impact (options response) ∧
    match _get_cached_result w (_generate_cache_key w request) with
    | Some (branch :: more) => cached response = true ∧ options response = branch :: more
    | _ =>
        cached response = false ∧
        length (options response) = 3%nat ∧
        NoDup (map branch_id (options response)) ∧
        (_call_grok_api w 1 request = None →
         ∃ t, options response = [ _create_fallback_branch w t 0;
                                   _create_fallback_branch w (t + 1) 1;
                                   _create_fallback_branch w (t + 2) 2 ])
    end.
Proof.
  intros Hw.
  assert (Hfresh :
    ∃ response,
      match _call_grok_api w 1 request with
      | Some (branches, tick) =>
          match total_seconds (now w tick - now w 0) with
          | Some generation_time =>
              Some {| options := branches; generation_time := generation_time;
                      cached := false |}
          | None => _generate_fallback_branches w (S tick) request
          end
      | None => _generate_fallback_branches w 1 request
      end = Some response ∧
      Forall valid_impact (options response) ∧
      cached response = false ∧
      length (options response) = 3%nat ∧
      NoDup (map branch_id (options response)) ∧
      (_call_grok_api w 1 request = None →
       ∃ t, options response = [ _create_fallback_branch w t 0;
                                 _create_fallback_branch w (t + 1) 1;
                                 _create_fallback_branch w (t + 2) 2 ])).
  { destruct (_call_grok_api w 1 request) as [[branches tick] |] eqn:Hcall.
    - destruct (duration_returns w 0 tick Hw) as [x ->].
      eexists. split; [reflexivity |]. cbn [options cached].
      unfold _call_grok_api in Hcall. cbv zeta in Hcall.
      destruct (chat_completion w (_build_prompt request)) as [parsed |]; [| discriminate].
      cbn [mbind option_bind] in Hcall.
      pose proof (parse_grok_response_shape w 1 parsed) as Hshape.
      rewrite Hcall in Hshape. destruct Hshape as (Hlen & Hv & Hids & _).
      split_and!; [exact Hv | reflexivity | exact Hlen | exact Hids | discriminate].
    - destruct (fallback_branches_spec w 1 request Hw) as [x ->].
      eexists. split; [reflexivity |]. cbn [options cached].
      destruct (fallback_branches_shape w (1 + 1) (1 + 2) (1 + 3)) as (Hlen & Hv & Hids).
      split_and!; [exact Hv | reflexivity | exact Hlen | exact Hids |].
      intros _. exists 2%nat. reflexivity. }
  unfold generate_branches. cbv zeta.
  destruct (_get_cached_result w (_generate_cache_key w request)) as [[| branch more] |] eqn:Hc.
  - destruct Hfresh as (response & Hr & Hrest). exists response. split; [exact Hr |].
    destruct Hrest as (Hv & Hrest). split; [exact Hv | exact Hrest].
  - destruct (duration_returns w 0 1 Hw) as [x ->]. cbn [mbind option_bind].
    eexists. split; [reflexivity |]. cbn [options cached].
    split; [apply (cached_result_valid _ _ _ Hc) | split; reflexivity].
  - destruct Hfresh as (response & Hr & Hrest). exists response. split; [exact Hr |].
    destruct Hrest as (Hv & Hrest). split; [exact Hv | exact Hrest].
Qed.

(** X18. For a request of ASCII texts and clock readings in the range of
    [datetime], [generate_branches] always returns a response with at least one option, all of valid
    impact: marked as cached, it holds the options read from Redis;
    otherwise it holds exactly three options with distinct identifiers. *)
Theorem generate_branches_always_answers (w : World) (request : BranchRequest) :
  ascii_request request →
  datetime_range w →
  ∃ response,
    generate_branches w request = Some response ∧
    options response ≠ [] ∧
    Forall valid_impact (options response) ∧
    (cached response = true →
     _get_cached_result w (_generate_cache_key w request) = Some (options response)) ∧
    (cached response = false →
     length (options response) = 3%nat ∧ NoDup (map branch_id (options response))).
Proof.
  intros _ Hw.
  destruct (generate_branches_spec w request Hw) as (response & Hr & Hv & Hcase).
  exists response. split; [exact Hr |]. split_and!; [| exact Hv | |].
  - destruct (_get_cached_result w (_generate_cache_key w request)) as [[| branch more] |];
      [| destruct Hcase as [_ ->]; discriminate |];
      destruct Hcase as (_ & Hlen & _); intros Hnil; rewrite Hnil in Hlen; discriminate.
  - intros Hcached.
    destruct (_get_cached_result w (_generate_cache_key w request)) as [[| branch more] |];
      [| destruct Hcase as [_ ->]; reflexivity |];
      destruct Hcase as (Hfalse & _); rewrite Hfalse in Hcached; discriminate.
  - intros Hcached.
    destruct (_get_cached_result w (_generate_cache_key w request)) as [[| branch more] |];
      [| destruct Hcase as [Htrue _]; rewrite Htrue in Hcached; discriminate |];
      destruct Hcase as (_ & Hlen & Hids & _); split; assumption.
Qed.

(** X18 in a world without Redis. *)
Lemma generate_branches_always_answers_witness :
  ∃ response,
    generate_branches MoreSamples.offline_world (MoreSamples.branch_request "Night fell.")
    = Some response ∧
    options response ≠ [] ∧
    Forall valid_impact (options response) ∧
    (cached response = true →
     _get_cached_result MoreSamples.offline_world
       (_generate_cache_key MoreSamples.offline_world
          (MoreSamples.branch_request "Night fell."))
     = Some (options response)) ∧
    (cached response = false →
     length (options response) = 3%nat ∧ NoDup (map branch_id (options response))).
Proof.
  apply (generate_branches_always_answers MoreSamples.offline_world
           (MoreSamples.branch_request "Night fell.")).
  - split_and!; [reflexivity | reflexivity | reflexivity | repeat constructor].
  - intros k. cbn [now MoreSamples.offline_world]. lia.
Defined.

(** X19. For a request of ASCII texts and clock readings in the range of
    [datetime]: when the cache has nothing for the request and the call of the
    model fails (the API or the decoding raises, or the response cannot be
    parsed), [generate_branches] answers with the three fallback options,
    of impact high, medium and low, and does not mark them as cached. *)
Theorem failed_call_gives_the_fallback_options (w : World) (request : BranchRequest) :
  ascii_request request →
  datetime_range w →
  (∀ branch more,
     _get_cached_result w (_generate_cache_key w request) ≠ Some (branch :: more)) →
  _call_grok_api w 1 request = None →
  ∃ response,
    generate_branches w request = Some response ∧
    cached response = false ∧
    map branch_title (options response)
    = ["Unexpected Discovery"; "Character Encounter"; "Internal Reflection"] ∧
    map branch_impact (options response) = ["high"; "medium"; "low"].
Proof.
  intros _ Hw Hmiss Hfail.
  destruct (generate_branches_spec w request Hw) as (response & Hr & _ & Hcase).
  exists response. split; [exact Hr |].
  destruct (_get_cached_result w (_generate_cache_key w request)) as [[| branch more] |];
    [| exfalso; apply (Hmiss branch more); reflexivity |];
    destruct Hcase as (Hc & _ & _ & Hfb); destruct (Hfb Hfail) as [t ->];
    split_and!; [exact Hc | reflexivity | reflexivity | exact Hc | reflexivity | reflexivity].
Qed.

(** X19 in a world whose model does not answer. *)
Lemma failed_call_gives_the_fallback_options_witness :
  ∃ response,
    generate_branches MoreSamples.cached_world (MoreSamples.branch_request "Night fell.")
    = Some response ∧
    cached response = false ∧
    map branch_title (options response)
    = ["Unexpected Discovery"; "Character Encounter"; "Internal Reflection"] ∧
    map branch_impact (options response) = ["high"; "medium"; "low"].
Proof.
  apply (failed_call_gives_the_fallback_options MoreSamples.cached_world
           (MoreSamples.branch_request "Night fell.")).
  - split_and!; [reflexivity | reflexivity | reflexivity | repeat constructor].
  - intros k. cbn [now MoreSamples.cached_world]. lia.
  - intros branch more. vm_compute. discriminate.
  - vm_compute. reflexivity.
Defined.

(** *** The prompt and the cache key *)

Lemma string_app_assoc (a b c : string) : (a +:+ b) +:+ c = a +:+ b +:+ c.
Proof.
  induction a as [| x a IH]; [reflexivity |].
  rewrite !append_cons, IH. reflexivity.
Qed.

Lemma string_app_length (a b : string) :
  String.length (a +:+ b) = (String.length a + String.length b)%nat.
Proof.
  induction a as [| x a IH]; [reflexivity |].
  rewrite append_cons. simpl. rewrite IH. reflexivity.
Qed.

Lemma substring_all (s : string) : String.substring 0 (String.length s) s = s.
Proof. induction s as [| c s IH]; [reflexivity |]. simpl. rewrite IH. reflexivity. Qed.

Lemma substring_app (a b : string) :
  String.substring (String.length a) (String.length b) (a +:+ b) = b.
Proof.
  induction a as [| x a IH]; [apply substring_all |].
  rewrite append_cons. simpl. exact IH.
Qed.

Lemma last_chars_app (dropped kept : string) :
  last_chars (String.length kept) (dropped +:+ kept) = kept.
Proof.
  unfold last_chars. rewrite string_app_length.
  replace (String.length dropped + String.length kept - String.length kept)%nat
    with (String.length dropped) by lia.
  apply substring_app.
Qed.

Lemma context_snippet_app (dropped kept : string) :
  String.length kept = 500%nat →
  (if (500 <? String.length (dropped +:+ kept))%nat
   then last_chars 500 (dropped +:+ kept)
   else dropped +:+ kept) = kept.
Proof.
  intros Hlen. destruct (Nat.ltb_spec 500 (String.length (dropped +:+ kept))) as [Hlt | Hge].
  - rewrite <- Hlen. apply last_chars_app.
  - rewrite string_app_length in Hge.
    destruct dropped as [| c dropped]; [reflexivity |]. simpl in Hge. lia.
Qed.

(** X20. Of a context of ASCII characters the prompt keeps the last 500
    characters only: two requests whose contexts end with the same 500 characters, and which
    agree on the character names, the genre and the tone, get the same
    prompt; the node id plays no part. *)
Theorem prompt_keeps_the_last_500_characters
    (request1 request2 : BranchRequest) (dropped1 dropped2 kept : string) :
  isascii (context request1) = true →
  isascii (context request2) = true →
  String.length kept = 500%nat →
  context request1 = dropped1 +:+ kept →
  context request2 = dropped2 +:+ kept →
  character_names request1 = character_names request2 →
  genre request1 = genre request2 →
  tone request1 = tone request2 →
  _build_prompt request1 = _build_prompt request2.
Proof.
  intros _ _ Hlen Hc1 Hc2 Hnames Hgenre Htone. unfold _build_prompt.
  rewrite Hc1, Hc2, Hnames, Hgenre, Htone, !(context_snippet_app _ _ Hlen).
  reflexivity.
Qed.

(** X20 on a context of 518 characters and its last 500. *)
Lemma prompt_keeps_the_last_500_characters_witness :
  _build_prompt (MoreSamples.branch_request ("Once upon a time. " +:+ MoreSamples.five_hundred))
  = _build_prompt (MoreSamples.branch_request MoreSamples.five_hundred).
Proof.
  apply (prompt_keeps_the_last_500_characters _ _ "Once upon a time. " ""
           MoreSamples.five_hundred); reflexivity.
Defined.

(** X21. The cache key does not tell where a field ends: moving the text
    after an underscore from the context to the genre, or joining two
    character names with a comma into one, gives the same key, as does
    another node id, whatever the digest. *)
Theorem cache_key_ignores_field_boundaries
    (w : World) (text part1 part2 mood name1 name2 node1 node2 : string)
    (names : list string) :
  _generate_cache_key w
    {| context := text +:+ "_" +:+ part1; current_node_id := node1;
       character_names := name1 :: name2 :: names; genre := part2; tone := mood |}
  = _generate_cache_key w
      {| context := text; current_node_id := node2;
         character_names := (name1 +:+ "," +:+ name2) :: names;
         genre := part1 +:+ "_" +:+ part2; tone := mood |}.
Proof.
  unfold _generate_cache_key, cache_content.
  cbn [context genre tone character_names].
  do 2 f_equal. rewrite !string_app_assoc. do 6 f_equal.
  destruct names as [| name3 names]; [reflexivity |].
  rewrite !join_cons2, !string_app_assoc. reflexivity.
Qed.

(** *** The routes *)

(** X22. For a request of ASCII texts and clock readings in the range of
    [datetime], the route [/branches/generate] answers 400 with [Context cannot be empty] exactly
    when the context is blank, and otherwise returns a response with at
    least one option, all of valid impact; it never answers 500. *)
Theorem generate_route_outcomes (w : World) (request : BranchRequest) :
  ascii_request request →
  datetime_range w →
  match Branches.generate_branches w request with
  | Return response =>
      Py.strip (context request) ≠ "" ∧
      options response ≠ [] ∧
      Forall valid_impact (options response)
  | HTTPException status_code detail =>
      status_code = 400 ∧ detail = "Context cannot be empty" ∧
      Py.strip (context request) = ""
  end.
Proof.
  intros _ Hw. unfold Branches.generate_branches.
  destruct (bool_decide_reflect (Py.strip (context request) = "")) as [Hblank | Hfilled].
  - split_and!; [reflexivity | reflexivity | exact Hblank].
  - cbv zeta.
    set (w' := match redis_client w with Some _ => w | None => _ end).
    assert (Hw' : datetime_range w').
    { unfold w'. destruct (redis_client w); [exact Hw |]. intros k. apply (Hw k). }
    destruct (generate_branches_spec w' request Hw') as (response & -> & Hv & Hcase).
    split_and!; [exact Hfilled | | exact Hv].
    destruct (_get_cached_result w' (_generate_cache_key w' request)) as [[| branch more] |];
      [| destruct Hcase as [_ ->]; discriminate |];
      destruct Hcase as (_ & Hlen & _); intros Hnil; rewrite Hnil in Hlen; discriminate.
Qed.

(** X22 in a world without Redis. *)
Lemma generate_route_outcomes_witness :
  match Branches.generate_branches MoreSamples.offline_world
          (MoreSamples.branch_request "Night fell.") with
  | Return response =>
      Py.strip (context (MoreSamples.branch_request "Night fell.")) ≠ "" ∧
      options response ≠ [] ∧
      Forall valid_impact (options response)
  | HTTPException status_code detail =>
      status_code = 400 ∧ detail = "Context cannot be empty" ∧
      Py.strip (context (MoreSamples.branch_request "Night fell.")) = ""
  end.
Proof.
  apply (generate_route_outcomes MoreSamples.offline_world
           (MoreSamples.branch_request "Night fell.")).
  - split_and!; [reflexivity | reflexivity | reflexivity | repeat constructor].
  - intros k. cbn [now MoreSamples.offline_world]. lia.
Defined.

(** X23. The route [/branches/regenerate] does not bypass the cache: when
    Redis holds options under the key of the request whose context is
    extended by [ [regenerated]], the route returns these options, marked
    as cached. *)
Theorem regenerate_reads_the_cache
    (w : World) (request : BranchRequest) (branch : BranchOption) (more : list BranchOption) :
  datetime_range w →
  _get_cached_result w (_generate_cache_key w (regenerated request)) = Some (branch :: more) →
  ∃ response,
    Branches.regenerate_branches w request = Return response ∧
    cached response = true ∧
    options response = branch :: more.
Proof.
  intros Hw Hc. unfold Branches.regenerate_branches. cbv zeta.
  change {| context := context request +:+ " [regenerated]";
            current_node_id := current_node_id request;
            character_names := character_names request;
            genre := genre request;
            tone := tone request |} with (regenerated request).
  destruct (generate_branches_spec w (regenerated request) Hw) as (response & -> & _ & Hcase).
  rewrite Hc in Hcase. destruct Hcase as [Hcached Hoptions].
  exists response. split_and!; [reflexivity | exact Hcached | exact Hoptions].
Qed.

(** X23 in a world whose Redis holds one option. *)
Lemma regenerate_reads_the_cache_witness :
  ∃ response,
    Branches.regenerate_branches MoreSamples.cached_world
      (MoreSamples.branch_request "Night fell.")
    = Return response ∧
    cached response = true ∧
    options response = [MoreSamples.cached_branch].
Proof.
  apply (regenerate_reads_the_cache MoreSamples.cached_world
           (MoreSamples.branch_request "Night fell.")).
  - intros k. cbn [now MoreSamples.cached_world]. lia.
  - vm_compute. reflexivity.
Defined.

End BranchProperties.

(** ** What the analysis depends on *)

Section Determinism.
Import AnalysisService Notions TextNotions.
Local Open Scope Z_scope.

(** Sorting commutes with a map that keeps the keys. *)
Lemma insert_by_map {A B} (key : A → Z) (key' : B → Z) (g : A → B) x l :
  (∀ y, key' (g y) = key y) →
  Py.insert_by key' (g x) (map g l) = map g (Py.insert_by key x l).
Proof.
  intros Hkey. induction l as [| y l IH]; [reflexivity |].
  simpl. rewrite !Hkey. destruct (key x <=? key y); simpl; [reflexivity |].
  rewrite IH. reflexivity.
Qed.

Lemma sorted_map {A B} (key : A → Z) (key' : B → Z) (g : A → B) l :
  (∀ y, key' (g y) = key y) →
  Py.sorted key' (map g l) = map g (Py.sorted key l).
Proof.
  intros Hkey. induction l as [| x l IH]; [reflexivity |].
  simpl. rewrite IH. apply insert_by_map, Hkey.
Qed.

Lemma enumerate_from_map {A B} (g : A → B) start l :
  Py.enumerate_from start (map g l)
  = map (fun '(i, x) => (i, g x)) (Py.enumerate_from start l).
Proof.
  revert start. induction l as [| x l IH]; intros start; [reflexivity |].
  simpl. rewrite IH. reflexivity.
Qed.

Lemma omap_map {A B C} (f : B → option C) (f' : A → option C) (g : A → B) l :
  (∀ x, f (g x) = f' x) → omap f (map g l) = omap f' l.
Proof.
  intros Hf. induction l as [| x l IH]; [reflexivity |].
  cbn [map omap list_omap]. rewrite Hf, <- IH. reflexivity.
Qed.

Lemma sorted_nodes_anonymous nodes :
  sorted_nodes (map anonymous nodes) = map anonymous (sorted_nodes nodes).
Proof. apply sorted_map. reflexivity. Qed.

(** The scenes enter the analysis with their content, title and
    timestamp only. *)
Lemma extract_story_text_anonymous nodes :
  _extract_story_text (map anonymous nodes) = _extract_story_text nodes.
Proof.
  unfold _extract_story_text. rewrite sorted_nodes_anonymous, foldl_map. reflexivity.
Qed.

Lemma analyze_emotional_arc_anonymous nodes full_text :
  _analyze_emotional_arc (map anonymous nodes) full_text
  = _analyze_emotional_arc nodes full_text.
Proof.
  unfold _analyze_emotional_arc. rewrite sorted_nodes_anonymous.
  unfold Py.enumerate. rewrite enumerate_from_map.
  assert (Hpoints :
    map (fun '(i, node) => emotional_point i node)
        (map (fun '(i, x) => (i, anonymous x)) (Py.enumerate_from 0 (sorted_nodes nodes)))
    = map (fun '(i, node) => emotional_point i node)
          (Py.enumerate_from 0 (sorted_nodes nodes))).
  { rewrite map_map. apply map_ext. intros [i node]. reflexivity. }
  rewrite Hpoints. clear Hpoints.
  destruct (map point_tension _) as [| score scores]; [reflexivity |].
  destruct (Py.max (score :: scores)) as [top |]; [| reflexivity]. cbn [mbind option_bind].
  destruct (Py.index top (score :: scores)) as [idx |]; [| reflexivity].
  cbn [mbind option_bind]. rewrite (map_lookup anonymous).
  destruct (sorted_nodes nodes !! idx) as [peak |]; reflexivity.
Qed.

Lemma theme_mentions_anonymous core nodes :
  theme_mentions_of core (map anonymous nodes) = theme_mentions_of core nodes.
Proof.
  unfold theme_mentions_of. destruct (bool_decide (core ≠ "No clear theme")); [| reflexivity].
  rewrite sorted_nodes_anonymous. unfold Py.enumerate.
  rewrite enumerate_from_map. apply omap_map. intros [i node]. reflexivity.
Qed.

Lemma slow_sections_anonymous nodes :
  slow_sections_of (map anonymous nodes) = slow_sections_of nodes.
Proof.
  unfold slow_sections_of. rewrite sorted_nodes_anonymous. unfold Py.enumerate.
  rewrite enumerate_from_map. apply omap_map. intros [i node]. reflexivity.
Qed.

Lemma analyze_story_anonymous now nodes project1 project2 :
  analyze_story now {| nodes := map anonymous nodes; project_info := project1 |}
  = analyze_story now {| nodes := nodes; project_info := project2 |}.
Proof.
  unfold analyze_story. cbn [AnalysisService.nodes].
  rewrite extract_story_text_anonymous, analyze_emotional_arc_anonymous.
  unfold _analyze_theme_consistency, _analyze_pacing.
  rewrite slow_sections_anonymous.
  replace (_generate_comparative_insights (map anonymous nodes) (_extract_story_text nodes))
    with (_generate_comparative_insights nodes (_extract_story_text nodes))
    by (unfold _generate_comparative_insights, rule_christie, rule_thrones, rule_austen;
        rewrite length_map; reflexivity).
  destruct (_analyze_emotional_arc nodes _) as [arc |]; [| reflexivity].
  cbn [mbind option_bind].
  destruct (core_theme_and_score _) as [[core score] |]; [| reflexivity].
  cbn [mbind option_bind]. rewrite theme_mentions_anonymous. reflexivity.
Qed.

Lemma anonymous_scene_data nodes1 nodes2 :
  map scene_data nodes1 = map scene_data nodes2 → map anonymous nodes1 = map anonymous nodes2.
Proof.
  intros H.
  assert (Hf : ∀ l, map anonymous l
                    = map (fun d : string * string * Z =>
                             {| node_id := ""; content := d.1.1; title := d.1.2;
                                created_at := d.2 |})
                          (map scene_data l)).
  { intros l. rewrite map_map. reflexivity. }
  rewrite !Hf, H. reflexivity.
Qed.

(** C1 (amended). Determinism: the profile is a function of the contents,
    titles and timestamps of the scenes, in the order given, and of the
    reading of the clock, which enters the timestamp of the analysis only.
    Two calls on requests that agree in these (in particular two calls on
    the same request) either both fail or return profiles that agree on the
    emotional arc, the character development, the theme consistency, the
    pacing analysis and the comparative insights; scene identifiers and
    project metadata play no part. *)
Theorem analysis_determined_by_scene_data
    (t1 t2 : Z) (request1 request2 : AnalysisRequest) :
  map scene_data (nodes request1) = map scene_data (nodes request2) →
  match analyze_story t1 request1, analyze_story t2 request2 with
  | Some p1, Some p2 =>
      emotional_arc p1 = emotional_arc p2 ∧
      character_development p1 = character_development p2 ∧
      theme_consistency p1 = theme_consistency p2 ∧
      pacing_analysis p1 = pacing_analysis p2 ∧
      comparative_insights p1 = comparative_insights p2 ∧
      analysis_timestamp p1 = t1 ∧ analysis_timestamp p2 = t2
  | None, None => True
  | _, _ => False
  end.
Proof.
  intros Hdata. apply anonymous_scene_data in Hdata.
  destruct request1 as [nodes1 project1], request2 as [nodes2 project2].
  cbn [nodes] in Hdata.
  rewrite <- (analyze_story_anonymous t1 nodes1 project1 project1).
  rewrite <- (analyze_story_anonymous t2 nodes2 project1 project2).
  rewrite Hdata. unfold analyze_story. cbv zeta. cbn [nodes].
  destruct (_analyze_emotional_arc _ _) as [arc |]; cbn [mbind option_bind]; [| exact I].
  destruct (_analyze_theme_consistency _ _) as [tc |]; cbn [mbind option_bind]; [| exact I].
  destruct (_analyze_pacing _ _) as [pa |]; cbn [mbind option_bind]; [| exact I].
  split_and!; reflexivity.
Qed.

(** C1 (amended) on the sample story and a copy of it with other scene
    identifiers and project metadata, analysed at another instant. *)
Lemma analysis_determined_by_scene_data_witness :
  match analyze_story 0 Samples.mixed_request,
        analyze_story 1 {| nodes := map (fun node =>
                                           {| node_id := "scene " +:+ node_id node;
                                              content := content node;
                                              title := title node;
                                              created_at := created_at node |})
                                        (nodes Samples.mixed_request);
                           project_info :=
                             {| project_id := "p2"; project_title := "Final";
                                project_description := "second copy";
                                project_genre := "drama" |} |} with
  | Some p1, Some p2 =>
      emotional_arc p1 = emotional_arc p2 ∧
      character_development p1 = character_development p2 ∧
      theme_consistency p1 = theme_consistency p2 ∧
      pacing_analysis p1 = pacing_analysis p2 ∧
      comparative_insights p1 = comparative_insights p2 ∧
      analysis_timestamp p1 = 0 ∧ analysis_timestamp p2 = 1
  | None, None => True
  | _, _ => False
  end.
Proof.
  apply (analysis_determined_by_scene_data 0 1 Samples.mixed_request).
  reflexivity.
Defined.

End Determinism.
